(** * Link registry and callback resolver of [panel/links.py]

    A shallow embedding of the [Callback] / [Link] declarations, of the
    class-level [registry] and of the render-time resolution pass
    ([Callback._process_callbacks] and the [CallbackGenerator] family),
    followed by the properties established about them.

    Conventions of the embedding:
    - Python objects are identified by their address (a [nat]); [is] on
      objects and [==] on objects without an [__eq__] of their own are
      address equality.
    - Weak references are modelled as always live: the [source] and
      [target] properties return the referent the link was built with.
    - Dictionaries whose iteration order is observable ([code],
      [properties], [args], the [references] of an emitted callback, model
      attributes) are association lists in iteration order; the registry
      and the object heap, which are only read and written by key, are
      [gmap]s.
    - A Python call is a computation [M A]: it takes the global state and
      returns either a value or a raised exception, together with the
      state reached at that point.
    - What bokeh does is read off the objects as they are at the time of
      the call: [select] on the root model is a function of the object
      graph, and assigning a property goes through the validation of the
      model. *)

From Stdlib Require Import ZArith String Ascii List Bool Lia.
From stdpp Require Import base gmap strings list.

Open Scope string_scope.
Open Scope list_scope.

(** ** Values and exceptions *)

Inductive exn :=
| ValueError (msg : string)
| AttributeError
| KeyError
| TypeError
| UnboundLocalError.

Inductive result (A : Type) :=
| Ok (a : A)
| Raise (e : exn).
Arguments Ok {A} a.
Arguments Raise {A} e.

(** Python values that flow through links: [None], integers and strings
    (literals), a dictionary of strings (the value of a [param.Dict] such
    as [properties]) and references to heap objects. *)
Inductive value :=
| VNone
| VInt (z : Z)
| VStr (s : string)
| VDict (d : list (string * string))
| VRef (a : nat).

(** ** Dictionaries in iteration order *)

Section Dict.
Context {V : Type}.

Fixpoint dict_get (k : string) (d : list (string * V)) : option V :=
  match d with
  | [] => None
  | (k', v) :: rest => if String.eqb k k' then Some v else dict_get k rest
  end.

Definition dict_mem (k : string) (d : list (string * V)) : bool :=
  match dict_get k d with Some _ => true | None => false end.

(** [d[k] = v]: an existing key keeps its position, a new key goes to
    the end. *)
Fixpoint dict_set (k : string) (v : V) (d : list (string * V)) : list (string * V) :=
  match d with
  | [] => [(k, v)]
  | (k', v') :: rest =>
      if String.eqb k k' then (k', v) :: rest else (k', v') :: dict_set k v rest
  end.

(** [d.pop(k)] for a key that is present: the dictionary without it. *)
Fixpoint dict_remove (k : string) (d : list (string * V)) : list (string * V) :=
  match d with
  | [] => []
  | (k', v') :: rest =>
      if String.eqb k k' then rest else (k', v') :: dict_remove k rest
  end.

(** [dict(d, **extra)]: a copy of [d] updated with [extra]. *)
Definition dict_update (d extra : list (string * V)) : list (string * V) :=
  fold_left (fun acc kv => dict_set (fst kv) (snd kv) acc) extra d.

(** [d1 == d2] on dictionaries: same size, and every key of [d1] is
    bound in [d2] to an equal value. *)
Definition dict_eqb (veqb : V -> V -> bool) (d1 d2 : list (string * V)) : bool :=
  Nat.eqb (length d1) (length d2)
  && forallb (fun kv => match dict_get (fst kv) d2 with
                        | Some v => veqb (snd kv) v
                        | None => false
                        end) d1.
End Dict.

Definition value_eqb (a b : value) : bool :=
  match a, b with
  | VNone, VNone => true
  | VInt x, VInt y => Z.eqb x y
  | VStr x, VStr y => String.eqb x y
  | VDict x, VDict y => dict_eqb String.eqb x y
  | VRef x, VRef y => Nat.eqb x y
  | _, _ => false
  end.

Definition option_eqb {A} (eqb : A -> A -> bool) (a b : option A) : bool :=
  match a, b with
  | None, None => true
  | Some x, Some y => eqb x y
  | _, _ => false
  end.

(** ** Link declarations *)

(** The classes of declarations: [Callback], [Link], and a subclass of
    [Link], which may override the class attribute [_requires_target]. *)
Inductive pyclass :=
| cls_Callback
| cls_Link
| cls_LinkSubclass (name : string) (requires_target : bool).

Definition pyclass_eqb (a b : pyclass) : bool :=
  match a, b with
  | cls_Callback, cls_Callback => true
  | cls_Link, cls_Link => true
  | cls_LinkSubclass n r, cls_LinkSubclass n' r' => String.eqb n n' && Bool.eqb r r'
  | _, _ => false
  end.

(** [cls.__name__] *)
Definition __name__ (c : pyclass) : string :=
  match c with
  | cls_Callback => "Callback"
  | cls_Link => "Link"
  | cls_LinkSubclass n _ => n
  end.

(** [cls._requires_target]: [False] on [Callback], [True] on [Link]. *)
Definition _requires_target (c : pyclass) : bool :=
  match c with
  | cls_Callback => false
  | cls_Link => true
  | cls_LinkSubclass _ r => r
  end.

(** Whether instances have a [target] attribute: the property is defined
    by [Link]; [Callback] neither defines it nor stores a target. *)
Definition has_target (c : pyclass) : bool :=
  match c with
  | cls_Callback => false
  | _ => true
  end.

(** An instance of [Callback] or of [Link]. [link_id] is [id(link)];
    [link_args], [link_code] and [link_properties] are the values of the
    parameters [args], [code] and [properties] ([properties] is a
    parameter of [Link] only); [link_name] is the parameter [name]. *)
Record link := {
  link_id : nat;
  link_type : pyclass;
  link_name : string;
  _source : nat;
  _target : option nat;
  link_args : option (list (string * value));
  link_code : option (list (string * string));
  link_properties : list (string * string)
}.

(** The keyword parameters given to a constructor. *)
Record params := {
  p_args : option (list (string * value));
  p_code : option (list (string * string));
  p_properties : list (string * string)
}.

(** ** Rendered objects *)

(** A [bokeh] [CustomJS] callback. *)
Record CustomJS := {
  cjs_args : list (string * value);
  cjs_code : string;
  tags : list nat
}.

(** A [bokeh] model: its properties, the callbacks attached to it, and
    the validation bokeh runs when a property is assigned:
    [prop_error name v] is the message of the [ValueError] with which the
    declared type of the property [name] rejects the value [v], if it
    does. *)
Record BkModel := {
  attrs : list (string * value);
  js_property_callbacks : list (string * list CustomJS);
  js_event_callbacks : list (string * list CustomJS);
  prop_error : string -> value -> option string
}.

(** A [panel] [Viewable]: [_models] maps the id of a root model to the
    model rendered for this view under that root ([_models[ref][0]]);
    [_plots] does the same for the plot of a [HoloViews] pane. The id of a
    root model is modelled by its address. *)
Record Viewable := {
  is_Reactive : bool;
  is_HoloViews : bool;
  _models : gmap nat value;
  _rename : list (string * string);
  _plots : gmap nat nat
}.

(** A [holoviews] element plot rendered with bokeh: an object for which
    [is_bokeh_element_plot] holds. *)
Record ElementPlot := {
  plot_state : value;
  handles : list (string * value)
}.

Inductive pyobj :=
| OViewable (v : Viewable)
| OModel (m : BkModel)
| OPlot (p : ElementPlot)
| OParameterized
| OOther.

(** The two generator classes registered at the end of the module. *)
Inductive generator :=
| cls_JSCallbackGenerator
| cls_JSLinkCallbackGenerator.

(** ** Global state *)

Record state := {
  registry : gmap nat (list link);
  _callbacks : list (pyclass * generator);
  holoviews_loaded : bool;
  heap : gmap nat pyobj
}.

Definition set_registry (r : gmap nat (list link)) (st : state) : state :=
  {| registry := r; _callbacks := _callbacks st;
     holoviews_loaded := holoviews_loaded st; heap := heap st |}.

Definition set_heap (h : gmap nat pyobj) (st : state) : state :=
  {| registry := registry st; _callbacks := _callbacks st;
     holoviews_loaded := holoviews_loaded st; heap := h |}.

Definition set_callbacks (c : list (pyclass * generator)) (st : state) : state :=
  {| registry := registry st; _callbacks := c;
     holoviews_loaded := holoviews_loaded st; heap := heap st |}.

(** ** Computations *)

Definition M (A : Type) : Type := state -> result A * state.

Definition ret {A} (a : A) : M A := fun st => (Ok a, st).
Definition raise {A} (e : exn) : M A := fun st => (Raise e, st).
Definition bind {A B} (c : M A) (k : A -> M B) : M B :=
  fun st => match c st with
            | (Ok a, st') => k a st'
            | (Raise e, st') => (Raise e, st')
            end.
Definition gets {A} (f : state -> A) : M A := fun st => (Ok (f st), st).
Definition modify (f : state -> state) : M unit := fun st => (Ok tt, f st).
(** Running a computation that only reads the state. *)
Definition lift {A} (f : state -> result A) : M A := fun st => (f st, st).

Notation "x <- c1 ;; c2" := (bind c1 (fun x => c2))
  (at level 100, c1 at next level, right associativity).
Notation "c1 ;;; c2" := (bind c1 (fun _ => c2))
  (at level 100, right associativity).

(** [for x in xs: body x] *)
Fixpoint for_each {A} (xs : list A) (body : A -> M unit) : M unit :=
  match xs with
  | [] => ret tt
  | x :: rest => body x ;;; for_each rest body
  end.

Definition rbind {A B} (r : result A) (k : A -> result B) : result B :=
  match r with
  | Ok a => k a
  | Raise e => Raise e
  end.

(** ** Callback and Link *)

Definition link_is (a b : link) : bool := Nat.eqb (link_id a) (link_id b).

(** The property [source]. *)
Definition source (self : link) : nat := _source self.

(** The attribute [target]: the property of [Link]; reading it on an
    instance of [Callback] raises [AttributeError]. *)
Definition target (self : link) : result (option nat) :=
  if has_target (link_type self) then Ok (_target self) else Raise AttributeError.

(** [getattr(link, 'target', None)] *)
Definition target_or_None (self : link) : option nat :=
  if has_target (link_type self) then _target self else None.

(** [{k: v for k, v in a.get_param_values() if k != 'name'} ==
     {k: v for k, v in b.get_param_values() if k != 'name'}] for two
    instances of one class. *)
Definition params_eqb (a b : link) : bool :=
  option_eqb (dict_eqb value_eqb) (link_args a) (link_args b)
  && option_eqb (dict_eqb String.eqb) (link_code a) (link_code b)
  && (if has_target (link_type a)
      then dict_eqb String.eqb (link_properties a) (link_properties b)
      else true).

Module Callback.

(** The loop of [init] over the links registered for the source:
    [Ok true] when it returns from inside the loop, [Ok false] when it
    runs to the end. *)
Fixpoint scan (self : link) (links : list link) : result bool :=
  match links with
  | [] => Ok false
  | lk :: rest =>
      if pyclass_eqb (link_type lk) (link_type self)
         && Nat.eqb (source lk) (source self)
      then rbind (target lk) (fun tl =>
           rbind (target self) (fun ts =>
           if option_eqb Nat.eqb tl ts && params_eqb self lk
           then Ok true
           else scan self rest))
      else scan self rest
  end.

Definition init (self : link) : M unit := fun st =>
  match registry st !! source self with
  | Some links =>
      match scan self links with
      | Raise e => (Raise e, st)
      | Ok true => (Ok tt, st)
      | Ok false =>
          (Ok tt, set_registry (<[source self := links ++ [self]]> (registry st)) st)
      end
  | None => (Ok tt, set_registry (<[source self := [self]]> (registry st)) st)
  end.

(** [Callback.__init__(self, source, target=None, **params)]. The new
    object has address [self_id] and class [cls]; [tgt] is the
    attribute [_target] when a subclass initialiser has set it before
    chaining up. The argument [target] is not used. *)
Definition __init__ (cls : pyclass) (self_id : nat) (nm : string)
    (tgt : option nat)
    (source : option nat) (target : option nat) (p : params) : M link :=
  match source with
  | None => raise (ValueError (__name__ cls +:+ " must define a source"))
  | Some s =>
      let self := {| link_id := self_id; link_type := cls; link_name := nm;
                     _source := s; _target := tgt;
                     link_args := p_args p; link_code := p_code p;
                     link_properties := p_properties p |} in
      init self ;;; ret self
  end.

(** [register_callback]: [cls._callbacks[cls] = callback] *)
Fixpoint callbacks_set (c : pyclass) (g : generator)
    (t : list (pyclass * generator)) : list (pyclass * generator) :=
  match t with
  | [] => [(c, g)]
  | (c', g') :: rest =>
      if pyclass_eqb c c' then (c', g) :: rest else (c', g') :: callbacks_set c g rest
  end.

Definition register_callback (cls : pyclass) (callback : generator) : M unit :=
  modify (fun st => set_callbacks (callbacks_set cls callback (_callbacks st)) st).

End Callback.

Module Link.

(** [Link.__init__(self, source, target=None, **params)] *)
Definition __init__ (cls : pyclass) (self_id : nat) (nm : string)
    (source : option nat) (target : option nat) (p : params) : M link :=
  if _requires_target cls && negb (bool_decide (is_Some target))
  then raise (ValueError (__name__ cls +:+ " must define a target."))
  else Callback.__init__ cls self_id nm target source None p.

(** [links.index(self)] for a list that contains [self]. *)
Fixpoint index (self : link) (links : list link) : nat :=
  match links with
  | [] => 0
  | lk :: rest => if link_is lk self then 0 else S (index self rest)
  end.

(** [links.pop(i)], as to the list that is left. *)
Fixpoint pop (i : nat) (links : list link) : list link :=
  match i, links with
  | _, [] => []
  | 0, _ :: rest => rest
  | S j, lk :: rest => lk :: pop j rest
  end.

Definition unlink (self : link) : M unit := fun st =>
  match registry st !! source self with
  | None => (Raise TypeError, st)
  | Some links =>
      if existsb (fun lk => link_is lk self) links
      then (Ok tt, set_registry (<[source self := pop (index self links) links]>
                                   (registry st)) st)
      else (Ok tt, st)
  end.

(** [link]: [self.init()], then the registration code once more. *)
Definition link (self : link) : M unit :=
  Callback.init self ;;; Callback.init self.

End Link.

(** Instantiating a class: Python runs the [__init__] of the class. *)
Definition construct (cls : pyclass) (self_id : nat) (nm : string)
    (source : option nat) (target : option nat) (p : params) : M link :=
  match cls with
  | cls_Callback => Callback.__init__ cls self_id nm None source target p
  | _ => Link.__init__ cls self_id nm source target p
  end.

(** ** Strings: [str.split('.')], ['.'.join], [str.startswith], slices *)

Fixpoint split_dot (s : string) : list string :=
  match s with
  | EmptyString => [EmptyString]
  | String c rest =>
      if Ascii.eqb c "."%char then EmptyString :: split_dot rest
      else match split_dot rest with
           | [] => [String c EmptyString]
           | h :: t => String c h :: t
           end
  end.

Fixpoint join_dot (l : list string) : string :=
  match l with
  | [] => ""
  | [x] => x
  | x :: rest => x +:+ "." +:+ join_dot rest
  end.

Definition startswith (p s : string) : bool := String.prefix p s.

(** [k[n:]] *)
Definition slice_from (n : nat) (k : string) : string :=
  String.substring n (String.length k - n) k.

(** A property path split on its last segment: [a.b.c] is the prefix
    [a.b] and the leaf [c]; a path of one segment has no prefix. *)
Definition src_spec_t := (option string * string)%type.
Definition tgt_spec_t := (option string * option string)%type.

(** ** Heap access *)

Definition lookup_obj (h : gmap nat pyobj) (v : value) : option pyobj :=
  match v with
  | VRef a => h !! a
  | _ => None
  end.

Definition value_of (o : option nat) : value :=
  match o with
  | Some a => VRef a
  | None => VNone
  end.

Definition is_bokeh_element_plot (h : gmap nat pyobj) (v : value) : bool :=
  match lookup_obj h v with Some (OPlot _) => true | _ => false end.

Definition isinstance_BkModel (h : gmap nat pyobj) (v : value) : bool :=
  match lookup_obj h v with Some (OModel _) => true | _ => false end.

Definition isinstance_Reactive (h : gmap nat pyobj) (v : value) : bool :=
  match lookup_obj h v with Some (OViewable w) => is_Reactive w | _ => false end.

(** [Viewable] derives from [param.Parameterized]. *)
Definition isinstance_Parameterized (h : gmap nat pyobj) (v : value) : bool :=
  match lookup_obj h v with
  | Some (OViewable _) | Some OParameterized => true
  | _ => false
  end.

(** Truth value of a Python value; objects are true. *)
Definition truthy (v : value) : bool :=
  match v with
  | VNone => false
  | VInt z => negb (Z.eqb z 0)
  | VStr s => negb (String.eqb s "")
  | VDict d => match d with [] => false | _ => true end
  | VRef _ => true
  end.

Definition is_None (v : value) : bool :=
  match v with VNone => true | _ => false end.

(** [getattr(model, name)]: the properties of bokeh models are the
    attributes the embedding knows. *)
Definition getattr (h : gmap nat pyobj) (model : value) (nm : string) : result value :=
  match lookup_obj h model with
  | Some (OModel m) =>
      match dict_get nm (attrs m) with
      | Some x => Ok x
      | None => Raise AttributeError
      end
  | _ => Raise AttributeError
  end.

Definition set_attrs (a : list (string * value)) (m : BkModel) : BkModel :=
  {| attrs := a; js_property_callbacks := js_property_callbacks m;
     js_event_callbacks := js_event_callbacks m; prop_error := prop_error m |}.

Definition set_js_property_callbacks (c : list (string * list CustomJS))
    (m : BkModel) : BkModel :=
  {| attrs := attrs m; js_property_callbacks := c;
     js_event_callbacks := js_event_callbacks m; prop_error := prop_error m |}.

Definition set_js_event_callbacks (c : list (string * list CustomJS))
    (m : BkModel) : BkModel :=
  {| attrs := attrs m; js_property_callbacks := js_property_callbacks m;
     js_event_callbacks := c; prop_error := prop_error m |}.

(** [setattr(model, name, v)]: a bokeh model rejects a name that is not
    one of its properties, with [AttributeError], and a value that the
    declared type of the property does not accept, with [ValueError]. *)
Definition setattr (model : value) (nm : string) (v : value) : M unit := fun st =>
  match model with
  | VRef a =>
      match heap st !! a with
      | Some (OModel m) =>
          if dict_mem nm (attrs m)
          then match prop_error m nm v with
               | Some msg => (Raise (ValueError msg), st)
               | None =>
                   (Ok tt, set_heap (<[a := OModel (set_attrs (dict_set nm v (attrs m)) m)]>
                                       (heap st)) st)
               end
          else (Raise AttributeError, st)
      | _ => (Raise AttributeError, st)
      end
  | _ => (Raise AttributeError, st)
  end.

(** [model.js_on_change(event, cb)] of bokeh: the event of a property is
    named [change:<property>]; the callback, a new object, is appended to
    the list of that event. *)
Definition js_on_change (model : value) (event : string) (cb : CustomJS) : M unit :=
  fun st =>
  match model with
  | VRef a =>
      match heap st !! a with
      | Some (OModel m) =>
          let event := if dict_mem event (attrs m) then "change:" +:+ event else event in
          let cbs := default [] (dict_get event (js_property_callbacks m)) in
          (Ok tt, set_heap (<[a := OModel (set_js_property_callbacks
                               (dict_set event (cbs ++ [cb]) (js_property_callbacks m)) m)]>
                              (heap st)) st)
      | _ => (Raise AttributeError, st)
      end
  | _ => (Raise AttributeError, st)
  end.

(** [model.js_on_event(event, cb)] of bokeh. *)
Definition js_on_event (model : value) (event : string) (cb : CustomJS) : M unit :=
  fun st =>
  match model with
  | VRef a =>
      match heap st !! a with
      | Some (OModel m) =>
          let cbs := default [] (dict_get event (js_event_callbacks m)) in
          (Ok tt, set_heap (<[a := OModel (set_js_event_callbacks
                               (dict_set event (cbs ++ [cb]) (js_event_callbacks m)) m)]>
                              (heap st)) st)
      | _ => (Raise AttributeError, st)
      end
  | _ => (Raise AttributeError, st)
  end.

(** The root model of a render pass: [ref_id] is [root_model.ref['id']],
    [select_BkModel] is [root_model.select({'type': BkModel})]. The
    method of bokeh walks the models that the root refers to at the time
    of the call and yields them from a set, in no order that the graph
    determines: it is a function of the objects as they are then. *)
Record root_model_t := {
  ref_id : nat;
  select_BkModel : gmap nat pyobj -> list nat
}.

(** The objects a list of values refers to. *)
Definition refs_of (vs : list value) : list nat :=
  flat_map (fun v => match v with VRef a => [a] | _ => [] end) vs.

(** The objects a model refers to: through its properties and through
    the arguments of the callbacks attached to it. *)
Definition model_refs (m : BkModel) : list nat :=
  refs_of (map snd (attrs m))
  ++ flat_map (fun entry => flat_map (fun cb => refs_of (map snd (cjs_args cb))) (snd entry))
              (js_property_callbacks m ++ js_event_callbacks m).

(** A walk of the models reachable from [a], depth first; [seen] holds
    the models met so far, in the order they were met. *)
Fixpoint visit (fuel : nat) (h : gmap nat pyobj) (seen : list nat) (a : nat) : list nat :=
  match fuel with
  | 0 => seen
  | S n =>
      if existsb (Nat.eqb a) seen then seen
      else match h !! a with
           | Some (OModel m) => fold_left (visit n h) (model_refs m) (seen ++ [a])
           | _ => seen
           end
  end.

(** The models under the model at [root], itself included, in the
    order of the walk: one of the enumerations [select] may give. A path
    without a repeated model is no longer than the heap. A callback,
    which a model holds by value, is listed through the models in its
    arguments and not as an object of its own. *)
Definition references (root : nat) (h : gmap nat pyobj) : list nat :=
  visit (S (size h)) h [] root.

(** The root view of a render pass: [select_Viewable] is
    [root_view.select(Viewable)]; [panel_bokeh_map] is the dictionary
    [generate_panel_bokeh_map(root_model, root_view.select(HoloViews))],
    from a holoviews element to the plots that render it (the function
    belongs to [pane.holoviews]). *)
Record root_view_t := {
  select_Viewable : list nat;
  panel_bokeh_map : list (nat * list nat)
}.

(** ** Callback generators *)

Module CallbackGenerator.

(** The loop [for spec in model_spec.split('.'): model = getattr(model, spec)]. *)
Fixpoint drill (h : gmap nat pyobj) (model : value) (specs : list string) : result value :=
  match specs with
  | [] => Ok model
  | sp :: rest => rbind (getattr h model sp) (fun m => drill h m rest)
  end.

Definition drill_spec (h : gmap nat pyobj) (model : value)
    (model_spec : option string) : result value :=
  match model_spec with
  | None => Ok model
  | Some sp => drill h model (split_dot sp)
  end.

Definition _resolve_model (st : state) (root_model : root_model_t) (obj : value)
    (model_spec : option string) : result value :=
  let h := heap st in
  match lookup_obj h obj with
  | Some (OPlot p) =>
      if holoviews_loaded st then
        match model_spec with
        | None => Ok (plot_state p)
        | Some sp =>
            let model_specs := split_dot sp in
            let handle_spec := hd "" model_specs in
            let model_spec :=
              if Nat.ltb 1 (length model_specs) then Some (join_dot (tl model_specs))
              else None in
            match dict_get handle_spec (handles p) with
            | Some model => drill_spec h model model_spec
            | None => Raise KeyError
            end
        end
      else drill_spec h VNone model_spec
  | Some (OViewable v) =>
      match _models v !! ref_id root_model with
      | Some model => drill_spec h model model_spec
      | None => Raise KeyError
      end
  | Some (OModel _) => drill_spec h obj model_spec
  | _ => drill_spec h VNone model_spec
  end.

(** The defaults of the base class. *)
Definition _process_references (references : list (string * value))
    : list (string * value) := references.

Definition _initialize_models : M unit := ret tt.

Definition validate : M unit := ret tt.

End CallbackGenerator.

(** [source._rename.get(prop, prop)] when [source] is [Reactive]. *)
Definition renamed (h : gmap nat pyobj) (obj : value) (prop : string) : string :=
  match lookup_obj h obj with
  | Some (OViewable w) =>
      if is_Reactive w then default prop (dict_get prop (_rename w)) else prop
  | _ => prop
  end.

(** Lines 344-351 (and again 364-379): a property path becomes a spec. *)
Definition to_spec (h : gmap nat pyobj) (obj : value) (path : string) : src_spec_t :=
  let specs := split_dot path in
  if Nat.ltb 1 (length specs)
  then (Some (join_dot (List.removelast specs)), List.last specs "")
  else (None, renamed h obj (hd "" specs)).

Definition tgt_spec_of (s : src_spec_t) : tgt_spec_t := (fst s, Some (snd s)).

Module JSCallbackGenerator.

Definition _get_triggers (src_spec : src_spec_t) : list string * list string :=
  ([snd src_spec], []).

(** The loop rebinds [src_spec] and [code] at every entry of
    [link.code]; the [return] comes after the loop and uses the values
    they have then, which are unbound if the loop never ran. *)
Definition _get_specs (st : state) (lk : link) (source : nat) (target : option nat)
    : result (list (src_spec_t * tgt_spec_t * option string)) :=
  match link_code lk with
  | None => Raise AttributeError
  | Some items =>
      let bound :=
        fold_left (fun _ kv => Some (to_spec (heap st) (VRef source) (fst kv), snd kv))
                  items None in
      match bound with
      | None => Raise UnboundLocalError
      | Some (src_spec, code) => Ok [(src_spec, (None, None), Some code)]
      end
  end.

End JSCallbackGenerator.

Definition repr_opt (o : option string) : string :=
  match o with
  | Some s => "'" +:+ s +:+ "'"
  | None => "None"
  end.

Definition str_opt (o : option string) : string :=
  match o with
  | Some s => s
  | None => "None"
  end.

(** The class name used in an error message, as far as the heap tells. *)
Definition type_name (h : gmap nat pyobj) (v : value) : string :=
  match v with
  | VNone => "NoneType"
  | VInt _ => "int"
  | VStr _ => "str"
  | VDict _ => "dict"
  | VRef a =>
      match h !! a with
      | Some (OViewable _) => "Viewable"
      | Some (OModel _) => "Model"
      | Some (OPlot _) => "ElementPlot"
      | Some OParameterized => "Parameterized"
      | _ => "object"
      end
  end.

Module JSLinkCallbackGenerator.

Definition code_given (lk : link) : bool :=
  match link_code lk with
  | Some (_ :: _) => true
  | _ => false
  end.

Definition _get_specs (st : state) (lk : link) (source : nat) (target : option nat)
    : result (list (src_spec_t * tgt_spec_t * option string)) :=
  if code_given lk then JSCallbackGenerator._get_specs st lk source target
  else Ok (map (fun kv => (to_spec (heap st) (VRef source) (fst kv),
                           tgt_spec_of (to_spec (heap st) (value_of target) (snd kv)),
                           None))
               (link_properties lk)).

Definition truthy_opt (o : option string) : bool :=
  match o with
  | Some s => negb (String.eqb s "")
  | None => false
  end.

Definition _initialize_models (lk : link) (target : option nat)
    (src_model : value) (src_spec : string)
    (tgt_model : value) (tgt_spec : option string) : M unit :=
  (if truthy tgt_model && negb (String.eqb src_spec "") && truthy_opt tgt_spec
   then v <- lift (fun st => getattr (heap st) src_model src_spec) ;;
        setattr tgt_model (str_opt tgt_spec) v
   else ret tt) ;;;
  if is_None tgt_model && negb (code_given lk)
  then h <- gets heap ;;
       raise (ValueError ("Model could not be resolved on target "
                          +:+ type_name h (value_of target)
                          +:+ " and no custom code was specified."))
  else ret tt.

(** One turn of the loop of [_process_references]. *)
Definition strip (references : list (string * value)) (k : string)
    : list (string * value) :=
  if String.eqb k "target" || negb (startswith "target_" k)
     || dict_mem (slice_from 7 k) references
  then references
  else match dict_get k references with
       | Some v => dict_set (slice_from 7 k) v (dict_remove k references)
       | None => references
       end.

Definition _process_references (references : list (string * value))
    : list (string * value) :=
  fold_left strip (map fst references) references.

Definition _get_code (src_spec : string) (tgt_spec : option string) : string :=
  "value = source[" +:+ repr_opt (Some src_spec) +:+ "];"
  +:+ "try { property = target.properties[" +:+ repr_opt tgt_spec +:+ "];"
  +:+ "if (property !== undefined) { property.validate(value); } }"
  +:+ "catch(err) { console.log('WARNING: Could not set " +:+ str_opt tgt_spec
  +:+ " on target, raised error: ' + err); return; }"
  +:+ "target[" +:+ repr_opt tgt_spec +:+ "] = value".

End JSLinkCallbackGenerator.

(** ** Method resolution on the generator classes *)

Definition call_get_specs (g : generator) (st : state) (lk : link) (source : nat)
    (target : option nat) : result (list (src_spec_t * tgt_spec_t * option string)) :=
  match g with
  | cls_JSCallbackGenerator => JSCallbackGenerator._get_specs st lk source target
  | cls_JSLinkCallbackGenerator => JSLinkCallbackGenerator._get_specs st lk source target
  end.

Definition call_initialize_models (g : generator) (lk : link) (target : option nat)
    (src_model : value) (src_spec : string)
    (tgt_model : value) (tgt_spec : option string) : M unit :=
  match g with
  | cls_JSCallbackGenerator => CallbackGenerator._initialize_models
  | cls_JSLinkCallbackGenerator =>
      JSLinkCallbackGenerator._initialize_models lk target src_model src_spec
                                                 tgt_model tgt_spec
  end.

Definition call_process_references (g : generator) (references : list (string * value))
    : list (string * value) :=
  match g with
  | cls_JSCallbackGenerator => CallbackGenerator._process_references references
  | cls_JSLinkCallbackGenerator => JSLinkCallbackGenerator._process_references references
  end.

(** [JSCallbackGenerator] inherits [_get_code(self, link, source, target)],
    which cannot take the five arguments [_init_callback] passes. *)
Definition call_get_code (g : generator) (src_spec : string) (tgt_spec : option string)
    : result string :=
  match g with
  | cls_JSCallbackGenerator => Raise TypeError
  | cls_JSLinkCallbackGenerator => Ok (JSLinkCallbackGenerator._get_code src_spec tgt_spec)
  end.

(** ** Emission: [CallbackGenerator._init_callback] *)

(** [any(link_id in cb.tags for cbs in callbacks.values() for cb in cbs)] *)
Definition tagged (link_id : nat) (callbacks : list (string * list CustomJS)) : bool :=
  existsb (fun entry =>
             existsb (fun cb => existsb (Nat.eqb link_id) (tags cb)) (snd entry))
          callbacks.

(** [model.js_property_callbacks] *)
Definition property_callbacks (h : gmap nat pyobj) (model : value)
    : result (list (string * list CustomJS)) :=
  match lookup_obj h model with
  | Some (OModel m) => Ok (js_property_callbacks m)
  | _ => Raise AttributeError
  end.

(** Lines 240-241: the parameters other than [source], [target], [name],
    [code] and [args]; that is [properties], on a [Link]. *)
Definition initial_references (lk : link) : list (string * value) :=
  if has_target (link_type lk) then [("properties", VDict (link_properties lk))] else [].

(** Lines 257-262. *)
Fixpoint references_args (st : state) (root_model : root_model_t)
    (items : list (string * value)) (references : list (string * value))
    : result (list (string * value)) :=
  match items with
  | [] => Ok references
  | (k, v) :: rest =>
      rbind (CallbackGenerator._resolve_model st root_model v None) (fun arg_model =>
      references_args st root_model rest
        (if negb (is_None arg_model) then dict_set k arg_model references
         else if negb (isinstance_Parameterized (heap st) v) then dict_set k v references
         else references))
  end.

(** [obj._plots[ref][0] if isinstance(obj, HoloViews) else obj] *)
Definition plot_of (st : state) (root_model : root_model_t) (obj : value) : result value :=
  match lookup_obj (heap st) obj with
  | Some (OViewable w) =>
      if is_HoloViews w
      then match _plots w !! ref_id root_model with
           | Some p => Ok (VRef p)
           | None => Raise KeyError
           end
      else Ok obj
  | _ => Ok obj
  end.

(** The loop over [plot.handles.items()] with a key prefix. *)
Definition merge_handles (h : gmap nat pyobj) (prefix : string)
    (hs : list (string * value)) (references : list (string * value))
    : list (string * value) :=
  fold_left (fun refs kv =>
               let k := prefix +:+ fst kv in
               if isinstance_BkModel h (snd kv) && negb (dict_mem k refs)
               then dict_set k (snd kv) refs
               else refs)
            hs references.

(** Lines 264-286. *)
Definition references_handles (st : state) (root_model : root_model_t) (lk : link)
    (source : nat) (target : option nat) (references : list (string * value))
    : result (list (string * value)) :=
  if holoviews_loaded st then
    rbind (plot_of st root_model (VRef source)) (fun src =>
    let prefix := if has_target (link_type lk) then "source_" else "" in
    let references :=
      match lookup_obj (heap st) src with
      | Some (OPlot p) => merge_handles (heap st) prefix (handles p) references
      | _ => references
      end in
    rbind (plot_of st root_model (value_of target)) (fun tgt =>
    Ok match lookup_obj (heap st) tgt with
       | Some (OPlot p) => merge_handles (heap st) "target_" (handles p) references
       | _ => references
       end))
  else Ok references.

Definition _init_callback (g : generator) (arg_overrides : list (string * value))
    (root_model : root_model_t) (lk : link) (source : nat) (src_spec : src_spec_t)
    (target : option nat) (tgt_spec : tgt_spec_t) (code : option string) : M unit :=
  let references := initial_references lk in
  src_model <- lift (fun st => CallbackGenerator._resolve_model st root_model
                                 (VRef source) (fst src_spec)) ;;
  let link_id := link_id lk in
  callbacks <- lift (fun st => property_callbacks (heap st) src_model) ;;
  if tagged link_id callbacks then ret tt else
  let references := dict_set "cb_obj" src_model (dict_set "source" src_model references) in
  tgt_model <- (if _requires_target (link_type lk)
                then lift (fun st => CallbackGenerator._resolve_model st root_model
                                       (value_of target) (fst tgt_spec))
                else ret VNone) ;;
  let references :=
    if _requires_target (link_type lk) && negb (is_None tgt_model)
    then dict_set "target" tgt_model references
    else references in
  references <- lift (fun st =>
                  match link_args lk with
                  | None => Raise TypeError
                  | Some a => references_args st root_model (dict_update a arg_overrides)
                                              references
                  end) ;;
  references <- lift (fun st => references_handles st root_model lk source target
                                                   references) ;;
  call_initialize_models g lk target src_model (snd src_spec) tgt_model (snd tgt_spec) ;;;
  let references := call_process_references g references in
  code <- (match code with
           | Some c => ret c
           | None => lift (fun _ => call_get_code g (snd src_spec) (snd tgt_spec))
           end) ;;
  let src_cb := {| cjs_args := references; cjs_code := code; tags := [link_id] |} in
  let (changes, events) := JSCallbackGenerator._get_triggers src_spec in
  for_each changes (fun ch => js_on_change src_model ch src_cb) ;;;
  for_each events (fun ev => js_on_event src_model ev src_cb).

(** An instance of a generator class: the attributes [__init__] stores. *)
Record generator_instance := {
  gen_class : generator;
  gen_root_model : root_model_t;
  gen_link : link;
  gen_source : nat;
  gen_target : option nat;
  gen_arg_overrides : list (string * value)
}.

(** [CallbackGenerator.__init__] *)
Definition generator__init__ (g : generator) (root_model : root_model_t) (lk : link)
    (source : nat) (target : option nat) (arg_overrides : list (string * value))
    : M generator_instance :=
  CallbackGenerator.validate ;;;
  specs <- lift (fun st => call_get_specs g st lk source target) ;;
  for_each specs (fun s =>
    _init_callback g arg_overrides root_model lk source (fst (fst s))
                   target (snd (fst s)) (snd s)) ;;;
  ret {| gen_class := g; gen_root_model := root_model; gen_link := lk;
         gen_source := source; gen_target := target;
         gen_arg_overrides := arg_overrides |}.

(** ** The resolution pass: [Callback._process_callbacks] *)

Definition triple := (link * nat * option nat)%type.

(** [t in linkable] *)
Definition in_linkable (t : option nat) (linkable : list nat) : bool :=
  match t with
  | Some a => existsb (Nat.eqb a) linkable
  | None => false
  end.

(** [cls.registry.get(src, [])] *)
Definition registry_get (reg : gmap nat (list link)) (src : nat) : list link :=
  default [] (reg !! src).

(** Lines 93-95, the inner [for link in cls.registry.get(src, [])]. *)
Fixpoint found_of_links (linkable : list nat) (src : nat) (links : list link)
    : result (list triple) :=
  match links with
  | [] => Ok []
  | lk :: rest =>
      rbind (if negb (_requires_target (link_type lk)) then Ok true
             else rbind (target lk) (fun t => Ok (in_linkable t linkable))) (fun keep =>
      rbind (found_of_links linkable src rest) (fun more =>
      Ok (if keep then (lk, src, target_or_None lk) :: more else more)))
  end.

(** Lines 93-95, the outer [for src in linkable]. *)
Fixpoint found_of (reg : gmap nat (list link)) (linkable : list nat) (srcs : list nat)
    : result (list triple) :=
  match srcs with
  | [] => Ok []
  | src :: rest =>
      rbind (found_of_links linkable src (registry_get reg src)) (fun a =>
      rbind (found_of reg linkable rest) (fun b => Ok (a ++ b)))
  end.

(** [map_hve_bk.get(v, [])]: the key is hashed, which a dictionary
    cannot be. *)
Definition map_get (m : list (nat * list nat)) (v : value) : result (list nat) :=
  match v with
  | VRef a =>
      Ok match find (fun e => Nat.eqb (fst e) a) m with
         | Some e => snd e
         | None => []
         end
  | VDict _ => Raise TypeError
  | _ => Ok []
  end.

(** Lines 107-109, the loop over [link.args.items()]. *)
Fixpoint override_args (m : list (nat * list nat)) (id : nat)
    (items : list (string * value)) (ao : gmap nat (list (string * value)))
    : result (gmap nat (list (string * value))) :=
  match items with
  | [] => Ok ao
  | (k, v) :: rest =>
      rbind (map_get m v) (fun tgts =>
      override_args m id rest
        (fold_left (fun ao tgt => <[id := dict_set k (VRef tgt) (default [] (ao !! id))]> ao)
                   tgts ao))
  end.

(** Lines 103-109, for one [src] and one [link]. *)
Definition expand_link (m : list (nat * list nat)) (src : nat) (lk : link)
    (acc : list triple * gmap nat (list (string * value)))
    : result (list triple * gmap nat (list (string * value))) :=
  rbind (if has_target (link_type lk)
         then rbind (map_get m (value_of (_target lk))) (fun tgts =>
              Ok (fst acc ++ map (fun tgt => (lk, src, Some tgt)) tgts))
         else Ok (fst acc)) (fun found =>
  let arg_overrides := <[link_id lk := []]> (snd acc) in
  match link_args lk with
  | None => Raise AttributeError
  | Some items =>
      rbind (override_args m (link_id lk) items arg_overrides) (fun arg_overrides =>
      Ok (found, arg_overrides))
  end).

Fixpoint expand_links (m : list (nat * list nat)) (src : nat) (links : list link)
    (acc : list triple * gmap nat (list (string * value)))
    : result (list triple * gmap nat (list (string * value))) :=
  match links with
  | [] => Ok acc
  | lk :: rest => rbind (expand_link m src lk acc) (expand_links m src rest)
  end.

(** Lines 101-109. *)
Fixpoint expand (reg : gmap nat (list link)) (m : list (nat * list nat))
    (srcs : list nat) (acc : list triple * gmap nat (list (string * value)))
    : result (list triple * gmap nat (list (string * value))) :=
  match srcs with
  | [] => Ok acc
  | src :: rest => rbind (expand_links m src (registry_get reg src) acc) (expand reg m rest)
  end.

(** [cls._callbacks[type(link)]] *)
Fixpoint callbacks_get (c : pyclass) (t : list (pyclass * generator)) : option generator :=
  match t with
  | [] => None
  | (c', g) :: rest => if pyclass_eqb c c' then Some g else callbacks_get c rest
  end.

(** Lines 111-119. The sources come from [linkable], so [src] is an
    object and only the test on the target can skip a triple. *)
Fixpoint emit (arg_overrides : gmap nat (list (string * value)))
    (root_model : root_model_t) (found : list triple) : M (list generator_instance) :=
  match found with
  | [] => ret []
  | (lk, src, tgt) :: rest =>
      cb <- lift (fun st => match callbacks_get (link_type lk) (_callbacks st) with
                            | Some g => Ok g
                            | None => Raise KeyError
                            end) ;;
      if _requires_target (link_type lk) && negb (bool_decide (is_Some tgt))
      then emit arg_overrides root_model rest
      else
        let overrides := default [] (arg_overrides !! link_id lk) in
        inst <- generator__init__ cb root_model lk src tgt overrides ;;
        more <- emit arg_overrides root_model rest ;;
        ret (inst :: more)
  end.

Definition _process_callbacks (root_view : root_view_t) (root_model : option root_model_t)
    : M (option (list generator_instance)) :=
  match root_model with
  | None => ret None
  | Some rm =>
      models <- gets (fun st => select_BkModel rm (heap st)) ;;
      let linkable := select_Viewable root_view ++ models in
      match linkable with
      | [] => ret None
      | _ :: _ =>
          found <- lift (fun st => found_of (registry st) linkable linkable) ;;
          hv <- gets holoviews_loaded ;;
          fa <- (if hv : bool
                 then lift (fun st => expand (registry st) (panel_bokeh_map root_view)
                                             linkable (found, ∅))
                 else ret (found, ∅)) ;;
          callbacks <- emit (snd fa) rm (fst fa) ;;
          ret (Some callbacks)
      end
  end.

(** The state when the module has been loaded (lines 410-411): nothing is
    registered, and each declaration class has its generator. *)
Definition loaded (hv : bool) (h : gmap nat pyobj) : state :=
  {| registry := ∅;
     _callbacks := [(cls_Callback, cls_JSCallbackGenerator);
                    (cls_Link, cls_JSLinkCallbackGenerator)];
     holoviews_loaded := hv;
     heap := h |}.

(** * Session state, notebook comms and templates

    The parts of [io/state.py], [io/notebook.py] and [template.py] that
    do not go through bokeh's rendering machinery. They run in a [world]:
    the [state] object of [io/state.py], together with what the
    collaborators hold (the document [bokeh.io.curdoc()] returns, the
    bokeh servers and whether each has been stopped, the messages sent
    on a comm). *)

(** Exceptions of these modules: the built-in ones used above, and
    [AssertionError]. *)
Inductive pyexn :=
| Builtin (e : exn)
| AssertionError.

Inductive outcome (A : Type) :=
| Return (a : A)
| Throw (e : pyexn).
Arguments Return {A} a.
Arguments Throw {A} e.

(** A bokeh document, as far as [state] looks into it:
    [session_context] is [None] or a context whose request has the
    given [arguments]. *)
Record document := {
  doc_id : nat;
  session_context : option (list (string * list string))
}.

(** The class [_state]: the attributes its methods read and write.
    [_servers] maps a server id to [(server, panel, docs)]. *)
Record _state := {
  _curdoc : option document;
  _hold : bool;
  _thread_id : option nat;
  _servers : list (string * (nat * nat * list document))
}.

(** What a comm was asked to send: [comm.send(data)] or
    [comm.send(buffers=[payload])]. *)
Inductive sent :=
| Data (s : string)
| Buffers (payloads : list string).

Record world := {
  panel_state : _state;
  bokeh_curdoc : document;
  server_stopped : gmap nat bool;
  comm_sent : list sent
}.

Definition set_panel_state (s : _state) (w : world) : world :=
  {| panel_state := s; bokeh_curdoc := bokeh_curdoc w;
     server_stopped := server_stopped w; comm_sent := comm_sent w |}.

Definition set_server_stopped (m : gmap nat bool) (w : world) : world :=
  {| panel_state := panel_state w; bokeh_curdoc := bokeh_curdoc w;
     server_stopped := m; comm_sent := comm_sent w |}.

Definition set_comm_sent (l : list sent) (w : world) : world :=
  {| panel_state := panel_state w; bokeh_curdoc := bokeh_curdoc w;
     server_stopped := server_stopped w; comm_sent := l |}.

Definition IO (A : Type) : Type := world -> outcome A * world.

Definition io_ret {A} (a : A) : IO A := fun w => (Return a, w).
Definition io_throw {A} (e : pyexn) : IO A := fun w => (Throw e, w).
Definition io_bind {A B} (c : IO A) (k : A -> IO B) : IO B :=
  fun w => match c w with
           | (Return a, w') => k a w'
           | (Throw e, w') => (Throw e, w')
           end.

Notation "x <~ c1 ;; c2" := (io_bind c1 (fun x => c2))
  (at level 100, c1 at next level, right associativity).
Notation "c1 ;;~ c2" := (io_bind c1 (fun _ => c2))
  (at level 100, right associativity).

Fixpoint io_for_each {A} (xs : list A) (body : A -> IO unit) : IO unit :=
  match xs with
  | [] => io_ret tt
  | x :: rest => body x ;;~ io_for_each rest body
  end.

(** [try: c except AssertionError: pass] *)
Definition except_AssertionError (c : IO unit) : IO unit := fun w =>
  match c w with
  | (Throw AssertionError, w') => (Return tt, w')
  | r => r
  end.

(** [server.stop()] of a bokeh server: it asserts that the server has not
    been stopped (the source notes that a server cannot be stopped
    twice), then stops it. *)
Definition server_stop (server : nat) : IO unit := fun w =>
  if default false (server_stopped w !! server)
  then (Throw AssertionError, w)
  else (Return tt, set_server_stopped (<[server := true]> (server_stopped w)) w).

Module PanelState.

Definition set_servers (l : list (string * (nat * nat * list document))) (s : _state)
    : _state :=
  {| _curdoc := _curdoc s; _hold := _hold s; _thread_id := _thread_id s; _servers := l |}.

Definition set_hold (b : bool) (s : _state) : _state :=
  {| _curdoc := _curdoc s; _hold := b; _thread_id := _thread_id s;
     _servers := _servers s |}.

Definition set_curdoc (d : option document) (s : _state) : _state :=
  {| _curdoc := d; _hold := _hold s; _thread_id := _thread_id s;
     _servers := _servers s |}.

(** [self._servers[server_id][0].stop()] *)
Definition stop_indexed (server_id : string) : IO unit := fun w =>
  match dict_get server_id (_servers (panel_state w)) with
  | Some (server, _, _) => server_stop server w
  | None => (Throw (Builtin KeyError), w)
  end.

Definition kill_all_servers : IO unit := fun w =>
  (io_for_each (map fst (_servers (panel_state w)))
               (fun server_id => except_AssertionError (stop_indexed server_id)) ;;~
   (fun w' => (Return tt, set_panel_state (set_servers [] (panel_state w')) w'))) w.

(** The property [curdoc]: the document set on the state or, failing
    that, bokeh's current document if it belongs to a session. *)
Definition curdoc (w : world) : option document :=
  match _curdoc (panel_state w) with
  | Some d => Some d
  | None =>
      match session_context (bokeh_curdoc w) with
      | Some _ => Some (bokeh_curdoc w)
      | None => None
      end
  end.

(** The setter of [curdoc]. *)
Definition curdoc_setter (doc : option document) : IO unit := fun w =>
  (Return tt, set_panel_state (set_curdoc doc (panel_state w)) w).

(** [_unblocked(doc)]; [thread_id] is the identifier of the running
    thread. *)
Definition _unblocked (thread_id : option nat) (doc : option document) (w : world) : bool :=
  option_eqb Nat.eqb (option_map doc_id doc) (option_map doc_id (curdoc w))
  && option_eqb Nat.eqb (_thread_id (panel_state w)) thread_id.

(** The property [session_args]:
    [self.curdoc.session_context.request.arguments if self.curdoc else {}] *)
Definition session_args (w : world) : outcome (list (string * list string)) :=
  match curdoc w with
  | Some _ =>
      match curdoc w with
      | Some d =>
          match session_context d with
          | Some arguments => Return arguments
          | None => Throw (Builtin AttributeError)
          end
      | None => Throw (Builtin AttributeError)
      end
  | None => Return []
  end.

End PanelState.

Module Notebook.

(** [block_comm], used as [with block_comm(): body]. The context manager
    is a generator without [try]: an exception of the body is thrown at
    its [yield] and leaves it at once. *)
Definition block_comm {A} (body : IO A) : IO A :=
  (fun w => (Return tt, set_panel_state (PanelState.set_hold true (panel_state w)) w)) ;;~
  r <~ body ;;
  (fun w => (Return tt, set_panel_state (PanelState.set_hold false (panel_state w)) w)) ;;~
  io_ret r.

(** The message [diff(doc, binary)] returns. *)
Record message := {
  header_json : string;
  metadata_json : string;
  content_json : string;
  buffers : list (string * string)
}.

(** [comm.send(...)] *)
Definition send (x : sent) : IO unit := fun w =>
  (Return tt, set_comm_sent (comm_sent w ++ [x]) w).

(** [push(doc, comm, binary)]: [msg] is the value of [diff(doc,
    binary=binary)], a function of [io/model.py]; [dumps] is
    [json.dumps]. *)
Definition push (dumps : string -> string) (msg : option message) : IO unit :=
  match msg with
  | None => io_ret tt
  | Some m =>
      send (Data (header_json m)) ;;~
      send (Data (metadata_json m)) ;;~
      send (Data (content_json m)) ;;~
      io_for_each (buffers m) (fun hp =>
        send (Data (dumps (fst hp))) ;;~
        send (Buffers [snd hp]))
  end.

End Notebook.

Module Template.

(** A jinja2 template: compiled from a string by the constructor, or an
    object that was passed in. *)
Inductive jinja :=
| Compiled (source : string)
| TemplateObject (id : nat).

(** The [template] and [nb_template] arguments of the constructor. *)
Inductive template_arg :=
| ArgNone
| ArgString (s : string)
| ArgTemplate (id : nat).

(** A [Template]: [layout_repr] is [self._layout[0].object], the text
    of the first pane of the layout; [server_info] and [button_name] are
    the [object] of the second and the [name] of the button. *)
Record template := {
  template_ : option jinja;
  nb_template : option jinja;
  _render_items : list (string * nat);
  _server : option nat;
  layout_repr : string;
  server_info : string;
  button_name : string
}.

Definition spacer : string := String "010"%char "    ".

Fixpoint join (sep : string) (l : list string) : string :=
  match l with
  | [] => ""
  | [x] => x
  | x :: rest => x +:+ sep +:+ join sep rest
  end.

(** [Template.__repr__]; [repr1 obj] is [obj.__repr__(1)]. *)
Definition __repr__ (repr1 : nat -> string) (self : template) : string :=
  let objs := map (fun no => "[" +:+ fst no +:+ "] " +:+ repr1 (snd no))
                  (_render_items self) in
  "Template" +:+ spacer +:+ join spacer objs.

Definition set_items (items : list (string * nat)) (r : string) (self : template)
    : template :=
  {| template_ := template_ self; nb_template := nb_template self;
     _render_items := items; _server := _server self;
     layout_repr := r; server_info := server_info self;
     button_name := button_name self |}.

(** [add_panel(name, panel)]; [panel_of] is [pane.panel], which turns
    the object into a viewable. *)
Definition add_panel (panel_of : nat -> nat) (repr1 : nat -> string)
    (name : string) (panel : nat) (self : template) : result template :=
  if dict_mem name (_render_items self)
  then Raise (ValueError ("The name " +:+ name +:+ " has already been used for "
                          +:+ "another panel. Ensure each panel "
                          +:+ "has a unique name by which it can be "
                          +:+ "referenced in the template."))
  else
    let items := dict_set name (panel_of panel) (_render_items self) in
    let self := set_items items (layout_repr self) self in
    Ok (set_items items (__repr__ repr1 self) self).

(** What the constructor stores for a template argument: a string, taken
    to be a source that jinja2 compiles, becomes [_Template(string)]. *)
Definition compile (a : template_arg) : option jinja :=
  match a with
  | ArgNone => None
  | ArgString s => Some (Compiled s)
  | ArgTemplate id => Some (TemplateObject id)
  end.

Fixpoint add_panels (panel_of : nat -> nat) (repr1 : nat -> string)
    (items : list (string * nat)) (self : template) : result template :=
  match items with
  | [] => Ok self
  | (name, item) :: rest =>
      rbind (add_panel panel_of repr1 name item self) (add_panels panel_of repr1 rest)
  end.

(** [Template.__init__(template, items, nb_template)]; the layout built
    by [_build_layout] shows the repr of the empty template, no server
    text and the button [Launch server]. *)
Definition __init__ (panel_of : nat -> nat) (repr1 : nat -> string)
    (template_arg_ : template_arg) (items : option (list (string * nat)))
    (nb_template_arg : template_arg) : result template :=
  let tmpl := compile template_arg_ in
  let nb := compile nb_template_arg in
  let self := {| template_ := tmpl;
                 nb_template := match nb with Some t => Some t | None => tmpl end;
                 _render_items := []; _server := None;
                 layout_repr := ""; server_info := ""; button_name := "" |} in
  let self := {| template_ := template_ self; nb_template := nb_template self;
                 _render_items := []; _server := None;
                 layout_repr := __repr__ repr1 self; server_info := "";
                 button_name := "Launch server" |} in
  add_panels panel_of repr1 (default [] items) self.

Definition set_server (srv : option nat) (info name : string) (self : template)
    : template :=
  {| template_ := template_ self; nb_template := nb_template self;
     _render_items := _render_items self; _server := srv;
     layout_repr := layout_repr self; server_info := info; button_name := name |}.

(** The closure [launch] of [_build_layout], run at a click on the
    button. [get_server] stands for [self._get_server(start=True,
    show=True)], which returns a server, and [info] for the text
    [_server_info.format(port=self._server.port)]. The template is
    returned as the call leaves it, also when the call raises. *)
Definition launch (get_server : IO nat) (info : nat -> string) (self : template)
    : world -> outcome unit * template * world :=
  fun w =>
  match _server self with
  | Some server =>
      let self := set_server (_server self) (server_info self) "Launch server" self in
      let self := set_server (_server self) "" (button_name self) self in
      match server_stop server w with
      | (Return _, w') =>
          (Return tt, set_server None (server_info self) (button_name self) self, w')
      | (Throw e, w') => (Throw e, self, w')
      end
  | None =>
      let self := set_server (_server self) (server_info self) "Stop server" self in
      match get_server w with
      | (Return server, w') =>
          let self := set_server (Some server) (server_info self) (button_name self) self in
          (Return tt, set_server (_server self) (info server) (button_name self) self, w')
      | (Throw e, w') => (Throw e, self, w')
      end
  end.

End Template.

(** * Notions and sample states used in the properties

    The predicates in which the properties are stated, and the concrete
    links, heaps and render roots on which they are exercised. *)

(** Two declarations are equivalent for [init] when they have the same
    class, source and target and equal parameters other than [name]. *)
Definition equivalent (a b : link) : bool :=
  pyclass_eqb (link_type b) (link_type a)
  && Nat.eqb (source b) (source a)
  && option_eqb Nat.eqb (_target b) (_target a)
  && params_eqb a b.

(** A [Link] from object [1] with identity [i]. *)
Definition sample_link (i : nat) (tgt : nat) : link :=
  {| link_id := i; link_type := cls_Link; link_name := "Link";
     _source := 1; _target := Some tgt; link_args := Some [];
     link_code := None; link_properties := [("value", "text")] |}.

(** Three links registered, in this order, under object [1]. *)
Definition sample_registry : state :=
  set_registry {[ 1 := [sample_link 10 2; sample_link 11 3; sample_link 12 4] ]}
               (loaded false ∅).

(** [Callback(obj1, code={'value': ...})] *)
Definition sample_callback : link :=
  {| link_id := 100; link_type := cls_Callback; link_name := "Callback00001";
     _source := 1; _target := None; link_args := Some [];
     link_code := Some [("value", "console.log(1)")]; link_properties := [] |}.

(** A [Callback] whose [code] has two entries. *)
Definition two_snippets : link :=
  {| link_id := 100; link_type := cls_Callback; link_name := "Callback00001";
     _source := 1; _target := None; link_args := Some [];
     link_code := Some [("value", "console.log(1)"); ("axis.start", "console.log(2)")];
     link_properties := [] |}.

(** What a render pass may change: the attributes of bokeh models and
    the callbacks attached to them. [extends st st'] says that [st']
    differs from [st] at most in that way: the registry, the generator
    table and every object that is not a model are the same, models
    remain models ([obj_le]), and a model tagged with a link identity
    stays tagged with it ([model_le]). *)
Definition model_le (m m' : BkModel) : Prop :=
  forall id, tagged id (js_property_callbacks m) = true ->
             tagged id (js_property_callbacks m') = true.

Definition obj_le (o o' : pyobj) : Prop :=
  match o with
  | OModel m => exists m', o' = OModel m' /\ model_le m m'
  | _ => o' = o
  end.

Record extends (st st' : state) : Prop := {
  ext_registry : registry st' = registry st;
  ext_callbacks : _callbacks st' = _callbacks st;
  ext_holoviews : holoviews_loaded st' = holoviews_loaded st;
  ext_objects : forall a o, heap st !! a = Some o ->
                            exists o', heap st' !! a = Some o' /\ obj_le o o';
  ext_fresh : forall a, heap st !! a = None -> heap st' !! a = None
}.

(** A computation that only makes such changes. *)
Definition monotone {A} (c : M A) : Prop :=
  forall st r st', c st = (r, st') -> extends st st'.

(** The test of the comprehension on lines 93-95. *)
Definition selected (linkable : list nat) (lk : link) : bool :=
  negb (_requires_target (link_type lk)) || in_linkable (target_or_None lk) linkable.

(** The triple of the comprehension for [lk] registered under [src]. *)
Definition to_triple (src : nat) (lk : link) : triple := (lk, src, target_or_None lk).

(** A bokeh model with the given properties, each of a type that accepts
    any value, and no callback. *)
Definition bare (a : list (string * value)) : pyobj :=
  OModel {| attrs := a; js_property_callbacks := []; js_event_callbacks := [];
            prop_error := fun _ _ => None |}.

(** The declared types of the properties of the sample models, and the
    values each accepts. *)
Inductive ptype :=
| PAny
| PInt
| PString
| PInstance.

Definition type_error (t : ptype) (v : value) : option string :=
  match t, v with
  | PAny, _ => None
  | PInt, VInt _ => None
  | PInt, _ => Some "expected a value of type Integral"
  | PString, VStr _ => None
  | PString, _ => Some "expected a value of type str"
  | PInstance, VRef _ => None
  | PInstance, VNone => None
  | PInstance, _ => Some "expected an instance of type Model"
  end.

(** A bokeh model with the given properties, each with its declared type
    and its value, and no callback. *)
Definition typed (props : list (string * (ptype * value))) : pyobj :=
  OModel {| attrs := map (fun p => (fst p, snd (snd p))) props;
            js_property_callbacks := []; js_event_callbacks := [];
            prop_error := fun nm v => match dict_get nm props with
                                      | Some (t, _) => type_error t v
                                      | None => None
                                      end |}.

(** A layout with the given children, one property for each. *)
Definition layout (first second : nat) : pyobj :=
  typed [("children_0", (PInstance, VRef first)); ("children_1", (PInstance, VRef second))].

(** A [Reactive] pane rendered as model [m] under the root model [0]. *)
Definition view_of (m : nat) : pyobj :=
  OViewable {| is_Reactive := true; is_HoloViews := false;
               _models := {[ 0 := VRef m ]}; _rename := []; _plots := ∅ |}.

(** Two panes rendered under the root model [0], a layout of their
    models: a text input, with model [11], and a plot whose model [12]
    has no title. *)
Definition untitled_heap : gmap nat pyobj :=
  <[1 := view_of 11]> (<[2 := view_of 12]>
  (<[11 := typed [("value", (PString, VStr "3"))]]>
  (<[12 := typed [("title", (PInstance, VNone)); ("text", (PString, VStr "t"))]]>
  (<[0 := layout 11 12]> ∅)))).

(** [Link(text_input, plot, properties={'value': 'title.text'})] *)
Definition title_link : link :=
  {| link_id := 100; link_type := cls_Link; link_name := "Link00001";
     _source := 1; _target := Some 2; link_args := Some [];
     link_code := None; link_properties := [("value", "title.text")] |}.

(** [Link(plot, text_input, properties={'text': 'value'})] *)
Definition text_link : link :=
  {| link_id := 101; link_type := cls_Link; link_name := "Link00002";
     _source := 2; _target := Some 1; link_args := Some [];
     link_code := None; link_properties := [("text", "value")] |}.

Definition two_panes : root_view_t := {| select_Viewable := [1; 2]; panel_bokeh_map := [] |}.

(** The root model [0], which selects the models under it. *)
Definition root0 : root_model_t := {| ref_id := 0; select_BkModel := references 0 |}.

Definition both_registered : state :=
  set_registry {[ 1 := [title_link]; 2 := [text_link] ]} (loaded false untitled_heap).

Definition text_registered : state :=
  set_registry {[ 2 := [text_link] ]} (loaded false untitled_heap).

(** What the loop over the arguments makes of one entry [k: v] whose
    value resolves to [m]: the model, or the value itself when there is
    no model and the value is not [Parameterized]; otherwise the name
    keeps the binding it had, if any. *)
Definition arg_binding (st : state) (v m : value) (before : option value) : option value :=
  if negb (is_None m) then Some m
  else if negb (isinstance_Parameterized (heap st) v) then Some v
  else before.

(** A [HoloViews] pane rendered as model [m], with plot [p], under the
    root model [0]. *)
Definition holoviews_pane (m p : nat) : pyobj :=
  OViewable {| is_Reactive := true; is_HoloViews := true;
               _models := {[ 0 := VRef m ]}; _rename := []; _plots := {[ 0 := p ]} |}.

(** A text input pane (model [11]) and a holoviews pane (model [12])
    whose plot [20] has a handle [x], a model [13] of the figure; [30] is
    a [Parameterized] object that is not a view. *)
Definition handles_heap : gmap nat pyobj :=
  <[1 := view_of 11]> (<[2 := holoviews_pane 12 20]>
  (<[11 := typed [("value", (PString, VStr "3"))]]>
  (<[12 := typed [("text", (PString, VStr "t")); ("x_range", (PInstance, VRef 13))]]>
  (<[13 := bare []]>
  (<[20 := OPlot {| plot_state := VRef 12; handles := [("x", VRef 13)] |}]>
  (<[30 := OParameterized]>
  (<[0 := layout 11 12]> ∅))))))).

(** [Link(text_input, hv_pane, args={'x': 5, 'source': 7, 'p': obj30},
    properties={'value': 'text'})] *)
Definition args_link : link :=
  {| link_id := 100; link_type := cls_Link; link_name := "Link00001";
     _source := 1; _target := Some 2;
     link_args := Some [("x", VInt 5); ("source", VInt 7); ("p", VRef 30)];
     link_code := None; link_properties := [("value", "text")] |}.

Definition args_registered : state :=
  set_registry {[ 1 := [args_link] ]} (loaded true handles_heap).

Definition root0_handles : root_model_t :=
  {| ref_id := 0; select_BkModel := references 0 |}.

(** A property path without a dot. *)
Fixpoint has_dot (s : string) : bool :=
  match s with
  | EmptyString => false
  | String c rest => Ascii.eqb c "."%char || has_dot rest
  end.

(** The source paths of a declaration, the keys of [code] and of
    [properties], are plain property names. *)
Definition plain_sources (lk : link) : bool :=
  forallb (fun kv => negb (has_dot (fst kv))) (default [] (link_code lk))
  && forallb (fun kv => negb (has_dot (fst kv))) (link_properties lk).

(** Two plots, [1] and [2], each with a range of its own ([3] and [4])
    as [x_range], in a layout [0] that holds plot [2] before plot [1]. *)
Definition ranges_heap : gmap nat pyobj :=
  <[0 := layout 2 1]>
  (<[1 := typed [("x_range", (PInstance, VRef 3))]]>
  (<[2 := typed [("x_range", (PInstance, VRef 4))]]>
  (<[3 := typed [("start", (PInt, VInt 0))]]>
  (<[4 := typed [("start", (PInt, VInt 5))]]> ∅)))).

(** [Link(plot1, plot2, properties={'x_range': 'x_range'})] *)
Definition share_range : link :=
  {| link_id := 100; link_type := cls_Link; link_name := "Link00001";
     _source := 1; _target := Some 2; link_args := Some [];
     link_code := None; link_properties := [("x_range", "x_range")] |}.

(** [Callback(plot2, code={'x_range.start': ...})] *)
Definition watch_start : link :=
  {| link_id := 101; link_type := cls_Callback; link_name := "Callback00001";
     _source := 2; _target := None; link_args := Some [];
     link_code := Some [("x_range.start", "console.log(cb_obj.start)")];
     link_properties := [] |}.

Definition ranges_registered : state :=
  set_registry {[ 1 := [share_range]; 2 := [watch_start] ]} (loaded false ranges_heap).

Definition no_views : root_view_t := {| select_Viewable := []; panel_bokeh_map := [] |}.

Definition root0_ranges : root_model_t := {| ref_id := 0; select_BkModel := references 0 |}.

(** [isinstance(obj, Viewable)] *)
Definition isinstance_Viewable (h : gmap nat pyobj) (v : value) : bool :=
  match lookup_obj h v with Some (OViewable _) => true | _ => false end.

(** The test on line 114-115 that makes the emission loop pass over a
    triple. *)
Definition skipped (t : triple) : bool :=
  _requires_target (link_type (fst (fst t))) && negb (bool_decide (is_Some (snd t))).

(** The triple a generator instance was built for. *)
Definition triple_of (i : generator_instance) : triple :=
  (gen_link i, gen_source i, gen_target i).

(** Every list of the registry holds links of its key. *)
Definition well_keyed (st : state) : Prop :=
  forall s links lk, registry st !! s = Some links -> In lk links -> source lk = s.

(** No entry of a list is equivalent to an entry before it. *)
Fixpoint irredundant (links : list link) : Prop :=
  match links with
  | [] => True
  | lk :: rest =>
      Forall (fun later => equivalent later lk = false) rest /\ irredundant rest
  end.

Definition irredundant_registry (st : state) : Prop :=
  forall s links, registry st !! s = Some links -> irredundant links.

(** A source model with two properties and a target model with two. *)
Definition pair_heap : gmap nat pyobj :=
  <[1 := view_of 11]> (<[2 := view_of 12]>
  (<[11 := typed [("value", (PString, VStr "3")); ("start", (PInt, VInt 0))]]>
  (<[12 := typed [("text", (PString, VStr "t")); ("end", (PInt, VInt 9))]]>
  (<[0 := layout 11 12]> ∅)))).

(** [Link(source, target, properties={'value': 'text', 'start': 'end'})] *)
Definition pair_link : link :=
  {| link_id := 100; link_type := cls_Link; link_name := "Link00001";
     _source := 1; _target := Some 2; link_args := Some [];
     link_code := None; link_properties := [("value", "text"); ("start", "end")] |}.

(** [st'] has the objects of [st], and every model has kept its
    properties and its event callbacks. *)
Definition same_attrs (st st' : state) : Prop :=
  forall a, match heap st !! a with
            | Some (OModel m) =>
                exists m', heap st' !! a = Some (OModel m')
                           /\ attrs m' = attrs m
                           /\ js_event_callbacks m' = js_event_callbacks m
            | o => heap st' !! a = o
            end.

(** Sample worlds and templates. *)
Definition plain_doc : document := {| doc_id := 1; session_context := None |}.

Definition idle_world : world :=
  {| panel_state := {| _curdoc := None; _hold := false; _thread_id := None;
                       _servers := [] |};
     bokeh_curdoc := plain_doc; server_stopped := ∅; comm_sent := [] |}.

(** [body] leaves [state._hold] as it finds it. *)
Definition keeps_hold {A} (body : IO A) : Prop :=
  forall w r w', body w = (r, w') -> _hold (panel_state w') = _hold (panel_state w).

(** Reading [state._hold]. *)
Definition get_hold : IO bool := fun w => (Return (_hold (panel_state w)), w).

(** The names of a template are distinct and its first pane shows its
    current repr. *)
Definition consistent (repr1 : nat -> string) (t : Template.template) : Prop :=
  List.NoDup (map fst (Template._render_items t))
  /\ Template.layout_repr t = Template.__repr__ repr1 t.

Definition sample_repr1 (obj : nat) : string := "Markdown(str)".

Definition empty_template : Template.template :=
  {| Template.template_ := Some (Template.Compiled "{{ embed(roots.A) }}");
     Template.nb_template := Some (Template.Compiled "{{ embed(roots.A) }}");
     Template._render_items := []; Template._server := None;
     Template.layout_repr := Template.__repr__ sample_repr1
       {| Template.template_ := None; Template.nb_template := None;
          Template._render_items := []; Template._server := None;
          Template.layout_repr := ""; Template.server_info := "";
          Template.button_name := "" |};
     Template.server_info := ""; Template.button_name := "Launch server" |}.

(** A world in which the server at address 7 is indexed and running, and
    a template that holds this server. *)
Definition serving_world : world :=
  {| panel_state := {| _curdoc := None; _hold := false; _thread_id := None;
                       _servers := [("srv", (7, 0, []))] |};
     bokeh_curdoc := plain_doc; server_stopped := {[ 7 := false ]}; comm_sent := [] |}.

Definition serving_template : Template.template :=
  Template.set_server (Some 7) "port 5006" "Stop server" empty_template.

(** [get_server] returning a started server at address 7. *)
Definition start_server_7 : IO nat := fun w =>
  (Return 7, set_server_stopped (<[7 := false]> (server_stopped w)) w).

(** The triples a pass selects in a state, with the overrides of the
    holoviews step (lines 87-109): the comprehension and the expansion,
    on the views of the root view and the models the root model selects
    in that state. *)
Definition selection (root_view : root_view_t) (rm : root_model_t) (st : state)
    : result (list triple * gmap nat (list (string * value))) :=
  let linkable := select_Viewable root_view ++ select_BkModel rm (heap st) in
  rbind (found_of (registry st) linkable linkable) (fun found =>
  if holoviews_loaded st
  then expand (registry st) (panel_bokeh_map root_view) linkable (found, ∅)
  else Ok (found, ∅)).

Definition selected_triples (root_view : root_view_t) (rm : root_model_t) (st : state)
    : list triple :=
  match selection root_view rm st with
  | Ok fa => fst fa
  | Raise _ => []
  end.

(** The two panes of [untitled_heap] and a model [14] that is not under
    the root. *)
Definition noted_heap : gmap nat pyobj :=
  <[14 := typed [("text", (PString, VStr "note"))]]> untitled_heap.

(** [Link(plot, text_input, args={'note': model14},
    properties={'text': 'value'})] *)
Definition noted_link : link :=
  {| link_id := 101; link_type := cls_Link; link_name := "Link00002";
     _source := 2; _target := Some 1; link_args := Some [("note", VRef 14)];
     link_code := None; link_properties := [("text", "value")] |}.

Definition noted_registered : state :=
  set_registry {[ 2 := [noted_link] ]} (loaded false noted_heap).

(** [Callback(model14, code={'text': ...})] *)
Definition note_watch : link :=
  {| link_id := 102; link_type := cls_Callback; link_name := "Callback00002";
     _source := 14; _target := None; link_args := Some [];
     link_code := Some [("text", "console.log(cb_obj.text)")];
     link_properties := [] |}.

Definition watched_registered : state :=
  set_registry {[ 2 := [noted_link]; 14 := [note_watch] ]} (loaded false noted_heap).

(** * Properties *)

(** ** Basic facts about classes, dictionaries and computations *)

Lemma pyclass_eqb_eq a b : pyclass_eqb a b = true <-> a = b.
Proof.
  destruct a as [| |n r], b as [| |n' r']; simpl; split; try congruence; try done.
  - intros H. apply andb_true_iff in H as [Hn Hr].
    apply String.eqb_eq in Hn. apply Bool.eqb_prop in Hr. congruence.
  - intros [= -> ->]. rewrite String.eqb_refl, Bool.eqb_reflx. done.
Qed.

Lemma pyclass_eqb_refl a : pyclass_eqb a a = true.
Proof. by apply pyclass_eqb_eq. Qed.

Lemma requires_target_has_target c : _requires_target c = true -> has_target c = true.
Proof. by destruct c. Qed.

Lemma target_of_link lk : has_target (link_type lk) = true -> target lk = Ok (_target lk).
Proof. unfold target. by intros ->. Qed.

Lemma target_of_callback lk : link_type lk = cls_Callback -> target lk = Raise AttributeError.
Proof. unfold target. by intros ->. Qed.

Lemma option_eqb_nat_eq (a b : option nat) : option_eqb Nat.eqb a b = true <-> a = b.
Proof.
  destruct a, b; simpl; split; try congruence; try done.
  - intros H. apply Nat.eqb_eq in H. congruence.
  - intros [= ->]. apply Nat.eqb_refl.
Qed.

(** ** Registration: [init], [link], [unlink] and the constructors *)

(** On instances of [Link] the loop of [init] never raises, and it
    returns early exactly when an equivalent entry exists. *)
Lemma scan_link self links :
  has_target (link_type self) = true ->
  Callback.scan self links = Ok (existsb (equivalent self) links).
Proof.
  intros Hself. induction links as [|lk rest IH]; simpl; [done|].
  unfold equivalent at 1.
  destruct (pyclass_eqb (link_type lk) (link_type self)) eqn:Hc; simpl; [|done].
  destruct (Nat.eqb (source lk) (source self)) eqn:Hs; simpl; [|done].
  apply pyclass_eqb_eq in Hc.
  rewrite (target_of_link lk), (target_of_link self) by congruence. simpl.
  destruct (option_eqb Nat.eqb (_target lk) (_target self)) eqn:Ht; simpl; [|done].
  destruct (params_eqb self lk); simpl; done.
Qed.

(** On an instance of [Callback] the loop raises as soon as the list
    holds an instance of [Callback] with the same source. *)
Lemma scan_base_callback_raises self links c1 :
  link_type self = cls_Callback ->
  In c1 links -> link_type c1 = cls_Callback -> source c1 = source self ->
  Callback.scan self links = Raise AttributeError.
Proof.
  intros Hself Hin Hc1 Hs1. induction links as [|lk rest IH]; simpl; [done|].
  destruct (pyclass_eqb (link_type lk) (link_type self)
            && Nat.eqb (source lk) (source self)) eqn:E.
  - apply andb_true_iff in E as [Hc _]. apply pyclass_eqb_eq in Hc.
    rewrite (target_of_callback lk) by congruence. done.
  - destruct Hin as [->|Hin]; [|by apply IH].
    rewrite Hc1, Hself, Hs1, Nat.eqb_refl in E. discriminate.
Qed.

Lemma init_registered self st :
  has_target (link_type self) = true ->
  exists links,
    Callback.init self st
    = (Ok tt, if existsb (equivalent self) (registry_get (registry st) (source self))
              then st
              else set_registry (<[source self := links]> (registry st)) st)
    /\ links = registry_get (registry st) (source self) ++ [self].
Proof.
  intros Hself. unfold Callback.init, registry_get.
  destruct (registry st !! source self) as [links|] eqn:E; simpl.
  - rewrite scan_link by done. exists (links ++ [self]).
    by destruct (existsb (equivalent self) links).
  - by exists [self].
Qed.

(** [==] on dictionaries is transitive when [==] on their values is. *)
Lemma dict_get_In {V} k (d : list (string * V)) v :
  dict_get k d = Some v -> In (k, v) d.
Proof.
  induction d as [|[k' v'] d IH]; simpl; [done|].
  destruct (String.eqb k k') eqn:E.
  - apply String.eqb_eq in E. intros [= ->]. left. congruence.
  - intros H. right. by apply IH.
Qed.

Lemma dict_eqb_trans {V} (veqb : V -> V -> bool) :
  (forall x y z, veqb x y = true -> veqb y z = true -> veqb x z = true) ->
  forall d1 d2 d3,
    dict_eqb veqb d1 d2 = true -> dict_eqb veqb d2 d3 = true -> dict_eqb veqb d1 d3 = true.
Proof.
  intros Htr d1 d2 d3 H12 H23. unfold dict_eqb in *.
  apply andb_true_iff in H12 as [L12 F12]. apply andb_true_iff in H23 as [L23 F23].
  apply andb_true_iff. split.
  - apply Nat.eqb_eq in L12, L23. apply Nat.eqb_eq. congruence.
  - rewrite forallb_forall in *. intros [k v] Hin. simpl.
    specialize (F12 _ Hin). simpl in F12.
    destruct (dict_get k d2) as [v2|] eqn:E2; [|done].
    specialize (F23 _ (dict_get_In _ _ _ E2)). simpl in F23.
    destruct (dict_get k d3) as [v3|]; [|done]. eauto.
Qed.

Lemma string_eqb_trans (x y z : string) :
  String.eqb x y = true -> String.eqb y z = true -> String.eqb x z = true.
Proof. rewrite !String.eqb_eq. congruence. Qed.

Lemma value_eqb_trans x y z :
  value_eqb x y = true -> value_eqb y z = true -> value_eqb x z = true.
Proof.
  destruct x, y, z; simpl; try done.
  - rewrite !Z.eqb_eq. congruence.
  - apply string_eqb_trans.
  - apply dict_eqb_trans, string_eqb_trans.
  - rewrite !Nat.eqb_eq. congruence.
Qed.

Lemma option_eqb_trans {A} (eqb : A -> A -> bool) :
  (forall x y z, eqb x y = true -> eqb y z = true -> eqb x z = true) ->
  forall a b c, option_eqb eqb a b = true -> option_eqb eqb b c = true ->
                option_eqb eqb a c = true.
Proof. intros H [x|] [y|] [z|]; simpl; try done. apply H. Qed.

Lemma params_eqb_trans a b c :
  link_type a = link_type b ->
  params_eqb a b = true -> params_eqb b c = true -> params_eqb a c = true.
Proof.
  unfold params_eqb. intros ->.
  rewrite !andb_true_iff. intros [[A1 C1] P1] [[A2 C2] P2]. repeat split.
  - eapply option_eqb_trans; [|done..]. apply dict_eqb_trans, value_eqb_trans.
  - eapply option_eqb_trans; [|done..]. apply dict_eqb_trans, string_eqb_trans.
  - destruct (has_target (link_type b)); [|done].
    eapply dict_eqb_trans; [apply string_eqb_trans|done..].
Qed.

Lemma equivalent_trans c2 c1 e :
  link_type c2 = link_type c1 -> source c2 = source c1 -> _target c2 = _target c1 ->
  params_eqb c2 c1 = true ->
  equivalent c1 e = true -> equivalent c2 e = true.
Proof.
  intros Ht Hs Htg Hp. unfold equivalent.
  rewrite !andb_true_iff. intros [[[E1 E2] E3] E4]. rewrite Ht, Hs, Htg.
  repeat split; try done. eapply params_eqb_trans; done.
Qed.

(** The registration of a [Link] next to an equivalent instance changes
    nothing, and the list of the source holds the first instance once if
    it held no equivalent entry before; a [Link] with no equivalent entry
    is appended. *)
Lemma link_registration_idempotent c1 c2 st :
  has_target (link_type c1) = true ->
  link_type c2 = link_type c1 -> source c2 = source c1 -> _target c2 = _target c1 ->
  params_eqb c2 c1 = true ->
  exists st1,
    Callback.init c1 st = (Ok tt, st1)
    /\ Callback.init c2 st1 = (Ok tt, st1)
    /\ Link.link c2 st1 = (Ok tt, st1)
    /\ (existsb (equivalent c1) (registry_get (registry st) (source c1)) = false ->
        registry st1 !! source c1
        = Some (registry_get (registry st) (source c1) ++ [c1])).
Proof.
  intros Hl Ht Hs Htg Hp.
  destruct (init_registered c1 st Hl) as (links & E1 & ->).
  eexists. split; [exact E1|].
  assert (Hl2 : has_target (link_type c2) = true) by congruence.
  set (old := registry_get (registry st) (source c1)) in *.
  assert (Hnoop : forall st1,
    existsb (equivalent c2) (registry_get (registry st1) (source c2)) = true ->
    Callback.init c2 st1 = (Ok tt, st1)).
  { intros st1 Hex. destruct (init_registered c2 st1 Hl2) as (l2 & E2 & _).
    by rewrite E2, Hex. }
  assert (Hex : existsb (equivalent c2)
                  (registry_get (registry (if existsb (equivalent c1) old then st
                     else set_registry (<[source c1 := old ++ [c1]]> (registry st)) st))
                     (source c2)) = true).
  { destruct (existsb (equivalent c1) old) eqn:Ex.
    - rewrite Hs. fold old. apply existsb_exists in Ex as (e & Hin & He).
      apply existsb_exists. exists e. split; [done|].
      by apply (equivalent_trans c2 c1).
    - rewrite Hs. unfold registry_get. simpl. rewrite lookup_insert_eq. simpl.
      rewrite existsb_app. simpl. apply orb_true_iff. right.
      unfold equivalent. rewrite Ht, Hs, Htg, Hp, pyclass_eqb_refl, Nat.eqb_refl.
      simpl. rewrite orb_false_r, andb_true_r. by apply option_eqb_nat_eq. }
  repeat split.
  - by apply Hnoop.
  - unfold Link.link, bind. by rewrite (Hnoop _ Hex), (Hnoop _ Hex).
  - intros Ex. rewrite Ex. simpl. by rewrite lookup_insert_eq.
Qed.


(** C1. Registering an equivalent declaration a second time is meant to
    change nothing, and a different one is meant to be appended. For two
    instances of [Callback] on one source the code does neither: the
    second construction raises [AttributeError], whether its parameters
    equal those of the first or differ from them. *)
Theorem second_callback_registration_raises :
  let p := {| p_args := Some []; p_code := Some [("value", "console.log(1)")];
              p_properties := [] |} in
  let q := {| p_args := Some []; p_code := Some [("value", "console.log(2)")];
              p_properties := [] |} in
  exists c1 st1,
    construct cls_Callback 100 "Callback00001" (Some 1) None p (loaded false ∅)
    = (Ok c1, st1)
    /\ registry st1 !! 1 = Some [c1]
    /\ construct cls_Callback 101 "Callback00002" (Some 1) None p st1
       = (Raise AttributeError, st1)
    /\ construct cls_Callback 102 "Callback00003" (Some 1) None q st1
       = (Raise AttributeError, st1).
Proof.
  simpl. eexists _, _. split; [reflexivity|]. repeat split; vm_compute; reflexivity.
Qed.

(** C4. A constructor called without a source, or the constructor of a
    class that requires a target called without a target, raises
    [ValueError] (the configuration error of the specification) and
    leaves the state, hence the registry, as it was. *)
Theorem construct_rejects_missing_endpoint cls self_id nm source target p st :
  source = None \/ (_requires_target cls = true /\ target = None) ->
  exists msg,
    construct cls self_id nm source target p st = (Raise (ValueError msg), st).
Proof.
  intros H. unfold construct, Link.__init__, Callback.__init__, raise.
  destruct cls as [| |n r]; simpl.
  - destruct H as [->|[? _]]; [eauto|done].
  - destruct target as [t|]; simpl; [|eauto].
    destruct H as [->|[_ ?]]; [eauto|done].
  - destruct r, target as [t|]; simpl; try (by eauto);
      destruct H as [->|[? ?]]; try done; eauto.
Qed.

Lemma construct_rejects_missing_endpoint_witness :
  exists msg,
    construct cls_Link 7 "Link00001" (Some 1) None
              {| p_args := Some []; p_code := None; p_properties := [] |}
              (loaded false ∅)
    = (Raise (ValueError msg), loaded false ∅).
Proof.
  apply construct_rejects_missing_endpoint. right. split; reflexivity.
Defined.

(** A construction that succeeds leaves a list for the source in the
    registry, and no method removes a list from it. *)
Lemma init_keeps_lists self st r st' s :
  Callback.init self st = (r, st') ->
  is_Some (registry st !! s) -> is_Some (registry st' !! s).
Proof.
  unfold Callback.init. intros H Hs.
  destruct (registry st !! source self) as [links|] eqn:E.
  - destruct (Callback.scan self links) as [[|]|e]; injection H as ? ?; subst; try done.
    simpl. destruct (decide (source self = s)) as [->|Hne].
    + rewrite lookup_insert_eq. eauto.
    + by rewrite lookup_insert_ne.
  - injection H as ? ?; subst. simpl. destruct (decide (source self = s)) as [->|Hne].
    + rewrite lookup_insert_eq. eauto.
    + by rewrite lookup_insert_ne.
Qed.

Lemma init_registers self st st' :
  Callback.init self st = (Ok tt, st') -> is_Some (registry st' !! source self).
Proof.
  unfold Callback.init. intros H.
  destruct (registry st !! source self) as [links|] eqn:E.
  - destruct (Callback.scan self links) as [[|]|e]; try done;
      injection H as ?; subst.
    + rewrite E. eauto.
    + simpl. rewrite lookup_insert_eq. eauto.
  - injection H as ?; subst. simpl. rewrite lookup_insert_eq. eauto.
Qed.

Lemma construct_registers cls self_id nm src target p st lk st' :
  construct cls self_id nm src target p st = (Ok lk, st') ->
  is_Some (registry st' !! source lk).
Proof.
  assert (Hcb : forall tgt target,
    Callback.__init__ cls self_id nm tgt src target p st = (Ok lk, st') ->
    is_Some (registry st' !! source lk)).
  { unfold Callback.__init__, bind, ret, raise. intros tgt tg.
    destruct src as [s|]; [|done].
    match goal with |- context [Callback.init ?x st] =>
      destruct (Callback.init x st) as [[[]|e] st1] eqn:E end; [|done].
    intros [= <- <-]. by apply init_registers in E. }
  unfold construct, Link.__init__, raise.
  destruct cls; try apply Hcb;
    (destruct (_ && _); [done|apply Hcb]).
Qed.

Lemma unlink_keeps_lists self st r st' s :
  Link.unlink self st = (r, st') ->
  is_Some (registry st !! s) -> is_Some (registry st' !! s).
Proof.
  unfold Link.unlink. intros H Hs.
  destruct (registry st !! source self) as [links|] eqn:E; [|by injection H as ? ?; subst].
  destruct (existsb _ links); injection H as ? ?; subst; [|done].
  simpl. destruct (decide (source self = s)) as [->|Hne].
  - rewrite lookup_insert_eq. eauto.
  - by rewrite lookup_insert_ne.
Qed.

Lemma index_pop_split self links :
  existsb (fun lk => link_is lk self) links = true ->
  exists pre x post,
    links = pre ++ x :: post
    /\ link_is x self = true
    /\ Forall (fun y => link_is y self = false) pre
    /\ Link.pop (Link.index self links) links = pre ++ post.
Proof.
  induction links as [|lk rest IH]; simpl; [done|].
  destruct (link_is lk self) eqn:E; simpl.
  - intros _. by exists [], lk, rest.
  - intros H. destruct (IH H) as (pre & x & post & -> & Hx & Hpre & Hpop).
    exists (lk :: pre), x, post. repeat split; try done.
    + by constructor.
    + simpl. by rewrite Hpop.
Qed.

(** C6. Where the registry has a list for the source of the link,
    [unlink] returns normally; it removes the entry that is this
    instance, keeps every other entry in its order and every other list,
    and changes nothing when the instance is not in the list. *)
Theorem unlink_removes_exactly_self self st links :
  registry st !! source self = Some links ->
  exists st',
    Link.unlink self st = (Ok tt, st')
    /\ heap st' = heap st
    /\ (forall s, s <> source self -> registry st' !! s = registry st !! s)
    /\ (existsb (fun lk => link_is lk self) links = false -> st' = st)
    /\ (existsb (fun lk => link_is lk self) links = true ->
        exists pre x post,
          links = pre ++ x :: post
          /\ link_is x self = true
          /\ Forall (fun y => link_is y self = false) pre
          /\ registry st' !! source self = Some (pre ++ post)).
Proof.
  intros E. unfold Link.unlink. rewrite E.
  destruct (existsb (fun lk => link_is lk self) links) eqn:Ex.
  - eexists. split; [reflexivity|]. repeat split; try done.
    + intros s Hs. simpl. by rewrite lookup_insert_ne.
    + intros _. destruct (index_pop_split self links Ex)
        as (pre & x & post & -> & Hx & Hpre & Hpop).
      exists pre, x, post. repeat split; try done.
      simpl. by rewrite lookup_insert_eq, Hpop.
  - exists st. repeat split; done.
Qed.

Lemma unlink_removes_exactly_self_witness :
  exists st',
    Link.unlink (sample_link 11 3) sample_registry = (Ok tt, st')
    /\ heap st' = heap sample_registry.
Proof.
  assert (E : registry sample_registry !! source (sample_link 11 3)
              = Some [sample_link 10 2; sample_link 11 3; sample_link 12 4])
    by (vm_compute; reflexivity).
  destruct (unlink_removes_exactly_self _ _ _ E) as (st' & Hrun & Hheap & _).
  exists st'. split; [exact Hrun|exact Hheap].
Defined.

(** C9. Once an instance of [Callback] is registered for a source,
    constructing another instance of [Callback] with that source raises
    [AttributeError] and changes nothing: the loop of [init] reads the
    attribute [target], which [Callback] does not have. *)
Theorem second_base_callback_raises c1 st links s self_id nm tgt p :
  registry st !! s = Some links ->
  In c1 links -> link_type c1 = cls_Callback -> source c1 = s ->
  construct cls_Callback self_id nm (Some s) tgt p st = (Raise AttributeError, st).
Proof.
  intros E Hin Hc Hs. unfold construct, Callback.__init__, bind, Callback.init.
  simpl. rewrite E.
  by rewrite (scan_base_callback_raises _ links c1).
Qed.

Lemma second_base_callback_raises_witness :
  construct cls_Callback 101 "Callback00002" (Some 1) (Some 2)
            {| p_args := Some [("x", VInt 1)]; p_code := None; p_properties := [] |}
            (set_registry {[ 1 := [sample_callback] ]} (loaded false ∅))
  = (Raise AttributeError, set_registry {[ 1 := [sample_callback] ]} (loaded false ∅)).
Proof.
  apply (second_base_callback_raises sample_callback _ [sample_callback]).
  - reflexivity.
  - simpl. left. reflexivity.
  - reflexivity.
  - reflexivity.
Defined.

(** ** Specs of the pure-code mode *)

Lemma fold_left_rebinds {A B} (f : A -> B) (items : list A) (x : A) (init : option B) :
  fold_left (fun _ kv => Some (f kv)) (items ++ [x]) init = Some (f x).
Proof. by rewrite fold_left_app. Qed.

(** C10. When the [code] dictionary is what the specs are computed from,
    [_get_specs] returns one triple, made from the entry iterated last,
    whatever entries come before it; the generator then runs
    [_init_callback] once, for that triple. *)
Theorem code_mode_specs_from_last_entry st lk source target items k c :
  link_code lk = Some (items ++ [(k, c)]) ->
  let last_spec := (to_spec (heap st) (VRef source) k, (None, None) : tgt_spec_t, Some c) in
  JSCallbackGenerator._get_specs st lk source target = Ok [last_spec]
  /\ JSLinkCallbackGenerator._get_specs st lk source target = Ok [last_spec]
  /\ forall g root_model arg_overrides,
       generator__init__ g root_model lk source target arg_overrides st
       = (_init_callback g arg_overrides root_model lk source
            (to_spec (heap st) (VRef source) k) target (None, None) (Some c) ;;;
          ret {| gen_class := g; gen_root_model := root_model; gen_link := lk;
                 gen_source := source; gen_target := target;
                 gen_arg_overrides := arg_overrides |}) st.
Proof.
  intros Hc last_spec.
  assert (H1 : JSCallbackGenerator._get_specs st lk source target = Ok [last_spec]).
  { unfold JSCallbackGenerator._get_specs. rewrite Hc.
    by rewrite (fold_left_rebinds
                  (fun kv => (to_spec (heap st) (VRef source) (fst kv), snd kv))). }
  assert (H2 : JSLinkCallbackGenerator._get_specs st lk source target = Ok [last_spec]).
  { unfold JSLinkCallbackGenerator._get_specs, JSLinkCallbackGenerator.code_given.
    rewrite Hc. by destruct items. }
  repeat split; [done..|].
  intros g rm ao. unfold generator__init__, CallbackGenerator.validate, bind, ret, lift.
  assert (Hg : call_get_specs g st lk source target = Ok [last_spec]) by by destruct g.
  rewrite Hg. simpl. unfold bind, ret.
  by destruct (_init_callback g ao rm lk source _ target _ _ st) as [[[]|e] st1].
Qed.

Lemma code_mode_specs_from_last_entry_witness :
  JSCallbackGenerator._get_specs (loaded false ∅) two_snippets 1 None
  = Ok [((Some "axis", "start"), (None, None), Some "console.log(2)")].
Proof.
  apply (code_mode_specs_from_last_entry (loaded false ∅) two_snippets 1 None
           [("value", "console.log(1)")] "axis.start" "console.log(2)").
  reflexivity.
Defined.

(** With no entry at all the loop binds nothing and the [return] fails. *)
Lemma code_mode_specs_of_empty_code st lk source target :
  link_code lk = Some [] ->
  JSCallbackGenerator._get_specs st lk source target = Raise UnboundLocalError.
Proof. unfold JSCallbackGenerator._get_specs. by intros ->. Qed.

(** ** What a render pass may change *)

Lemma obj_le_refl o : obj_le o o.
Proof. destruct o; simpl; try done. eexists. split; [done|]. by intros id. Qed.

Lemma obj_le_trans o1 o2 o3 : obj_le o1 o2 -> obj_le o2 o3 -> obj_le o1 o3.
Proof.
  destruct o1; simpl; try (intros ->; done).
  intros (m2 & -> & H12). simpl. intros (m3 & -> & H23).
  eexists. split; [done|]. intros id H. by apply H23, H12.
Qed.

Lemma extends_refl st : extends st st.
Proof. split; try done. intros a o H. exists o. split; [done|apply obj_le_refl]. Qed.

Lemma extends_trans st1 st2 st3 : extends st1 st2 -> extends st2 st3 -> extends st1 st3.
Proof.
  intros [R1 C1 H1 O1 F1] [R2 C2 H2 O2 F2]. split; try congruence.
  - intros a o Ho. destruct (O1 _ _ Ho) as (o2 & Ho2 & L12).
    destruct (O2 _ _ Ho2) as (o3 & Ho3 & L23).
    exists o3. split; [done|]. by eapply obj_le_trans.
  - intros a Ha. by apply F2, F1.
Qed.

(** Replacing a model by a model with at least its tags. *)
Lemma extends_update st a m m' :
  heap st !! a = Some (OModel m) -> model_le m m' ->
  extends st (set_heap (<[a := OModel m']> (heap st)) st).
Proof.
  intros Ha Hle. split; try done.
  - intros b o Hb. simpl. destruct (decide (a = b)) as [->|Hne].
    + rewrite lookup_insert_eq. eexists. split; [done|].
      rewrite Ha in Hb. injection Hb as <-. simpl. eauto.
    + rewrite lookup_insert_ne by done. exists o. split; [done|apply obj_le_refl].
  - intros b Hb. simpl. rewrite lookup_insert_ne; [done|]. congruence.
Qed.

Lemma tagged_dict_set id k cbs (d : list (string * list CustomJS)) :
  tagged id (dict_set k cbs d)
  = existsb (fun cb => existsb (Nat.eqb id) (tags cb)) cbs
    || tagged id (dict_remove k d).
Proof.
  unfold tagged. induction d as [|[k' v'] d IH]; simpl.
  - by rewrite orb_false_r.
  - destruct (String.eqb k k'); simpl; [done|].
    rewrite IH. by rewrite !orb_assoc, (orb_comm (existsb _ v')).
Qed.

Lemma tagged_dict_split id k (d : list (string * list CustomJS)) :
  tagged id d
  = existsb (fun cb => existsb (Nat.eqb id) (tags cb)) (default [] (dict_get k d))
    || tagged id (dict_remove k d).
Proof.
  unfold tagged. induction d as [|[k' v'] d IH]; simpl; [done|].
  destruct (String.eqb k k'); simpl; [done|].
  rewrite IH. by rewrite !orb_assoc, (orb_comm (existsb _ v')).
Qed.

(** Appending a callback to the list of an event keeps every tag and
    adds those of the callback. *)
Lemma tagged_append id k cb (d : list (string * list CustomJS)) :
  tagged id (dict_set k (default [] (dict_get k d) ++ [cb]) d)
  = tagged id d || existsb (Nat.eqb id) (tags cb).
Proof.
  rewrite tagged_dict_set, (tagged_dict_split id k d), existsb_app. simpl.
  rewrite orb_false_r.
  by rewrite <- !orb_assoc, (orb_comm (existsb (Nat.eqb id) (tags cb))).
Qed.

Lemma monotone_ret {A} (a : A) : monotone (ret a).
Proof. intros st r st' [= <- <-]. apply extends_refl. Qed.

Lemma monotone_raise {A} e : monotone (@raise A e).
Proof. intros st r st' [= <- <-]. apply extends_refl. Qed.

Lemma monotone_lift {A} (f : state -> result A) : monotone (lift f).
Proof. intros st r st' [= <- <-]. apply extends_refl. Qed.

Lemma monotone_gets {A} (f : state -> A) : monotone (gets f).
Proof. intros st r st' [= <- <-]. apply extends_refl. Qed.

Lemma monotone_bind {A B} (c : M A) (k : A -> M B) :
  monotone c -> (forall a, monotone (k a)) -> monotone (bind c k).
Proof.
  intros Hc Hk st r st'. unfold bind.
  destruct (c st) as [[a|e] st1] eqn:E.
  - intros H. eapply extends_trans; [by eapply Hc|by eapply Hk].
  - intros [= <- <-]. by eapply Hc.
Qed.

Lemma monotone_for_each {A} (xs : list A) (body : A -> M unit) :
  (forall x, monotone (body x)) -> monotone (for_each xs body).
Proof.
  intros Hb. induction xs as [|x xs IH]; simpl.
  - apply monotone_ret.
  - apply monotone_bind; [apply Hb|by intros _].
Qed.

Lemma monotone_setattr model nm v : monotone (setattr model nm v).
Proof.
  intros st r st'. unfold setattr.
  destruct model as [| | | |a]; try (intros [= <- <-]; apply extends_refl).
  destruct (heap st !! a) as [[| m | | |]|] eqn:Ha;
    try (intros [= <- <-]; apply extends_refl).
  destruct (dict_mem nm (attrs m)); [|intros [= <- <-]; apply extends_refl].
  destruct (prop_error m nm v); intros [= <- <-]; [apply extends_refl|].
  eapply extends_update; [done|]. by intros id.
Qed.

Lemma monotone_js_on_change model event cb : monotone (js_on_change model event cb).
Proof.
  intros st r st'. unfold js_on_change.
  destruct model as [| | | |a]; try (intros [= <- <-]; apply extends_refl).
  destruct (heap st !! a) as [[| m | | |]|] eqn:Ha;
    try (intros [= <- <-]; apply extends_refl).
  intros [= <- <-]. eapply extends_update; [done|].
  intros id Hid. simpl. rewrite tagged_append, Hid. done.
Qed.

Lemma monotone_js_on_event model event cb : monotone (js_on_event model event cb).
Proof.
  intros st r st'. unfold js_on_event.
  destruct model as [| | | |a]; try (intros [= <- <-]; apply extends_refl).
  destruct (heap st !! a) as [[| m | | |]|] eqn:Ha;
    try (intros [= <- <-]; apply extends_refl).
  intros [= <- <-]. eapply extends_update; [done|]. by intros id.
Qed.

Create HintDb monotone.
#[local] Hint Resolve monotone_ret monotone_raise monotone_lift monotone_gets
  monotone_setattr monotone_js_on_change monotone_js_on_event : monotone.

(** Splits a computation along its binds, loops and branches. *)
Ltac monotone_steps :=
  repeat first
    [ solve [auto with monotone]
    | apply monotone_bind; [|intros ?]
    | apply monotone_for_each; intros ?
    | match goal with
      | |- monotone (if ?b then _ else _) => destruct b
      | |- monotone (match ?x with Some _ => _ | None => _ end) => destruct x
      | |- monotone (let (_, _) := ?p in _) => destruct p
      end ].

Lemma monotone_initialize_models g lk target src_model src_spec tgt_model tgt_spec :
  monotone (call_initialize_models g lk target src_model src_spec tgt_model tgt_spec).
Proof.
  destruct g; simpl.
  - apply monotone_ret.
  - unfold JSLinkCallbackGenerator._initialize_models. monotone_steps.
Qed.

Lemma monotone_init_callback g ao rm lk source src_spec target tgt_spec code :
  monotone (_init_callback g ao rm lk source src_spec target tgt_spec code).
Proof.
  unfold _init_callback, JSCallbackGenerator._get_triggers.
  pose proof monotone_initialize_models. monotone_steps.
Qed.

Lemma monotone_generator_init g rm lk source target ao :
  monotone (generator__init__ g rm lk source target ao).
Proof.
  unfold generator__init__, CallbackGenerator.validate.
  pose proof monotone_init_callback. monotone_steps.
Qed.

Lemma monotone_emit ao rm found : monotone (emit ao rm found).
Proof.
  induction found as [|[[lk src] tgt] rest IH]; simpl.
  - apply monotone_ret.
  - pose proof monotone_generator_init. monotone_steps.
Qed.

Lemma monotone_process_callbacks root_view root_model :
  monotone (_process_callbacks root_view root_model).
Proof.
  unfold _process_callbacks. destruct root_model as [rm|]; [|apply monotone_ret].
  apply monotone_bind; [apply monotone_gets|]. intros models.
  destruct (_ ++ _); [apply monotone_ret|].
  pose proof monotone_emit. monotone_steps.
Qed.

(** C8. The resolution pass leaves the registry as it found it, whatever
    it returns or raises; and without a root model it returns [None] at
    once, in every registry, without changing anything. *)
Theorem process_callbacks_preserves_registry root_view root_model st :
  registry (snd (_process_callbacks root_view root_model st)) = registry st
  /\ _process_callbacks root_view None st = (Ok None, st).
Proof.
  split; [|done].
  destruct (_process_callbacks root_view root_model st) as [r st'] eqn:E.
  by destruct (monotone_process_callbacks _ _ _ _ _ E).
Qed.

(** ** The triples selected by a pass *)

Lemma found_of_links_eq linkable src links :
  found_of_links linkable src links
  = Ok (map (to_triple src) (List.filter (selected linkable) links)).
Proof.
  induction links as [|lk rest IH]; simpl; [done|].
  rewrite IH. unfold selected at 2, target, target_or_None.
  destruct (_requires_target (link_type lk)) eqn:Hr; simpl.
  - rewrite (requires_target_has_target _ Hr). simpl.
    destruct (in_linkable (_target lk) linkable); simpl; [|done].
    unfold to_triple, target_or_None. by rewrite (requires_target_has_target _ Hr).
  - reflexivity.
Qed.

Lemma found_of_eq reg linkable srcs :
  found_of reg linkable srcs
  = Ok (flat_map (fun src => map (to_triple src)
                               (List.filter (selected linkable) (registry_get reg src)))
                 srcs).
Proof.
  induction srcs as [|src rest IH]; simpl; [done|].
  by rewrite found_of_links_eq, IH.
Qed.

Lemma in_linkable_spec t linkable :
  in_linkable t linkable = true <-> exists a, t = Some a /\ In a linkable.
Proof.
  destruct t as [a|]; simpl.
  - rewrite existsb_exists. split.
    + intros (x & Hin & Hx). apply Nat.eqb_eq in Hx. subst. eauto.
    + intros (x & [= <-] & Hin). exists a. split; [done|apply Nat.eqb_refl].
  - split; [done|]. by intros (a & ? & _).
Qed.

Lemma selected_spec linkable lk :
  selected linkable lk = true
  <-> _requires_target (link_type lk) = false
      \/ exists a, target_or_None lk = Some a /\ In a linkable.
Proof.
  unfold selected. rewrite orb_true_iff, negb_true_iff, in_linkable_spec. done.
Qed.

Lemma expand_link_adds m src lk found ao found' ao' :
  expand_link m src lk (found, ao) = Ok (found', ao') ->
  exists extra, found' = found ++ extra.
Proof.
  unfold expand_link. simpl.
  destruct (has_target (link_type lk)); simpl.
  - destruct (map_get m (value_of (_target lk))) as [tgts|e]; simpl; [|done].
    destruct (link_args lk); [|done].
    destruct (override_args _ _ _ _); simpl; [|done]. intros [= <- _]. eauto.
  - destruct (link_args lk); [|done].
    destruct (override_args _ _ _ _); simpl; [|done]. intros [= <- _].
    exists []. by rewrite app_nil_r.
Qed.

Lemma expand_links_adds m src links found ao found' ao' :
  expand_links m src links (found, ao) = Ok (found', ao') ->
  exists extra, found' = found ++ extra.
Proof.
  revert found ao. induction links as [|lk rest IH]; simpl; intros found ao.
  - intros [= <- _]. exists []. by rewrite app_nil_r.
  - destruct (expand_link m src lk (found, ao)) as [[f1 a1]|e] eqn:E; simpl; [|done].
    intros H. apply expand_link_adds in E as (x1 & ->).
    apply IH in H as (x2 & ->). exists (x1 ++ x2). by rewrite app_assoc.
Qed.

Lemma expand_adds reg m srcs found ao found' ao' :
  expand reg m srcs (found, ao) = Ok (found', ao') ->
  exists extra, found' = found ++ extra.
Proof.
  revert found ao. induction srcs as [|src rest IH]; simpl; intros found ao.
  - intros [= <- _]. exists []. by rewrite app_nil_r.
  - destruct (expand_links m src (registry_get reg src) (found, ao))
      as [[f1 a1]|e] eqn:E; simpl; [|done].
    intros H. apply expand_links_adds in E as (x1 & ->).
    apply IH in H as (x2 & ->). exists (x1 ++ x2). by rewrite app_assoc.
Qed.

(** C2. In a pass with a root model, the comprehension computes a list
    [found] that holds the triple of a callback registered under an
    object of [linkable] exactly when the callback requires no target or
    its target is in [linkable]; the emission loop skips none of these
    triples; the holoviews step only appends triples to [found], starting
    from no overrides; and the loop runs on the resulting list. *)
Theorem found_selects_linkable_links root_view rm st :
  let linkable := select_Viewable root_view ++ select_BkModel rm (heap st) in
  exists found,
    found_of (registry st) linkable linkable = Ok found
    /\ (forall cb src t,
          In (cb, src, t) found
          <-> In src linkable
              /\ In cb (registry_get (registry st) src)
              /\ t = target_or_None cb
              /\ (_requires_target (link_type cb) = false
                  \/ exists a, target_or_None cb = Some a /\ In a linkable))
    /\ (forall cb src t,
          In (cb, src, t) found ->
          _requires_target (link_type cb) && negb (bool_decide (is_Some t)) = false)
    /\ (forall found' overrides,
          expand (registry st) (panel_bokeh_map root_view) linkable (found, ∅)
          = Ok (found', overrides) ->
          exists extra, found' = found ++ extra)
    /\ (linkable <> [] ->
        _process_callbacks root_view (Some rm) st
        = match (if holoviews_loaded st
                 then expand (registry st) (panel_bokeh_map root_view) linkable (found, ∅)
                 else Ok (found, ∅)) with
          | Ok fa => (callbacks <- emit (snd fa) rm (fst fa) ;; ret (Some callbacks)) st
          | Raise e => (Raise e, st)
          end).
Proof.
  intros linkable. eexists. split; [apply found_of_eq|].
  assert (Hin : forall cb src t,
    In (cb, src, t)
       (flat_map (fun src => map (to_triple src)
                               (List.filter (selected linkable)
                                            (registry_get (registry st) src))) linkable)
    <-> In src linkable
        /\ In cb (registry_get (registry st) src)
        /\ t = target_or_None cb
        /\ (_requires_target (link_type cb) = false
            \/ exists a, target_or_None cb = Some a /\ In a linkable)).
  { intros cb src t. rewrite in_flat_map. split.
    - intros (s & Hs & Hm). apply in_map_iff in Hm as (lk & [= -> -> <-] & Hf).
      apply filter_In in Hf as [Hreg Hsel]. by apply selected_spec in Hsel.
    - intros (Hs & Hreg & -> & Hsel). exists src. split; [done|].
      apply in_map_iff. exists cb. split; [done|].
      apply filter_In. split; [done|]. by apply selected_spec. }
  split; [exact Hin|]. split; [|split].
  - intros cb src t H. apply Hin in H as (_ & _ & -> & [Hr|(a & -> & _)]).
    + by rewrite Hr.
    + apply andb_false_iff. right. apply negb_false_iff.
      apply bool_decide_eq_true. eauto.
  - intros found' ao H. by eapply expand_adds.
  - intros Hne. unfold _process_callbacks.
    unfold bind at 1. unfold gets at 1. fold linkable.
    destruct linkable as [|x xs] eqn:El; [done|]. rewrite <- El.
    unfold bind at 1. unfold lift at 1. rewrite found_of_eq.
    unfold bind at 1. unfold gets at 1.
    destruct (holoviews_loaded st).
    + unfold bind at 1. unfold lift at 1. by destruct (expand _ _ _ _).
    + by unfold bind at 1.
Qed.

(** ** Running computations step by step *)

Lemma bind_lift {A B} (f : state -> result A) (k : A -> M B) st :
  bind (lift f) k st = match f st with Ok a => k a st | Raise e => (Raise e, st) end.
Proof. unfold bind, lift. by destruct (f st). Qed.

Lemma bind_ret {A B} (a : A) (k : A -> M B) st : bind (ret a) k st = k a st.
Proof. done. Qed.

Lemma bind_gets {A B} (f : state -> A) (k : A -> M B) st : bind (gets f) k st = k (f st) st.
Proof. done. Qed.

Lemma bind_raise {A B} e (k : A -> M B) st : bind (raise e) k st = (Raise e, st).
Proof. done. Qed.

Lemma bind_assoc {A B C} (c : M A) (k : A -> M B) (k' : B -> M C) st :
  bind (bind c k) k' st = bind c (fun a => bind (k a) k') st.
Proof. unfold bind. by destruct (c st) as [[a|e] st1]. Qed.

Lemma bind_inv {A B} (c : M A) (k : A -> M B) st r st' :
  bind c k st = (r, st') ->
  (exists a st1, c st = (Ok a, st1) /\ k a st1 = (r, st'))
  \/ (exists e, c st = (Raise e, st') /\ r = Raise e).
Proof.
  unfold bind. destruct (c st) as [[a|e] st1]; [eauto|].
  intros [= <- <-]. eauto.
Qed.

(** The emission loop on a list in two parts. *)
Lemma emit_app ao rm pre rest st :
  emit ao rm (pre ++ rest) st
  = match emit ao rm pre st with
    | (Ok done_, st1) =>
        match emit ao rm rest st1 with
        | (Ok more, st2) => (Ok (done_ ++ more), st2)
        | (Raise e, st2) => (Raise e, st2)
        end
    | (Raise e, st1) => (Raise e, st1)
    end.
Proof.
  revert st. induction pre as [|[[lk src] tgt] pre IH]; intros st; simpl.
  - unfold ret. by destruct (emit ao rm rest st) as [[more|e] st2].
  - rewrite !bind_lift.
    destruct (callbacks_get (link_type lk) (_callbacks st)) as [g|]; [|done].
    destruct (_requires_target (link_type lk) && negb (bool_decide (is_Some tgt))).
    + apply IH.
    + unfold bind, ret.
      destruct (generator__init__ g rm lk src tgt _ st) as [[inst|e] st0]; [|done].
      rewrite IH.
      destruct (emit ao rm pre st0) as [[d|e] st1]; [|done].
      by destruct (emit ao rm rest st1) as [[more|e] st2].
Qed.

(** ** A target that does not resolve *)

(** The property-link generator refuses a target model that is [None]
    when the link has no code: [_initialize_models] raises [ValueError]
    (the resolution error of the specification) without changing
    anything. *)
Lemma initialize_models_unresolved lk target src_model src_spec tgt_spec st :
  JSLinkCallbackGenerator.code_given lk = false ->
  exists msg,
    JSLinkCallbackGenerator._initialize_models lk target src_model src_spec
                                               VNone tgt_spec st
    = (Raise (ValueError msg), st).
Proof.
  intros Hc. unfold JSLinkCallbackGenerator._initialize_models. simpl.
  rewrite Hc. simpl. rewrite bind_ret, bind_gets. unfold raise. eauto.
Qed.

Lemma init_callback_unresolved_target ao rm lk source ss target ts code st
    src_model cbs a r2 merged :
  CallbackGenerator._resolve_model st rm (VRef source) (fst ss) = Ok src_model ->
  property_callbacks (heap st) src_model = Ok cbs ->
  tagged (link_id lk) cbs = false ->
  _requires_target (link_type lk) = true ->
  CallbackGenerator._resolve_model st rm (value_of target) (fst ts) = Ok VNone ->
  link_args lk = Some a ->
  references_args st rm (dict_update a ao)
    (dict_set "cb_obj" src_model (dict_set "source" src_model (initial_references lk)))
  = Ok r2 ->
  references_handles st rm lk source target r2 = Ok merged ->
  JSLinkCallbackGenerator.code_given lk = false ->
  exists msg,
    _init_callback cls_JSLinkCallbackGenerator ao rm lk source ss target ts code st
    = (Raise (ValueError msg), st).
Proof.
  intros Hsrc Hcbs Htag Hreq Htgt Hargs Hr2 Hm Hcode.
  destruct (initialize_models_unresolved lk target src_model (snd ss) (snd ts) st Hcode)
    as (msg & Hinit).
  exists msg. unfold _init_callback.
  rewrite bind_lift, Hsrc, bind_lift, Hcbs, Htag, Hreq.
  rewrite bind_lift, Htgt. simpl.
  rewrite bind_lift, Hargs, Hr2, bind_lift, Hm.
  unfold bind at 1. simpl. by rewrite Hinit.
Qed.

(** C5. In the emission loop, take a triple whose link requires a
    target, has no code, and is handled by the property-link generator,
    and suppose that for the first entry of [properties] the source
    resolves to a model not yet tagged by the link, the arguments and
    handles resolve, and the target resolves to [None]. Then the
    generator raises [ValueError], and the exception leaves the loop:
    whatever triples follow, the pass raises it in the state reached
    after the triples that came before, so the following triples emit
    nothing. *)
Theorem unresolved_target_aborts_pass ao rm pre lk src t post st insts st1
    path tpath props src_model cbs a r2 merged :
  emit ao rm pre st = (Ok insts, st1) ->
  callbacks_get (link_type lk) (_callbacks st1) = Some cls_JSLinkCallbackGenerator ->
  _requires_target (link_type lk) = true ->
  JSLinkCallbackGenerator.code_given lk = false ->
  link_properties lk = (path, tpath) :: props ->
  CallbackGenerator._resolve_model st1 rm (VRef src)
    (fst (to_spec (heap st1) (VRef src) path)) = Ok src_model ->
  property_callbacks (heap st1) src_model = Ok cbs ->
  tagged (link_id lk) cbs = false ->
  CallbackGenerator._resolve_model st1 rm (VRef t)
    (fst (to_spec (heap st1) (VRef t) tpath)) = Ok VNone ->
  link_args lk = Some a ->
  references_args st1 rm (dict_update a (default [] (ao !! link_id lk)))
    (dict_set "cb_obj" src_model (dict_set "source" src_model (initial_references lk)))
  = Ok r2 ->
  references_handles st1 rm lk src (Some t) r2 = Ok merged ->
  exists msg,
    emit ao rm (pre ++ (lk, src, Some t) :: post) st = (Raise (ValueError msg), st1).
Proof.
  intros Hpre Hgen Hreq Hcode Hprops Hsrc Hcbs Htag Htgt Hargs Hr2 Hm.
  destruct (init_callback_unresolved_target (default [] (ao !! link_id lk)) rm lk src
              (to_spec (heap st1) (VRef src) path) (Some t)
              (tgt_spec_of (to_spec (heap st1) (VRef t) tpath)) None st1
              src_model cbs a r2 merged) as (msg & Hrun); try done.
  exists msg. rewrite emit_app, Hpre. simpl.
  rewrite bind_lift, Hgen, Hreq. simpl.
  unfold bind at 1. unfold generator__init__, CallbackGenerator.validate.
  rewrite bind_ret, bind_lift. simpl.
  unfold JSLinkCallbackGenerator._get_specs. rewrite Hcode, Hprops. simpl.
  unfold bind at 1. unfold bind at 1. simpl. by rewrite Hrun.
Qed.

Lemma unresolved_target_aborts_pass_witness :
  exists msg,
    emit ∅ root0 ([] ++ (title_link, 1, Some 2) :: [(text_link, 2, Some 1)]) both_registered
    = (Raise (ValueError msg), both_registered).
Proof.
  eapply (unresolved_target_aborts_pass ∅ root0 [] title_link 1 2 [(text_link, 2, Some 1)]
            both_registered [] both_registered "value" "title.text" []
            (VRef 11) [] [] _ _); try reflexivity.
Defined.

(** C5, as stated, fails: with [title_link] and [text_link] registered,
    the pass raises on the first and attaches nothing for the second,
    which would have been emitted had it been alone. *)
Lemma later_triples_not_emitted :
  (exists msg,
     _process_callbacks two_panes (Some root0) both_registered
     = (Raise (ValueError msg), both_registered))
  /\ property_callbacks (heap both_registered) (VRef 12) = Ok []
  /\ exists gens st' cb,
       _process_callbacks two_panes (Some root0) text_registered = (Ok (Some gens), st')
       /\ property_callbacks (heap st') (VRef 12) = Ok [("change:text", [cb])]
       /\ tags cb = [101].
Proof.
  split; [|split].
  - eexists. vm_compute. reflexivity.
  - reflexivity.
  - eexists _, _, _. split; [|split].
    + vm_compute. reflexivity.
    + vm_compute. reflexivity.
    + reflexivity.
Qed.

(** ** Strings with the prefix [target_] *)

Lemma substring_all (s : string) : String.substring 0 (String.length s) s = s.
Proof. induction s as [|c s IH]; simpl; [done|]. by rewrite IH. Qed.

Lemma prefix_append (p s : string) : String.prefix p (p +:+ s) = true.
Proof.
  induction p as [|c p IH]; simpl; [by destruct s|].
  destruct (ascii_dec c c); [done|congruence].
Qed.

Lemma prefix_split (p k : string) :
  String.prefix p k = true ->
  k = p +:+ String.substring (String.length p) (String.length k - String.length p) k.
Proof.
  revert k. induction p as [|c p IH]; intros k; simpl.
  - intros _. by rewrite Nat.sub_0_r, substring_all.
  - destruct k as [|c' k]; simpl; [done|].
    destruct (ascii_dec c c') as [->|]; [|done].
    intros H. exact (f_equal (String c') (IH k H)).
Qed.

Lemma slice_from_append (p s : string) :
  slice_from (String.length p) (p +:+ s) = s.
Proof.
  unfold slice_from. induction p as [|c p IH]; simpl.
  - by rewrite Nat.sub_0_r, substring_all.
  - apply IH.
Qed.

Lemma startswith_target k :
  startswith "target_" k = true -> k = "target_" +:+ slice_from 7 k.
Proof. intros H. by apply (prefix_split "target_" k). Qed.

Lemma slice_target X : slice_from 7 ("target_" +:+ X) = X.
Proof. apply (slice_from_append "target_" X). Qed.

Lemma startswith_target_append X : startswith "target_" ("target_" +:+ X) = true.
Proof. apply prefix_append. Qed.

Lemma target_append_neq X : String.eqb ("target_" +:+ X) "target" = false.
Proof. reflexivity. Qed.

(** The key that [strip] renames to [X] is [target_X]. *)
Lemma renamed_to k X :
  startswith "target_" k = true -> slice_from 7 k = X -> k = "target_" +:+ X.
Proof. intros H <-. by apply startswith_target. Qed.

(** ** Dictionaries: reading after writing *)

Section DictFacts.
Context {V : Type}.
Implicit Types (d : list (string * V)) (k : string) (v : V).

Lemma dict_get_set_eq k v d : dict_get k (dict_set k v d) = Some v.
Proof.
  induction d as [|[k' v'] d IH]; simpl.
  - by rewrite String.eqb_refl.
  - destruct (String.eqb k k') eqn:E; simpl; rewrite E; done.
Qed.

Lemma dict_get_set_ne k k' v d : k <> k' -> dict_get k' (dict_set k v d) = dict_get k' d.
Proof.
  intros Hne. induction d as [|[k0 v0] d IH]; simpl.
  - destruct (String.eqb k' k) eqn:E; [|done]. apply String.eqb_eq in E. congruence.
  - destruct (String.eqb k k0) eqn:E; simpl; [|by rewrite IH].
    apply String.eqb_eq in E. subst k0.
    destruct (String.eqb k' k) eqn:E'; [|done]. apply String.eqb_eq in E'. congruence.
Qed.

Lemma dict_get_remove_ne k k' d : k <> k' -> dict_get k' (dict_remove k d) = dict_get k' d.
Proof.
  intros Hne. induction d as [|[k0 v0] d IH]; simpl; [done|].
  destruct (String.eqb k k0) eqn:E; simpl.
  - apply String.eqb_eq in E. subst k0.
    destruct (String.eqb k' k) eqn:E'; [|done]. apply String.eqb_eq in E'. congruence.
  - by rewrite IH.
Qed.

Lemma dict_get_keys k d : dict_get k d = None <-> ~ In k (map fst d).
Proof.
  induction d as [|[k0 v0] d IH]; simpl; [tauto|].
  destruct (String.eqb k k0) eqn:E.
  - apply String.eqb_eq in E. subst. split; [done|]. intros H. destruct H. by left.
  - apply String.eqb_neq in E. rewrite IH. split; [|tauto].
    intros H [?|?]; [congruence|tauto].
Qed.

Lemma dict_mem_false k d : dict_mem k d = false <-> dict_get k d = None.
Proof. unfold dict_mem. destruct (dict_get k d); split; done. Qed.

Lemma dict_mem_true k d : dict_mem k d = true <-> exists v, dict_get k d = Some v.
Proof.
  unfold dict_mem. destruct (dict_get k d); split; try done; eauto.
  by intros (v & ?).
Qed.

Lemma dict_get_some_keys k v d : dict_get k d = Some v -> In k (map fst d).
Proof.
  intros H. destruct (in_dec string_dec k (map fst d)) as [|Hn]; [done|].
  apply dict_get_keys in Hn. congruence.
Qed.

Lemma dict_set_keys k v d :
  map fst (dict_set k v d)
  = if dict_mem k d then map fst d else map fst d ++ [k].
Proof.
  unfold dict_mem. induction d as [|[k0 v0] d IH]; simpl; [done|].
  destruct (String.eqb k k0) eqn:E; simpl; [done|].
  rewrite IH. by destruct (dict_get k d).
Qed.

Lemma dict_set_nodup k v d : NoDup (map fst d) -> NoDup (map fst (dict_set k v d)).
Proof.
  intros H. rewrite dict_set_keys. destruct (dict_mem k d) eqn:E; [done|].
  apply dict_mem_false, dict_get_keys in E.
  apply NoDup_ListNoDup, List.NoDup_app. apply NoDup_ListNoDup in H.
  repeat split; try done.
  - apply List.NoDup_cons; [by intros []|constructor].
  - intros x Hx [<-|[]]. done.
Qed.

Lemma dict_remove_keys_subset k k' d : In k' (map fst (dict_remove k d)) -> In k' (map fst d).
Proof.
  induction d as [|[k0 v0] d IH]; simpl; [done|].
  destruct (String.eqb k k0); simpl; [tauto|]. intros [?|?]; [by left|right; auto].
Qed.

Lemma dict_remove_nodup k d : NoDup (map fst d) -> NoDup (map fst (dict_remove k d)).
Proof.
  induction d as [|[k0 v0] d IH]; simpl; [done|].
  rewrite !NoDup_cons. intros [Hn Hd].
  destruct (String.eqb k k0); simpl; [done|].
  rewrite NoDup_cons. split; [|by apply IH].
  rewrite list_elem_of_In in *. intros H. apply Hn. by eapply dict_remove_keys_subset.
Qed.

Lemma dict_get_remove_eq k d : NoDup (map fst d) -> dict_get k (dict_remove k d) = None.
Proof.
  induction d as [|[k0 v0] d IH]; simpl; [done|].
  rewrite NoDup_cons. intros [Hn Hd].
  destruct (String.eqb k k0) eqn:E; simpl.
  - apply String.eqb_eq in E. subst. apply dict_get_keys.
    by rewrite <- list_elem_of_In.
  - rewrite E. by apply IH.
Qed.

Lemma dict_update_keys d extra k :
  In k (map fst (dict_update d extra)) <-> In k (map fst d) \/ In k (map fst extra).
Proof.
  unfold dict_update. revert d. induction extra as [|[k0 v0] extra IH]; intros d; simpl.
  - tauto.
  - rewrite IH, dict_set_keys. simpl.
    destruct (dict_mem k0 d) eqn:E.
    + apply dict_mem_true in E as (v & Hv). apply dict_get_some_keys in Hv.
      split; [tauto|]. intros [?|[<-|?]]; tauto.
    + rewrite in_app_iff. simpl. tauto.
Qed.

Lemma dict_update_nodup d extra :
  NoDup (map fst d) -> NoDup (map fst (dict_update d extra)).
Proof.
  unfold dict_update. revert d. induction extra as [|[k0 v0] extra IH]; intros d; simpl.
  - done.
  - intros H. by apply IH, dict_set_nodup.
Qed.

Lemma dict_get_In_nodup k v d : NoDup (map fst d) -> In (k, v) d -> dict_get k d = Some v.
Proof.
  induction d as [|[k0 v0] d IH]; simpl; [done|].
  rewrite NoDup_cons. intros [Hn Hd] [[= -> ->]|Hin].
  - by rewrite String.eqb_refl.
  - destruct (String.eqb k k0) eqn:E; [|by apply IH].
    apply String.eqb_eq in E. subst. destruct Hn.
    apply list_elem_of_In, in_map_iff. by exists (k0, v).
Qed.

End DictFacts.

(** ** The references of an emitted callback *)

Lemma length_append (p s : string) :
  String.length (p +:+ s) = String.length p + String.length s.
Proof.
  induction p as [|c p IH]; [done|].
  change (S (String.length (p +:+ s)) = S (String.length p + String.length s)).
  by rewrite IH.
Qed.

Lemma target_append_self X : "target_" +:+ X <> X.
Proof.
  intros H. apply (f_equal String.length) in H. rewrite length_append in H.
  simpl in H. lia.
Qed.

(** One turn of the loop of [_process_references] either leaves the
    dictionary alone or moves the value of a key [target_X], with [X]
    unbound, to [X]. *)
Lemma strip_cases r k :
  JSLinkCallbackGenerator.strip r k = r
  \/ exists v,
       startswith "target_" k = true
       /\ dict_get (slice_from 7 k) r = None
       /\ dict_get k r = Some v
       /\ JSLinkCallbackGenerator.strip r k
          = dict_set (slice_from 7 k) v (dict_remove k r).
Proof.
  unfold JSLinkCallbackGenerator.strip.
  destruct (String.eqb k "target" || negb (startswith "target_" k)
            || dict_mem (slice_from 7 k) r) eqn:E; [by left|].
  apply orb_false_iff in E as [E1 E3]. apply orb_false_iff in E1 as [_ E2].
  apply negb_false_iff in E2. apply dict_mem_false in E3.
  destruct (dict_get k r) as [v|] eqn:Ek; [|by left].
  right. by exists v.
Qed.

Lemma strip_keeps_present r k k0 v :
  k <> k0 -> dict_get k0 r = Some v ->
  dict_get k0 (JSLinkCallbackGenerator.strip r k) = Some v.
Proof.
  intros Hne Hg. destruct (strip_cases r k) as [->|(vk & Hp & Hs & Hk & ->)]; [done|].
  rewrite dict_get_set_ne, dict_get_remove_ne; [done|done|]. congruence.
Qed.

Lemma strip_keeps_unprefixed r k k0 v :
  startswith "target_" k0 = false -> dict_get k0 r = Some v ->
  dict_get k0 (JSLinkCallbackGenerator.strip r k) = Some v.
Proof.
  intros Hp Hg. destruct (strip_cases r k) as [->|(vk & Hpk & Hs & Hk & E)]; [done|].
  apply strip_keeps_present; [|done]. congruence.
Qed.

Lemma strip_keeps_absent r k k0 :
  k <> "target_" +:+ k0 -> dict_get k0 r = None ->
  dict_get k0 (JSLinkCallbackGenerator.strip r k) = None.
Proof.
  intros Hne Hg. destruct (strip_cases r k) as [->|(vk & Hp & Hs & Hk & ->)]; [done|].
  rewrite dict_get_set_ne, dict_get_remove_ne; [done|congruence|].
  intros Heq. apply Hne. by apply renamed_to.
Qed.

Lemma strip_nodup r k :
  NoDup (map fst r) -> NoDup (map fst (JSLinkCallbackGenerator.strip r k)).
Proof.
  intros H. destruct (strip_cases r k) as [->|(vk & Hp & Hs & Hk & ->)]; [done|].
  by apply dict_set_nodup, dict_remove_nodup.
Qed.

Lemma strips_keep_present ks r k0 v :
  ~ In k0 ks -> dict_get k0 r = Some v ->
  dict_get k0 (fold_left JSLinkCallbackGenerator.strip ks r) = Some v.
Proof.
  revert r. induction ks as [|k ks IH]; intros r Hn Hg; simpl; [done|].
  apply IH; [by intros ?; apply Hn; right|].
  apply strip_keeps_present; [|done]. intros ->. apply Hn. by left.
Qed.

Lemma strips_keep_unprefixed ks r k0 v :
  startswith "target_" k0 = false -> dict_get k0 r = Some v ->
  dict_get k0 (fold_left JSLinkCallbackGenerator.strip ks r) = Some v.
Proof.
  revert r. induction ks as [|k ks IH]; intros r Hp Hg; simpl; [done|].
  apply IH; [done|]. by apply strip_keeps_unprefixed.
Qed.

Lemma strips_keep_absent ks r k0 :
  ~ In ("target_" +:+ k0) ks -> dict_get k0 r = None ->
  dict_get k0 (fold_left JSLinkCallbackGenerator.strip ks r) = None.
Proof.
  revert r. induction ks as [|k ks IH]; intros r Hn Hg; simpl; [done|].
  apply IH; [by intros ?; apply Hn; right|].
  apply strip_keeps_absent; [|done]. intros ->. apply Hn. by left.
Qed.

Lemma strips_nodup ks r :
  NoDup (map fst r) -> NoDup (map fst (fold_left JSLinkCallbackGenerator.strip ks r)).
Proof.
  revert r. induction ks as [|k ks IH]; intros r H; simpl; [done|].
  by apply IH, strip_nodup.
Qed.

(** A collision: [X] and [target_X] are both bound, and [X] is not
    itself a prefixed name. Both bindings go through the loop. *)
Lemma strips_keep_collision ks r X vx vt :
  startswith "target_" X = false ->
  dict_get X r = Some vx -> dict_get ("target_" +:+ X) r = Some vt ->
  dict_get X (fold_left JSLinkCallbackGenerator.strip ks r) = Some vx
  /\ dict_get ("target_" +:+ X) (fold_left JSLinkCallbackGenerator.strip ks r) = Some vt.
Proof.
  intros Hp. revert r. induction ks as [|k ks IH]; intros r HX HtX; simpl; [done|].
  apply IH; [by apply strip_keeps_unprefixed|].
  destruct (string_dec k ("target_" +:+ X)) as [->|Hne].
  - destruct (strip_cases r ("target_" +:+ X)) as [->|(v & _ & Hs & _)]; [done|].
    rewrite slice_target in Hs. congruence.
  - by apply strip_keeps_present.
Qed.

Lemma first_occurrence (x : string) (l : list string) :
  In x l -> exists pre post, l = pre ++ x :: post /\ ~ In x pre.
Proof.
  induction l as [|y l IH]; [done|].
  destruct (string_dec y x) as [->|Hne].
  - intros _. exists [], l. split; [done|]. by intros [].
  - intros [?|Hin]; [done|]. destruct (IH Hin) as (pre & post & -> & Hn).
    exists (y :: pre), post. split; [done|]. intros [?|?]; done.
Qed.

(** A renaming: [target_X] is bound and [X] is not. After the loop over
    the keys of the dictionary [X] has the value; and [target_X] is
    unbound unless [target_target_X] was there to take its place. *)
Lemma strips_rename r X v :
  NoDup (map fst r) ->
  dict_get ("target_" +:+ X) r = Some v -> dict_get X r = None ->
  dict_get X (JSLinkCallbackGenerator._process_references r) = Some v
  /\ (dict_get ("target_target_" +:+ X) r = None ->
      dict_get ("target_" +:+ X) (JSLinkCallbackGenerator._process_references r) = None).
Proof.
  intros Hnd HtX HX. unfold JSLinkCallbackGenerator._process_references.
  destruct (first_occurrence _ _ (dict_get_some_keys _ _ _ HtX))
    as (pre & post & Hks & Hpre).
  assert (HnX : ~ In X (map fst r)) by by apply dict_get_keys.
  rewrite Hks in HnX. rewrite Hks, fold_left_app. simpl.
  set (ra := fold_left JSLinkCallbackGenerator.strip pre r).
  assert (HaT : dict_get ("target_" +:+ X) ra = Some v) by by apply strips_keep_present.
  assert (HaX : dict_get X ra = None) by by apply strips_keep_absent.
  assert (Hand : NoDup (map fst ra)) by by apply strips_nodup.
  assert (Hb : JSLinkCallbackGenerator.strip ra ("target_" +:+ X)
               = dict_set X v (dict_remove ("target_" +:+ X) ra)).
  { unfold JSLinkCallbackGenerator.strip.
    rewrite target_append_neq, startswith_target_append, slice_target. simpl.
    apply dict_mem_false in HaX. by rewrite HaX, HaT. }
  rewrite Hb. split.
  - apply strips_keep_present; [|apply dict_get_set_eq].
    intros Hin. apply HnX, in_app_iff. right. by right.
  - intros Htt. apply strips_keep_absent.
    + intros Hin. apply dict_get_keys in Htt. apply Htt. rewrite Hks.
      apply in_app_iff. right. right. exact Hin.
    + rewrite dict_get_set_ne by (intros Heq; by apply (target_append_self X)).
      by apply dict_get_remove_eq.
Qed.

Lemma references_args_binds st rm items refs refs' :
  NoDup (map fst items) ->
  references_args st rm items refs = Ok refs' ->
  (forall k v, In (k, v) items ->
     exists m, CallbackGenerator._resolve_model st rm v None = Ok m
               /\ dict_get k refs' = arg_binding st v m (dict_get k refs))
  /\ (forall k, ~ In k (map fst items) -> dict_get k refs' = dict_get k refs)
  /\ (NoDup (map fst refs) -> NoDup (map fst refs')).
Proof.
  revert refs. induction items as [|[k0 v0] items IH]; intros refs Hnd; simpl.
  - intros [= <-]. repeat split; done.
  - simpl in Hnd. apply NoDup_cons in Hnd as [Hk0 Hnd].
    rewrite list_elem_of_In in Hk0.
    destruct (CallbackGenerator._resolve_model st rm v0 None) as [m0|e] eqn:Hres;
      simpl; [|done].
    set (refs1 := if negb (is_None m0) then dict_set k0 m0 refs
                  else if negb (isinstance_Parameterized (heap st) v0)
                       then dict_set k0 v0 refs else refs).
    intros Hrun. destruct (IH refs1 Hnd Hrun) as (Hin & Hout & Hnd').
    assert (H0 : dict_get k0 refs1 = arg_binding st v0 m0 (dict_get k0 refs)).
    { unfold refs1, arg_binding.
      destruct (negb (is_None m0)); [apply dict_get_set_eq|].
      destruct (negb (isinstance_Parameterized (heap st) v0)); [apply dict_get_set_eq|done]. }
    assert (Hne : forall k, k <> k0 -> dict_get k refs1 = dict_get k refs).
    { intros k Hk. unfold refs1.
      destruct (negb (is_None m0)); [by apply dict_get_set_ne|].
      destruct (negb (isinstance_Parameterized (heap st) v0));
        [by apply dict_get_set_ne|done]. }
    split; [|split].
    + intros k v [[= -> ->]|Hkv].
      * exists m0. split; [done|]. by rewrite (Hout _ Hk0).
      * destruct (Hin _ _ Hkv) as (m & Hm & Hg). exists m. split; [done|].
        rewrite Hg, Hne; [done|]. intros ->. apply Hk0, in_map_iff. by exists (k0, v).
    + intros k Hk. rewrite Hout by (intros ?; apply Hk; by right).
      apply Hne. intros ->. apply Hk. by left.
    + intros H. apply Hnd'. unfold refs1.
      destruct (negb (is_None m0)); [by apply dict_set_nodup|].
      destruct (negb (isinstance_Parameterized (heap st) v0));
        [by apply dict_set_nodup|done].
Qed.

Lemma merge_handles_keeps h prefix hs refs :
  (forall k v, dict_get k refs = Some v ->
               dict_get k (merge_handles h prefix hs refs) = Some v)
  /\ (NoDup (map fst refs) -> NoDup (map fst (merge_handles h prefix hs refs))).
Proof.
  unfold merge_handles. revert refs.
  induction hs as [|[k0 v0] hs IH]; intros refs; simpl; [done|].
  destruct (isinstance_BkModel h v0 && negb (dict_mem (prefix +:+ k0) refs)) eqn:E;
    [|apply IH].
  apply andb_true_iff in E as [_ E]. apply negb_true_iff, dict_mem_false in E.
  split.
  - intros k v Hg. apply IH. rewrite dict_get_set_ne; [done|]. congruence.
  - intros H. by apply IH, dict_set_nodup.
Qed.

Lemma references_handles_keeps st rm lk source target refs merged :
  references_handles st rm lk source target refs = Ok merged ->
  (forall k v, dict_get k refs = Some v -> dict_get k merged = Some v)
  /\ (NoDup (map fst refs) -> NoDup (map fst merged)).
Proof.
  unfold references_handles. destruct (holoviews_loaded st); [|by intros [= <-]].
  destruct (plot_of st rm (VRef source)) as [src|e]; simpl; [|done].
  destruct (plot_of st rm (value_of target)) as [tgt|e]; simpl; [|done].
  intros [= <-].
  set (r1 := match lookup_obj (heap st) src with
             | Some (OPlot p) => merge_handles (heap st) _ (handles p) refs
             | _ => refs
             end).
  assert (H1 : (forall k v, dict_get k refs = Some v -> dict_get k r1 = Some v)
               /\ (NoDup (map fst refs) -> NoDup (map fst r1))).
  { unfold r1. destruct (lookup_obj (heap st) src) as [[]|]; try done.
    apply merge_handles_keeps. }
  assert (H2 : forall (r2 : list (string * value)),
             r2 = match lookup_obj (heap st) tgt with
                  | Some (OPlot p) => merge_handles (heap st) "target_" (handles p) r1
                  | _ => r1
                  end ->
             (forall k v, dict_get k r1 = Some v -> dict_get k r2 = Some v)
             /\ (NoDup (map fst r1) -> NoDup (map fst r2))).
  { intros r2 ->. destruct (lookup_obj (heap st) tgt) as [[]|]; try done.
    apply merge_handles_keeps. }
  destruct H1 as [K1 N1], (H2 _ eq_refl) as [K2 N2]. split; eauto.
Qed.

Lemma process_references_keeps g merged k v :
  startswith "target_" k = false -> dict_get k merged = Some v ->
  dict_get k (call_process_references g merged) = Some v.
Proof.
  intros Hp Hg. destruct g; simpl; [done|].
  by apply strips_keep_unprefixed.
Qed.

Lemma initial_references_nodup lk : NoDup (map fst (initial_references lk)).
Proof.
  unfold initial_references. destruct (has_target (link_type lk)); simpl.
  - apply NoDup_singleton.
  - apply NoDup_nil_2.
Qed.

(** The callback that [_init_callback] attaches carries the references
    built by the blocks above: when nothing raises, the call is the
    [js_on_change] of a [CustomJS] whose arguments are the processed
    references. *)
Lemma init_callback_emits g ao rm lk source ss target ts code st
    src_model cbs tgt_model a r2 merged st1 c :
  CallbackGenerator._resolve_model st rm (VRef source) (fst ss) = Ok src_model ->
  property_callbacks (heap st) src_model = Ok cbs ->
  tagged (link_id lk) cbs = false ->
  (if _requires_target (link_type lk)
   then CallbackGenerator._resolve_model st rm (value_of target) (fst ts)
   else Ok VNone) = Ok tgt_model ->
  link_args lk = Some a ->
  references_args st rm (dict_update a ao)
    (if _requires_target (link_type lk) && negb (is_None tgt_model)
     then dict_set "target" tgt_model
            (dict_set "cb_obj" src_model (dict_set "source" src_model
               (initial_references lk)))
     else dict_set "cb_obj" src_model (dict_set "source" src_model
            (initial_references lk))) = Ok r2 ->
  references_handles st rm lk source target r2 = Ok merged ->
  call_initialize_models g lk target src_model (snd ss) tgt_model (snd ts) st
  = (Ok tt, st1) ->
  match code with Some c' => Ok c' | None => call_get_code g (snd ss) (snd ts) end = Ok c ->
  _init_callback g ao rm lk source ss target ts code st
  = js_on_change src_model (snd ss)
      {| cjs_args := call_process_references g merged; cjs_code := c;
         tags := [link_id lk] |} st1.
Proof.
  intros Hsrc Hcbs Htag Htgt Hargs Hr2 Hm Hinit Hcode. unfold _init_callback.
  rewrite bind_lift, Hsrc, bind_lift, Hcbs, Htag.
  assert (Ht : forall B (k : value -> M B),
    bind (if _requires_target (link_type lk)
          then lift (fun st => CallbackGenerator._resolve_model st rm
                                 (value_of target) (fst ts))
          else ret VNone) k st = k tgt_model st).
  { intros B k. destruct (_requires_target (link_type lk)).
    - by rewrite bind_lift, Htgt.
    - injection Htgt as <-. done. }
  rewrite Ht, bind_lift, Hargs, Hr2, bind_lift, Hm.
  unfold bind at 1. rewrite Hinit.
  assert (Hc : forall B (k : string -> M B),
    bind (match code with
          | Some c' => ret c'
          | None => lift (fun _ => call_get_code g (snd ss) (snd ts))
          end) k st1 = k c st1).
  { intros B k. destruct code as [c'|].
    - injection Hcode as <-. done.
    - by rewrite bind_lift, Hcode. }
  rewrite Hc. simpl. unfold bind, ret.
  by destruct (js_on_change _ _ _ st1) as [[[]|e] st2].
Qed.

(** C7, as the code has it. The references start from [source] and
    [cb_obj], bound to the source model, and [target], bound to the
    target model when the link requires one and it resolved. Every entry
    of [args] updated with the overrides then binds its name to the
    model its value resolves to, or to the value itself when there is no
    model and the value is not [Parameterized] (such a value adds
    nothing); so an argument named [source], [cb_obj] or [target]
    replaces the first bindings, which are otherwise kept to the end, as
    is every binding whose name does not start with [target_]. After the
    handles are merged, the property-link generator gives the value of
    each [target_X] to [X] when [X] is unbound, and [target_X] is then
    unbound unless [target_target_X] takes its place; when [X] is bound
    (and is not itself prefixed) both [X] and [target_X] keep their
    values. *)
Theorem references_of_emitted_callback g ao rm lk source target src_model tgt_model
    st a r2 merged :
  let r1 := if _requires_target (link_type lk) && negb (is_None tgt_model)
            then dict_set "target" tgt_model
                   (dict_set "cb_obj" src_model (dict_set "source" src_model
                      (initial_references lk)))
            else dict_set "cb_obj" src_model (dict_set "source" src_model
                   (initial_references lk)) in
  let refs := call_process_references g merged in
  link_args lk = Some a ->
  NoDup (map fst a) ->
  references_args st rm (dict_update a ao) r1 = Ok r2 ->
  references_handles st rm lk source target r2 = Ok merged ->
  (forall k, k = "source" \/ k = "cb_obj" ->
             ~ In k (map fst (dict_update a ao)) ->
             dict_get k refs = Some src_model)
  /\ (_requires_target (link_type lk) = true -> is_None tgt_model = false ->
      ~ In "target" (map fst (dict_update a ao)) ->
      dict_get "target" refs = Some tgt_model)
  /\ (forall k, In k (map fst (dict_update a ao)) <-> In k (map fst a) \/ In k (map fst ao))
  /\ (forall k v, In (k, v) (dict_update a ao) ->
        exists m, CallbackGenerator._resolve_model st rm v None = Ok m
                  /\ dict_get k r2 = arg_binding st v m (dict_get k r1)
                  /\ (startswith "target_" k = false ->
                      forall x, dict_get k r2 = Some x -> dict_get k refs = Some x))
  /\ (g = cls_JSCallbackGenerator -> refs = merged)
  /\ (g = cls_JSLinkCallbackGenerator ->
      forall X v, dict_get ("target_" +:+ X) merged = Some v ->
        (dict_get X merged = None ->
         dict_get X refs = Some v
         /\ (dict_get ("target_target_" +:+ X) merged = None ->
             dict_get ("target_" +:+ X) refs = None))
        /\ (forall vx, dict_get X merged = Some vx -> startswith "target_" X = false ->
              dict_get X refs = Some vx /\ dict_get ("target_" +:+ X) refs = Some v)).
Proof.
  intros r1 refs Hargs Hnd Hr2 Hm.
  pose proof (dict_update_nodup a ao Hnd) as Hnd'.
  destruct (references_args_binds _ _ _ _ _ Hnd' Hr2) as (Hin & Hout & Hnd2).
  destruct (references_handles_keeps _ _ _ _ _ _ _ Hm) as (Hkeep & Hndm).
  assert (Hnd1 : NoDup (map fst r1)).
  { unfold r1. destruct (_ && _); repeat apply dict_set_nodup;
      apply initial_references_nodup. }
  assert (Hfinal : forall k x, startswith "target_" k = false ->
                               dict_get k r2 = Some x -> dict_get k refs = Some x).
  { intros k x Hp Hg. by apply process_references_keeps, Hkeep. }
  assert (Hsrc : dict_get "source" r1 = Some src_model
                 /\ dict_get "cb_obj" r1 = Some src_model).
  { unfold r1. destruct (_ && _).
    - rewrite !(dict_get_set_ne "target") by done.
      rewrite dict_get_set_eq, (dict_get_set_ne "cb_obj") by done.
      by rewrite dict_get_set_eq.
    - rewrite dict_get_set_eq, (dict_get_set_ne "cb_obj") by done.
      by rewrite dict_get_set_eq. }
  split; [|split; [|split; [|split; [|split]]]].
  - intros k Hk Hn. apply Hfinal; [by destruct Hk as [->| ->]|].
    rewrite (Hout _ Hn). by destruct Hk as [->| ->]; apply Hsrc.
  - intros Hreq Hnone Hn. apply Hfinal; [done|]. rewrite (Hout _ Hn).
    unfold r1. rewrite Hreq, Hnone. simpl. apply dict_get_set_eq.
  - apply dict_update_keys.
  - intros k v Hkv. destruct (Hin _ _ Hkv) as (m & Hres & Hg).
    exists m. split; [done|]. split; [done|]. intros Hp x. by apply Hfinal.
  - by intros ->.
  - intros -> X v HtX. split.
    + intros HX. by apply strips_rename; [apply Hndm, Hnd2|..].
    + intros vx HX Hp. by apply strips_keep_collision.
Qed.

Lemma references_of_emitted_callback_witness :
  exists refs,
    refs = call_process_references cls_JSLinkCallbackGenerator
             [("properties", VDict [("value", "text")]); ("source", VInt 7);
              ("cb_obj", VRef 11); ("target", VRef 12); ("x", VInt 5);
              ("target_x", VRef 13)]
    /\ dict_get "cb_obj" refs = Some (VRef 11)
    /\ dict_get "x" refs = Some (VInt 5)
    /\ dict_get "target_x" refs = Some (VRef 13).
Proof.
  destruct (references_of_emitted_callback cls_JSLinkCallbackGenerator [] root0_handles
              args_link 1 (Some 2) (VRef 11) (VRef 12) args_registered
              [("x", VInt 5); ("source", VInt 7); ("p", VRef 30)]
              [("properties", VDict [("value", "text")]); ("source", VInt 7);
               ("cb_obj", VRef 11); ("target", VRef 12); ("x", VInt 5)]
              [("properties", VDict [("value", "text")]); ("source", VInt 7);
               ("cb_obj", VRef 11); ("target", VRef 12); ("x", VInt 5);
               ("target_x", VRef 13)])
    as (Hsrc & _ & _ & _ & _ & Hstrip).
  - reflexivity.
  - apply (bool_decide_unpack _). vm_compute. reflexivity.
  - vm_compute. reflexivity.
  - vm_compute. reflexivity.
  - destruct (Hstrip eq_refl "x" (VRef 13) eq_refl) as [_ Hcol].
    destruct (Hcol (VInt 5) eq_refl eq_refl) as [Hx Htx].
    eexists. split; [reflexivity|]. split; [|split].
    + apply Hsrc; [by right|]. vm_compute. intuition discriminate.
    + exact Hx.
    + exact Htx.
Defined.

(** C7, as stated, fails. The callback emitted for [args_link] has
    [target_x] next to [x] (the prefixed entry of a collision is kept),
    has [source] bound to the argument of that name and not to the
    source model, and has no entry for the argument [p]. *)
Lemma prefixed_reference_kept_on_collision :
  exists gens st' cb,
    _process_callbacks two_panes (Some root0_handles) args_registered
    = (Ok (Some gens), st')
    /\ property_callbacks (heap st') (VRef 11) = Ok [("change:value", [cb])]
    /\ dict_get "x" (cjs_args cb) = Some (VInt 5)
    /\ dict_get "target_x" (cjs_args cb) = Some (VRef 13)
    /\ CallbackGenerator._resolve_model args_registered root0_handles (VRef 1) None
       = Ok (VRef 11)
    /\ dict_get "source" (cjs_args cb) = Some (VInt 7)
    /\ In "p" (map fst [("x", VInt 5); ("source", VInt 7); ("p", VRef 30)])
    /\ dict_get "p" (cjs_args cb) = None.
Proof.
  eexists _, _, _. split; [vm_compute; reflexivity|].
  split; [vm_compute; reflexivity|].
  repeat split; try reflexivity. simpl. tauto.
Qed.

(** ** Running the pass a second time *)

Lemma split_dot_plain s : has_dot s = false -> split_dot s = [s].
Proof.
  induction s as [|c s IH]; simpl; [done|].
  intros H. apply orb_false_iff in H as [Hc Hs]. rewrite Hc, (IH Hs). done.
Qed.

Lemma to_spec_plain h obj path : has_dot path = false -> fst (to_spec h obj path) = None.
Proof. intros H. unfold to_spec. by rewrite (split_dot_plain _ H). Qed.

Lemma fold_left_rebinds_In {A B} (f : A -> B) (items : list A) (init : option B) x :
  fold_left (fun _ kv => Some (f kv)) items init = Some x ->
  init = Some x \/ exists kv, In kv items /\ x = f kv.
Proof.
  revert init. induction items as [|kv items IH]; intros init; simpl; [by left|].
  intros H. destruct (IH _ H) as [[= <-]|(kv' & Hin & ->)]; right; eauto.
Qed.

Lemma specs_plain g st lk source target specs :
  plain_sources lk = true ->
  call_get_specs g st lk source target = Ok specs ->
  forall s, In s specs -> fst (fst (fst s)) = None.
Proof.
  unfold plain_sources. intros Hp. apply andb_true_iff in Hp as [Hc Hprops].
  rewrite forallb_forall in Hc, Hprops.
  assert (Hjs : JSCallbackGenerator._get_specs st lk source target = Ok specs ->
                forall s, In s specs -> fst (fst (fst s)) = None).
  { unfold JSCallbackGenerator._get_specs.
    destruct (link_code lk) as [items|]; [|done]. simpl in Hc.
    destruct (fold_left _ items None) as [[src_spec code]|] eqn:E; [|done].
    intros [= <-] s [<-|[]]. simpl.
    apply (fold_left_rebinds_In
             (fun kv => (to_spec (heap st) (VRef source) (fst kv), snd kv))) in E
      as [?|(kv & Hin & [= -> _])]; [done|].
    apply to_spec_plain. specialize (Hc _ Hin). by apply negb_true_iff in Hc. }
  destruct g; simpl; [done|].
  unfold JSLinkCallbackGenerator._get_specs.
  destruct (JSLinkCallbackGenerator.code_given lk); [done|].
  intros [= <-] s Hin. apply in_map_iff in Hin as (kv & <- & Hin). simpl.
  apply to_spec_plain. specialize (Hprops _ Hin). by apply negb_true_iff in Hprops.
Qed.

(** *** What does not depend on the changes of a pass *)

Lemma extends_lookup_obj st st' v :
  extends st st' ->
  match lookup_obj (heap st) v with
  | Some (OModel _) => exists m', lookup_obj (heap st') v = Some (OModel m')
  | o => lookup_obj (heap st') v = o
  end.
Proof.
  intros [_ _ _ Ho Hf]. destruct v as [| | | |a]; simpl; try done.
  destruct (heap st !! a) as [o|] eqn:E.
  - destruct (Ho _ _ E) as (o' & -> & Hle).
    destruct o; simpl in Hle; try (by rewrite Hle).
    destruct Hle as (m' & -> & _). eauto.
  - by apply Hf.
Qed.

(** A source without a path prefix resolves to the same model. *)
Lemma resolve_source_stable st st' rm a :
  extends st st' ->
  CallbackGenerator._resolve_model st' rm (VRef a) None
  = CallbackGenerator._resolve_model st rm (VRef a) None.
Proof.
  intros Hext. pose proof (extends_lookup_obj _ _ (VRef a) Hext) as H.
  unfold CallbackGenerator._resolve_model. rewrite (ext_holoviews _ _ Hext).
  destruct (lookup_obj (heap st) (VRef a)) as [[]|]; try (by rewrite H).
  by destruct H as (m' & ->).
Qed.

Lemma renamed_stable st st' obj prop :
  extends st st' -> renamed (heap st') obj prop = renamed (heap st) obj prop.
Proof.
  intros Hext. pose proof (extends_lookup_obj _ _ obj Hext) as H. unfold renamed.
  destruct (lookup_obj (heap st) obj) as [[]|]; try (by rewrite H).
  by destruct H as (m' & ->).
Qed.

Lemma to_spec_stable st st' obj path :
  extends st st' -> to_spec (heap st') obj path = to_spec (heap st) obj path.
Proof. intros Hext. unfold to_spec. by rewrite (renamed_stable _ _ _ _ Hext). Qed.

Lemma get_specs_stable g st st' lk source target :
  extends st st' ->
  call_get_specs g st' lk source target = call_get_specs g st lk source target.
Proof.
  intros Hext.
  assert (Hjs : JSCallbackGenerator._get_specs st' lk source target
                = JSCallbackGenerator._get_specs st lk source target).
  { unfold JSCallbackGenerator._get_specs. destruct (link_code lk) as [items|]; [|done].
    f_equal. assert (Hf : forall init,
      fold_left (fun _ kv => Some (to_spec (heap st') (VRef source) (fst kv), snd kv))
                items init
      = fold_left (fun _ kv => Some (to_spec (heap st) (VRef source) (fst kv), snd kv))
                  items init).
    { induction items as [|kv items IH]; intros init; simpl; [done|].
      by rewrite (to_spec_stable _ _ _ _ Hext), IH. }
    by rewrite Hf. }
  destruct g; simpl; [done|]. unfold JSLinkCallbackGenerator._get_specs.
  destruct (JSLinkCallbackGenerator.code_given lk); [done|].
  f_equal. apply map_ext. intros kv. by rewrite !(to_spec_stable _ _ _ _ Hext).
Qed.

(** *** The outcome of [_init_callback] *)

Lemma truthy_not_None v : truthy v = true -> is_None v = false.
Proof. by destruct v. Qed.

Lemma setattr_raises model nm v st e st' :
  setattr model nm v st = (Raise e, st') -> st' = st.
Proof.
  unfold setattr. destruct model as [| | | |a]; try (by intros [= _ <-]).
  destruct (heap st !! a) as [[| m | | |]|]; try (by intros [= _ <-]).
  destruct (dict_mem nm (attrs m)); [|by intros [= _ <-]].
  destruct (prop_error m nm v); [by intros [= _ <-]|done].
Qed.

(** [_initialize_models] changes nothing when it raises, and the default
    of the base class changes nothing at all. *)
Lemma initialize_models_outcome g lk target src_model src_spec tgt_model tgt_spec
    st r st1 :
  call_initialize_models g lk target src_model src_spec tgt_model tgt_spec st = (r, st1) ->
  match r with
  | Raise _ => st1 = st
  | Ok _ => g = cls_JSCallbackGenerator -> st1 = st
  end.
Proof.
  destruct g; simpl.
  - by intros [= <- <-].
  - unfold JSLinkCallbackGenerator._initialize_models.
    destruct (truthy tgt_model && negb (String.eqb src_spec "")
              && JSLinkCallbackGenerator.truthy_opt tgt_spec) eqn:Hc.
    + apply andb_true_iff in Hc as [Hc _]. apply andb_true_iff in Hc as [Hc _].
      rewrite (truthy_not_None _ Hc). simpl.
      rewrite bind_assoc, bind_lift.
      destruct (getattr (heap st) src_model src_spec) as [v|e]; [|by intros [= <- <-]].
      unfold bind, ret.
      destruct (setattr tgt_model (str_opt tgt_spec) v st) as [[[]|e] st2] eqn:Hs.
      * by intros [= <- <-].
      * intros [= <- <-]. by eapply setattr_raises.
    + rewrite bind_ret.
      destruct (is_None tgt_model && negb (JSLinkCallbackGenerator.code_given lk)).
      * rewrite bind_gets. by intros [= <- <-].
      * by intros [= <- <-].
Qed.

Lemma property_callbacks_inv h v cbs :
  property_callbacks h v = Ok cbs ->
  exists a m, v = VRef a /\ h !! a = Some (OModel m) /\ cbs = js_property_callbacks m.
Proof.
  unfold property_callbacks, lookup_obj. destruct v as [| | | |a]; try done.
  destruct (h !! a) as [[| m | | |]|] eqn:E; try done. intros [= <-]. by exists a, m.
Qed.

(** Attaching a callback to a model succeeds and leaves the model
    tagged with the tags of the callback. *)
Lemma js_on_change_outcome a m ev cb st :
  heap st !! a = Some (OModel m) ->
  exists st' m',
    js_on_change (VRef a) ev cb st = (Ok tt, st')
    /\ heap st' !! a = Some (OModel m')
    /\ forall id, In id (tags cb) -> tagged id (js_property_callbacks m') = true.
Proof.
  intros Ha. unfold js_on_change. rewrite Ha. eexists _, _. split; [done|].
  simpl. rewrite lookup_insert_eq. split; [done|].
  intros id Hid. simpl. rewrite tagged_append. apply orb_true_iff. right.
  apply existsb_exists. exists id. split; [done|apply Nat.eqb_refl].
Qed.

(** A run of [_init_callback] that raises has changed nothing; a run
    that returns leaves the source model it resolved tagged with the
    identity of the link. *)
Lemma init_callback_outcome g ao rm lk source ss target ts code st r st' :
  _init_callback g ao rm lk source ss target ts code st = (r, st') ->
  match r with
  | Raise _ => st' = st
  | Ok _ =>
      exists a m',
        CallbackGenerator._resolve_model st rm (VRef source) (fst ss) = Ok (VRef a)
        /\ heap st' !! a = Some (OModel m')
        /\ tagged (link_id lk) (js_property_callbacks m') = true
  end.
Proof.
  unfold _init_callback. rewrite bind_lift.
  destruct (CallbackGenerator._resolve_model st rm (VRef source) (fst ss))
    as [src_model|e] eqn:Hsrc; [|by intros [= <- <-]].
  rewrite bind_lift.
  destruct (property_callbacks (heap st) src_model) as [cbs|e] eqn:Hcbs;
    [|by intros [= <- <-]].
  apply property_callbacks_inv in Hcbs as (a & m & -> & Ha & ->).
  destruct (tagged (link_id lk) (js_property_callbacks m)) eqn:Htag.
  { intros [= <- <-]. eauto. }
  set (tgt := if _requires_target (link_type lk) then _ else _).
  assert (Htgt : exists rt, tgt st = (rt, st)).
  { unfold tgt. destruct (_requires_target (link_type lk)); eexists; reflexivity. }
  destruct Htgt as (rt & Htgt). unfold bind at 1. rewrite Htgt.
  destruct rt as [tgt_model|e]; [|by intros [= <- <-]].
  rewrite bind_lift.
  match goal with |- context [match ?x with Ok _ => _ | Raise _ => _ end] =>
    destruct x as [refs1|e]; [|by intros [= <- <-]] end.
  rewrite bind_lift.
  destruct (references_handles st rm lk source target refs1) as [merged|e];
    [|by intros [= <- <-]].
  intros Hrun. apply bind_inv in Hrun as [([] & st1 & Hinit & Hrun)|(e & Hinit & ->)];
    [|by apply initialize_models_outcome in Hinit].
  pose proof (monotone_initialize_models _ _ _ _ _ _ _ _ _ _ Hinit) as Hext.
  apply initialize_models_outcome in Hinit.
  destruct (ext_objects _ _ Hext _ _ Ha) as (o1 & Ha1 & (m1 & -> & _)).
  set (getc := match code with Some c => _ | None => _ end) in Hrun.
  assert (Hcode : (exists c, getc st1 = (Ok c, st1))
                  \/ (exists e, getc st1 = (Raise e, st1) /\ g = cls_JSCallbackGenerator)).
  { unfold getc. destruct code as [c|]; [left; by exists c|].
    unfold lift. destruct g; simpl; [right|left]; eauto. }
  unfold bind at 1 in Hrun.
  destruct Hcode as [(c & Hc)|(e & Hc & Hg)]; rewrite Hc in Hrun.
  - simpl in Hrun.
    match type of Hrun with context [js_on_change _ ?ev ?cb] =>
      destruct (js_on_change_outcome a m1 ev cb st1 Ha1) as (st2 & m2 & Hjs & Ha2 & Htags)
    end.
    unfold bind, ret in Hrun. rewrite Hjs in Hrun. injection Hrun as <- <-.
    exists a, m2. split; [done|]. split; [done|]. apply Htags. by left.
  - injection Hrun as <- <-. by apply Hinit.
Qed.

(** With a source path that has no prefix, a run of [_init_callback]
    that has returned makes every later run for the link return at the
    guard, whatever overrides it is given: the source model carries the
    tag of the link. *)
Lemma init_callback_quiet g ao ao' rm lk source leaf target ts code st st' :
  _init_callback g ao rm lk source (None, leaf) target ts code st = (Ok tt, st') ->
  forall st'', extends st' st'' ->
    _init_callback g ao' rm lk source (None, leaf) target ts code st'' = (Ok tt, st'').
Proof.
  intros Hrun st'' Hext'.
  pose proof (monotone_init_callback _ _ _ _ _ _ _ _ _ _ _ _ Hrun) as Hext.
  pose proof (init_callback_outcome _ _ _ _ _ _ _ _ _ _ _ _ Hrun) as Hout.
  destruct Hout as (a & m' & Hsrc & Ha & Htag). simpl in Hsrc.
  unfold _init_callback. rewrite bind_lift. simpl.
  rewrite (resolve_source_stable st st'') by (by eapply extends_trans).
  rewrite Hsrc, bind_lift.
  destruct (ext_objects _ _ Hext' _ _ Ha) as (o & Ha'' & (m'' & -> & Hle)).
  unfold property_callbacks. simpl. rewrite Ha''.
  by rewrite (Hle _ Htag).
Qed.

Lemma init_callbacks_quiet g ao ao' rm lk source target specs : forall st st',
  Forall (fun s : src_spec_t * tgt_spec_t * option string => fst (fst (fst s)) = None)
         specs ->
  for_each specs (fun s => _init_callback g ao rm lk source (fst (fst s))
                                          target (snd (fst s)) (snd s)) st
  = (Ok tt, st') ->
  forall st'', extends st' st'' ->
    for_each specs (fun s => _init_callback g ao' rm lk source (fst (fst s))
                                            target (snd (fst s)) (snd s)) st''
    = (Ok tt, st'').
Proof.
  induction specs as [|[[[prefix leaf] ts] code] specs IH]; intros st st' Hp; simpl.
  - done.
  - apply Forall_cons in Hp as [Hnone Hp]. simpl in Hnone. subst prefix.
    intros Hrun st'' Hext.
    apply bind_inv in Hrun as [([] & sta & Hhead & Hrest)|(e & _ & [=])].
    assert (Hra : extends sta st').
    { eapply (monotone_for_each specs); [|exact Hrest].
      intros s. apply monotone_init_callback. }
    unfold bind.
    rewrite (init_callback_quiet _ _ ao' _ _ _ _ _ _ _ _ _ Hhead st'')
      by (by eapply extends_trans).
    by eapply IH.
Qed.

(** With plain source paths, a generator that has been built for a link
    is built again, in any later state and with any overrides, without
    attaching anything. *)
Lemma generator_init_quiet g rm lk source target ao ao' st inst st' :
  plain_sources lk = true ->
  generator__init__ g rm lk source target ao st = (Ok inst, st') ->
  forall st'', extends st' st'' ->
    exists inst', generator__init__ g rm lk source target ao' st'' = (Ok inst', st'').
Proof.
  intros Hp Hrun st'' Hext.
  pose proof (monotone_generator_init _ _ _ _ _ _ _ _ _ Hrun) as Hmono.
  unfold generator__init__, CallbackGenerator.validate in *.
  rewrite bind_ret, bind_lift in Hrun. rewrite bind_ret, bind_lift.
  rewrite (get_specs_stable g st st'') by (by eapply extends_trans).
  destruct (call_get_specs g st lk source target) as [specs|e] eqn:Hspecs; [|done].
  apply bind_inv in Hrun as [([] & sta & Hloop & [= _ <-])|(e & _ & [=])].
  unfold bind.
  erewrite init_callbacks_quiet; [by eexists| |exact Hloop|exact Hext].
  apply List.Forall_forall. intros s Hin.
  by apply (specs_plain _ _ _ _ _ _ Hp Hspecs).
Qed.

(** After an emission loop that has returned, each of its triples is
    passed again without effect. *)
Lemma emit_quiet ao rm found : forall st gens st',
  Forall (fun t : triple => plain_sources (fst (fst t)) = true) found ->
  emit ao rm found st = (Ok gens, st') ->
  forall t, In t found ->
  forall ao' st'', extends st' st'' ->
    exists gs, emit ao' rm [t] st'' = (Ok gs, st'').
Proof.
  induction found as [|[[lk src] tgt] rest IH]; intros st gens st' Hp Hrun t Hin;
    [by destruct Hin|].
  apply Forall_cons in Hp as [Hlk Hrest]. simpl in Hlk.
  simpl in Hrun. rewrite bind_lift in Hrun.
  destruct (callbacks_get (link_type lk) (_callbacks st)) as [g|] eqn:Hg; [|done].
  destruct (_requires_target (link_type lk) && negb (bool_decide (is_Some tgt))) eqn:Hskip.
  - destruct Hin as [<-|Hin]; [|by eapply IH].
    intros ao' st'' Hext. simpl. rewrite bind_lift.
    pose proof (monotone_emit _ _ _ _ _ _ Hrun) as Hmono.
    rewrite (ext_callbacks _ _ Hext), (ext_callbacks _ _ Hmono), Hg, Hskip.
    by eexists.
  - apply bind_inv in Hrun as [(inst & sta & Hinit & Hrun)|(e & _ & [=])].
    apply bind_inv in Hrun as [(more & stb & Hemit & [= _ <-])|(e & _ & [=])].
    pose proof (monotone_generator_init _ _ _ _ _ _ _ _ _ Hinit) as Hm1.
    pose proof (monotone_emit _ _ _ _ _ _ Hemit) as Hm2.
    destruct Hin as [<-|Hin]; [|by eapply IH].
    intros ao' st'' Hext. simpl. rewrite bind_lift.
    rewrite (ext_callbacks _ _ Hext), (ext_callbacks _ _ Hm2), (ext_callbacks _ _ Hm1),
      Hg, Hskip.
    destruct (generator_init_quiet g rm lk src tgt _ (default [] (ao' !! link_id lk))
                _ _ _ Hlk Hinit st'') as (inst' & Hagain).
    { by eapply extends_trans. }
    unfold bind. rewrite Hagain. simpl. by eexists.
Qed.

Lemma emit_each_quiet ao rm found st :
  (forall t, In t found -> exists gs, emit ao rm [t] st = (Ok gs, st)) ->
  exists gs, emit ao rm found st = (Ok gs, st).
Proof.
  induction found as [|t rest IH]; intros Hq.
  - by eexists.
  - destruct (Hq t) as (gs & Hhead); [by left|].
    destruct IH as (more & Hrest); [by intros t' Ht'; apply Hq; right|].
    change (t :: rest) with ([t] ++ rest). rewrite emit_app, Hhead, Hrest. by eexists.
Qed.

(** The links of the triples come from the registry. *)
Lemma found_of_from_registry (P : link -> Prop) reg linkable srcs found :
  (forall src lk, In lk (registry_get reg src) -> P lk) ->
  found_of reg linkable srcs = Ok found ->
  Forall (fun t : triple => P (fst (fst t))) found.
Proof.
  intros HP. rewrite found_of_eq. intros [= <-].
  apply List.Forall_forall. intros [[lk src] tgt] Hin.
  apply in_flat_map in Hin as (s & _ & Hin).
  apply in_map_iff in Hin as (lk' & [= -> _ _] & Hin).
  apply filter_In in Hin as [Hin _]. simpl. by eapply HP.
Qed.

Lemma expand_links_from (P : link -> Prop) m src links acc acc' :
  (forall lk, In lk links -> P lk) ->
  Forall (fun t : triple => P (fst (fst t))) (fst acc) ->
  expand_links m src links acc = Ok acc' ->
  Forall (fun t : triple => P (fst (fst t))) (fst acc').
Proof.
  revert acc. induction links as [|lk rest IH]; intros acc HP Hacc; simpl.
  - by intros [= <-].
  - destruct (expand_link m src lk acc) as [acc1|e] eqn:E; simpl; [|done].
    apply IH; [by intros; apply HP; right|].
    unfold expand_link in E.
    destruct (has_target (link_type lk)); simpl in E.
    + destruct (map_get m (value_of (_target lk))) as [tgts|e]; simpl in E; [|done].
      destruct (link_args lk); [|done].
      destruct (override_args _ _ _ _); simpl in E; [|done].
      injection E as <-. simpl.
      apply Forall_app. split; [done|].
      apply List.Forall_forall. intros t Hin. apply in_map_iff in Hin as (x & <- & _).
      simpl. apply HP. by left.
    + destruct (link_args lk); [|done].
      destruct (override_args _ _ _ _); simpl in E; [|done].
      by injection E as <-.
Qed.

Lemma expand_from_registry (P : link -> Prop) reg m srcs acc acc' :
  (forall src lk, In lk (registry_get reg src) -> P lk) ->
  Forall (fun t : triple => P (fst (fst t))) (fst acc) ->
  expand reg m srcs acc = Ok acc' ->
  Forall (fun t : triple => P (fst (fst t))) (fst acc').
Proof.
  intros HP. revert acc. induction srcs as [|src rest IH]; intros acc Hacc; simpl.
  - by intros [= <-].
  - destruct (expand_links m src (registry_get reg src) acc) as [acc1|e] eqn:E;
      simpl; [|done].
    apply IH. eapply expand_links_from; [|done..]. intros lk. apply HP.
Qed.

(** The pass is the selection of its triples, on the models the root
    selects in the state in which the pass starts, and then the emission
    loop. *)
Lemma process_callbacks_selection root_view rm st :
  _process_callbacks root_view (Some rm) st
  = match select_Viewable root_view ++ select_BkModel rm (heap st) with
    | [] => (Ok None, st)
    | _ :: _ =>
        match selection root_view rm st with
        | Ok fa => (callbacks <- emit (snd fa) rm (fst fa) ;; ret (Some callbacks)) st
        | Raise e => (Raise e, st)
        end
    end.
Proof.
  unfold _process_callbacks, selection. rewrite bind_gets.
  destruct (_ ++ _) as [|x xs] eqn:El; [done|]. rewrite <- El.
  rewrite bind_lift.
  destruct (found_of (registry st) _ _) as [found|e]; [|done]. simpl.
  rewrite bind_gets. destruct (holoviews_loaded st).
  - by rewrite bind_lift.
  - by rewrite bind_ret.
Qed.

Lemma selection_plain root_view rm st fa :
  (forall src lk, In lk (registry_get (registry st) src) -> plain_sources lk = true) ->
  selection root_view rm st = Ok fa ->
  Forall (fun t : triple => plain_sources (fst (fst t)) = true) (fst fa).
Proof.
  intros Hplain. unfold selection.
  destruct (found_of (registry st) _ _) as [found|e] eqn:Hfound; [|done]. simpl.
  pose proof (found_of_from_registry _ _ _ _ _ Hplain Hfound) as Hfp.
  destruct (holoviews_loaded st).
  - intros Hexp. by apply (expand_from_registry _ _ _ _ (found, ∅) _ Hplain Hfp Hexp).
  - by intros [= <-].
Qed.

(** C3, as the code has it. When the source paths of the registered
    declarations are plain property names and a pass has returned, every
    triple that pass selected is passed over without effect in the state
    it left, whatever the overrides: the guard finds the tag of the link
    on the source model. Hence a second pass on that state, with the same
    root view and root model and the registry untouched, attaches no
    listener if it selects no triple that the first pass did not select:
    it leaves the state as it is, and it returns unless its own selection
    raises. The second pass selects on the models the root has then, and
    these include the models that the callbacks of the first pass refer
    to. *)
Theorem second_pass_attaches_nothing root_view rm st gens st1 :
  (forall src lk, In lk (registry_get (registry st) src) -> plain_sources lk = true) ->
  _process_callbacks root_view (Some rm) st = (Ok gens, st1) ->
  (forall t overrides,
     In t (selected_triples root_view rm st) ->
     exists gs, emit overrides rm [t] st1 = (Ok gs, st1))
  /\ ((forall t, In t (selected_triples root_view rm st1) ->
                 In t (selected_triples root_view rm st)) ->
      exists r,
        _process_callbacks root_view (Some rm) st1 = (r, st1)
        /\ (forall fa, selection root_view rm st1 = Ok fa -> exists gens2, r = Ok gens2)).
Proof.
  intros Hplain Hpass.
  assert (Hquiet : forall t overrides,
            In t (selected_triples root_view rm st) ->
            exists gs, emit overrides rm [t] st1 = (Ok gs, st1)).
  { intros t overrides. unfold selected_triples.
    rewrite process_callbacks_selection in Hpass.
    destruct (select_Viewable root_view ++ select_BkModel rm (heap st)) as [|x xs] eqn:El.
    { unfold selection. rewrite El. simpl. by destruct (holoviews_loaded st). }
    destruct (selection root_view rm st) as [[found1 ao1]|e1] eqn:Hsel1; [|done].
    simpl in *. intros Ht.
    apply bind_inv in Hpass as [(gs1 & sta & Hemit & [= _ <-])|(e & _ & [=])].
    eapply (emit_quiet ao1 rm found1); [|exact Hemit|exact Ht|apply extends_refl].
    by apply (selection_plain _ _ _ _ Hplain Hsel1). }
  split; [exact Hquiet|]. intros Hsub.
  rewrite process_callbacks_selection.
  destruct (select_Viewable root_view ++ select_BkModel rm (heap st1)) as [|y ys];
    [by eexists; split; [done|eauto]|].
  unfold selected_triples in Hsub at 1.
  destruct (selection root_view rm st1) as [[found2 ao2]|e2] eqn:Hsel2;
    [|by eexists; split; [done|]].
  simpl in *.
  destruct (emit_each_quiet ao2 rm found2 st1) as (gs2 & Hemit2).
  { intros t Ht. by apply Hquiet, Hsub. }
  eexists. split.
  - unfold bind. rewrite Hemit2. reflexivity.
  - eauto.
Qed.

Lemma second_pass_attaches_nothing_witness :
  ~ In 14 (select_BkModel root0 (heap noted_registered))
  /\ In 14 (select_BkModel root0
              (heap (snd (_process_callbacks two_panes (Some root0) noted_registered))))
  /\ exists gens2,
       _process_callbacks two_panes (Some root0)
         (snd (_process_callbacks two_panes (Some root0) noted_registered))
       = (Ok gens2, snd (_process_callbacks two_panes (Some root0) noted_registered)).
Proof.
  split; [vm_compute; intuition discriminate|]. split; [vm_compute; tauto|].
  assert (Hpass : exists gens,
            _process_callbacks two_panes (Some root0) noted_registered
            = (Ok gens, snd (_process_callbacks two_panes (Some root0) noted_registered))).
  { eexists. vm_compute. reflexivity. }
  destruct Hpass as (gens & Hpass).
  assert (Hplain : forall src lk,
            In lk (registry_get (registry noted_registered) src) ->
            plain_sources lk = true).
  { intros src lk. unfold registry_get. simpl.
    destruct (decide (src = 2)) as [->|Hne].
    - rewrite lookup_singleton_eq. simpl. intros [<-|[]]. reflexivity.
    - rewrite lookup_singleton_ne by done. intros []. }
  assert (Hsub : forall t,
            In t (selected_triples two_panes root0
                    (snd (_process_callbacks two_panes (Some root0) noted_registered))) ->
            In t (selected_triples two_panes root0 noted_registered)).
  { assert (Hsame : selected_triples two_panes root0
                      (snd (_process_callbacks two_panes (Some root0) noted_registered))
                    = selected_triples two_panes root0 noted_registered)
      by (vm_compute; reflexivity).
    intros t. by rewrite Hsame. }
  destruct (second_pass_attaches_nothing two_panes root0 noted_registered gens _
              Hplain Hpass) as [_ Hsecond].
  destruct (Hsecond Hsub) as (r & Hrun & Hret).
  destruct (selection two_panes root0
              (snd (_process_callbacks two_panes (Some root0) noted_registered)))
    as [fa|e] eqn:Hsel; [|by vm_compute in Hsel].
  destruct (Hret fa eq_refl) as (gens2 & ->). by exists gens2.
Defined.

(** C3, as stated, fails. The first pass attaches the callback of
    [watch_start] to the range of plot [2] and then gives plot [2] the
    range of plot [1]; the second pass, with the registry untouched,
    resolves [x_range] on plot [2] to that other range, finds no tag on
    it, and attaches a listener to it. *)
Lemma second_pass_attaches_listener :
  exists gens1 st1 gens2 st2 cb,
    _process_callbacks no_views (Some root0_ranges) ranges_registered = (Ok gens1, st1)
    /\ _process_callbacks no_views (Some root0_ranges) st1 = (Ok gens2, st2)
    /\ registry st1 = registry ranges_registered
    /\ property_callbacks (heap st1) (VRef 3) = Ok []
    /\ property_callbacks (heap st2) (VRef 3) = Ok [("change:start", [cb])]
    /\ tags cb = [101].
Proof.
  eexists _, _, _, _, _.
  split; [vm_compute; reflexivity|].
  split; [vm_compute; reflexivity|].
  split; [reflexivity|].
  split; [vm_compute; reflexivity|].
  split; [vm_compute; reflexivity|reflexivity].
Qed.

(** The condition on the triples selected is needed, also when every
    source path is plain. The callback emitted for [noted_link] refers
    to the model [14] through its arguments. The first pass does not
    find [14] under the root and leaves [note_watch], which is
    registered on it, aside; the second pass, with the registry
    untouched, finds [14] through that callback, selects [note_watch]
    and attaches a listener to [14]. *)
Lemma second_pass_reaches_new_model :
  exists gens1 st1 gens2 st2 cb,
    _process_callbacks two_panes (Some root0) watched_registered = (Ok (Some gens1), st1)
    /\ _process_callbacks two_panes (Some root0) st1 = (Ok (Some gens2), st2)
    /\ registry st1 = registry watched_registered
    /\ map triple_of gens1 = [(noted_link, 2, Some 1)]
    /\ map triple_of gens2 = [(noted_link, 2, Some 1); (note_watch, 14, None)]
    /\ property_callbacks (heap st1) (VRef 14) = Ok []
    /\ property_callbacks (heap st2) (VRef 14) = Ok [("change:text", [cb])]
    /\ tags cb = [102].
Proof.
  eexists _, _, _, _, _.
  split; [vm_compute; reflexivity|].
  split; [vm_compute; reflexivity|].
  split; [reflexivity|].
  split; [vm_compute; reflexivity|].
  split; [vm_compute; reflexivity|].
  split; [vm_compute; reflexivity|].
  split; [vm_compute; reflexivity|reflexivity].
Qed.

(** * Further properties of [links.py] *)

(** ** One link, several properties *)

(** The guard of [_init_callback] looks at the link and at the source
    model only: once the model is tagged, no spec of that link with a
    plain source path is emitted, whatever its leaf, target or code. *)
Lemma init_callback_guarded g ao rm lk source leaf target ts code st a m :
  CallbackGenerator._resolve_model st rm (VRef source) None = Ok (VRef a) ->
  heap st !! a = Some (OModel m) ->
  tagged (link_id lk) (js_property_callbacks m) = true ->
  _init_callback g ao rm lk source (None, leaf) target ts code st = (Ok tt, st).
Proof.
  intros Hsrc Ha Htag. unfold _init_callback. rewrite bind_lift. simpl.
  rewrite Hsrc, bind_lift. unfold property_callbacks. simpl. by rewrite Ha, Htag.
Qed.

(** X1. When the source paths of a link are plain property names, its
    generator emits for the first spec only: if [_init_callback] returns
    for the first spec, every other spec finds the source model tagged
    and is passed over; if it raises, so does the generator. *)
Theorem only_first_spec_is_emitted g rm lk source target ao st s rest :
  plain_sources lk = true ->
  call_get_specs g st lk source target = Ok (s :: rest) ->
  generator__init__ g rm lk source target ao st
  = match _init_callback g ao rm lk source (fst (fst s)) target (snd (fst s)) (snd s) st with
    | (Ok _, st1) =>
        (Ok {| gen_class := g; gen_root_model := rm; gen_link := lk;
               gen_source := source; gen_target := target;
               gen_arg_overrides := ao |}, st1)
    | (Raise e, st1) => (Raise e, st1)
    end.
Proof.
  intros Hp Hspecs.
  pose proof (specs_plain _ _ _ _ _ _ Hp Hspecs) as Hplain.
  unfold generator__init__, CallbackGenerator.validate.
  rewrite bind_ret, bind_lift, Hspecs. simpl. rewrite bind_assoc. unfold bind at 1.
  destruct (_init_callback g ao rm lk source (fst (fst s)) target (snd (fst s)) (snd s) st)
    as [[[]|e] st1] eqn:Hfirst; [|done].
  pose proof (monotone_init_callback _ _ _ _ _ _ _ _ _ _ _ _ Hfirst) as Hext.
  apply init_callback_outcome in Hfirst as (a & m & Hsrc & Ha & Htag).
  rewrite (Hplain s) in Hsrc by (by left).
  rewrite <- (resolve_source_stable _ _ rm source Hext) in Hsrc.
  assert (Hrest : forall specs,
    (forall x, In x specs -> fst (fst (fst x)) = None) ->
    for_each specs (fun x => _init_callback g ao rm lk source (fst (fst x))
                               target (snd (fst x)) (snd x)) st1 = (Ok tt, st1)).
  { induction specs as [|[[[prefix leaf] ts] code] specs IH]; intros Hs; simpl; [done|].
    pose proof (Hs _ (or_introl eq_refl)) as Hn. simpl in Hn. subst prefix.
    unfold bind. rewrite (init_callback_guarded _ _ _ _ _ _ _ _ _ _ a m) by done.
    apply IH. intros x Hx. apply Hs. by right. }
  unfold bind. rewrite Hrest; [done|]. intros x Hx. apply Hplain. by right.
Qed.

Lemma only_first_spec_is_emitted_witness :
  exists st1,
    generator__init__ cls_JSLinkCallbackGenerator root0 pair_link 1 (Some 2) []
      (loaded false pair_heap)
    = (Ok {| gen_class := cls_JSLinkCallbackGenerator; gen_root_model := root0;
             gen_link := pair_link; gen_source := 1; gen_target := Some 2;
             gen_arg_overrides := [] |}, st1)
    /\ exists cb, property_callbacks (heap st1) (VRef 11) = Ok [("change:value", [cb])].
Proof.
  eexists. split.
  - rewrite (only_first_spec_is_emitted cls_JSLinkCallbackGenerator root0 pair_link 1
               (Some 2) [] (loaded false pair_heap)
               ((None, "value"), (None, Some "text"), None)
               [((None, "start"), (None, Some "end"), None)]);
      [|reflexivity|reflexivity].
    vm_compute. reflexivity.
  - eexists. vm_compute. reflexivity.
Defined.

(** ** The synchronisation of [_initialize_models] *)

(** X2. [_initialize_models] of the property-link generator, for two
    models and non-empty property names, assigns the value of the source
    property to the target property, and bokeh validates the assignment:
    if the declared type of the target property rejects the value, the
    call raises that [ValueError] and changes nothing; otherwise it
    returns, the target property holds the value the source property
    had, and no other object, no callback and no registry entry has
    changed. *)
Theorem initialize_models_copies_value lk target a src_spec b tgt_spec st v m :
  src_spec <> "" -> tgt_spec <> "" ->
  getattr (heap st) (VRef a) src_spec = Ok v ->
  heap st !! b = Some (OModel m) ->
  dict_mem tgt_spec (attrs m) = true ->
  match prop_error m tgt_spec v with
  | Some msg =>
      JSLinkCallbackGenerator._initialize_models lk target (VRef a) src_spec
                                                 (VRef b) (Some tgt_spec) st
      = (Raise (ValueError msg), st)
  | None =>
      exists st',
        JSLinkCallbackGenerator._initialize_models lk target (VRef a) src_spec
                                                   (VRef b) (Some tgt_spec) st
        = (Ok tt, st')
        /\ getattr (heap st') (VRef b) tgt_spec = Ok v
        /\ registry st' = registry st
        /\ (forall c, c <> b -> heap st' !! c = heap st !! c)
        /\ property_callbacks (heap st') (VRef b) = property_callbacks (heap st) (VRef b)
  end.
Proof.
  intros Hs Ht Hget Hb Hmem. unfold JSLinkCallbackGenerator._initialize_models. simpl.
  apply String.eqb_neq in Hs, Ht. rewrite Hs, Ht. simpl.
  rewrite bind_assoc, bind_lift, Hget.
  unfold bind, ret, setattr. rewrite Hb, Hmem.
  destruct (prop_error m tgt_spec v) as [msg|]; [done|].
  eexists. split; [done|]. split; [|split; [done|split]].
  - unfold getattr. simpl. rewrite lookup_insert_eq. simpl. by rewrite dict_get_set_eq.
  - intros c Hc. simpl. by rewrite lookup_insert_ne.
  - unfold property_callbacks. simpl. by rewrite lookup_insert_eq, Hb.
Qed.

Lemma initialize_models_copies_value_witness :
  (exists st',
     JSLinkCallbackGenerator._initialize_models pair_link (Some 2) (VRef 11) "value"
                                                (VRef 12) (Some "text")
                                                (loaded false pair_heap) = (Ok tt, st')
     /\ getattr (heap st') (VRef 12) "text" = Ok (VStr "3"))
  /\ exists msg,
       JSLinkCallbackGenerator._initialize_models pair_link (Some 2) (VRef 11) "start"
                                                  (VRef 12) (Some "text")
                                                  (loaded false pair_heap)
       = (Raise (ValueError msg), loaded false pair_heap).
Proof.
  split.
  - destruct (initialize_models_copies_value pair_link (Some 2) 11 "value" 12 "text"
                (loaded false pair_heap) (VStr "3") _
                ltac:(discriminate) ltac:(discriminate) eq_refl eq_refl eq_refl)
      as (st' & Hrun & Hcopy & _).
    exists st'. split; [exact Hrun|exact Hcopy].
  - eexists.
    exact (initialize_models_copies_value pair_link (Some 2) 11 "start" 12 "text"
             (loaded false pair_heap) (VInt 0) _
             ltac:(discriminate) ltac:(discriminate) eq_refl eq_refl eq_refl).
Defined.

(** ** Property paths *)

Lemma split_dot_nonempty s : split_dot s <> [].
Proof.
  destruct s as [|c s]; simpl; [done|].
  destruct (Ascii.eqb c "."); [done|]. by destruct (split_dot s).
Qed.

Lemma split_dot_app p q :
  split_dot (p +:+ "." +:+ q) = split_dot p ++ split_dot q.
Proof.
  induction p as [|c p IH].
  - reflexivity.
  - change (String c p +:+ "." +:+ q) with (String c (p +:+ "." +:+ q)).
    simpl. rewrite IH. destruct (Ascii.eqb c "."); [done|].
    pose proof (split_dot_nonempty p). by destruct (split_dot p).
Qed.

Lemma join_split_dot s : join_dot (split_dot s) = s.
Proof.
  induction s as [|c s IH]; [done|]. simpl.
  destruct (Ascii.eqb c ".") eqn:E.
  - apply Ascii.eqb_eq in E. subst c.
    pose proof (split_dot_nonempty s) as Hne.
    change (join_dot ("" :: split_dot s)) with
      (match split_dot s with [] => "" | _ :: _ => "" +:+ "." +:+ join_dot (split_dot s) end).
    destruct (split_dot s) eqn:Es; [done|]. by rewrite IH.
  - pose proof (split_dot_nonempty s) as Hne.
    destruct (split_dot s) as [|h t] eqn:Es; [done|].
    destruct t as [|h' t'].
    + simpl in *. by rewrite IH.
    + change (join_dot (String c h :: h' :: t'))
        with (String c (h +:+ "." +:+ join_dot (h' :: t'))).
      by rewrite <- IH.
Qed.

Lemma split_dot_segments s : Forall (fun seg => has_dot seg = false) (split_dot s).
Proof.
  induction s as [|c s IH]; simpl; [by repeat constructor|].
  destruct (Ascii.eqb c ".") eqn:E; [by constructor|].
  destruct (split_dot s) as [|h t].
  - constructor; [|constructor]. simpl. by rewrite E.
  - apply Forall_cons in IH as [Hh Ht]. constructor; [|done]. simpl. by rewrite E.
Qed.

Lemma split_dot_dotted s : has_dot s = true -> Nat.ltb 1 (length (split_dot s)) = true.
Proof.
  induction s as [|c s IH]; simpl; [done|].
  pose proof (split_dot_nonempty s) as Hne.
  destruct (Ascii.eqb c "."); simpl.
  - intros _. by destruct (split_dot s).
  - intros H. specialize (IH H). by destruct (split_dot s) as [|h [|h' t]].
Qed.

Lemma string_append_assoc (a b c : string) : (a +:+ b) +:+ c = a +:+ (b +:+ c).
Proof.
  induction a as [|x a IH]; [done|].
  change (String x ((a +:+ b) +:+ c) = String x (a +:+ (b +:+ c))). by rewrite IH.
Qed.

Lemma join_dot_last (l : list string) :
  Nat.ltb 1 (length l) = true ->
  join_dot (List.removelast l) +:+ "." +:+ List.last l "" = join_dot l.
Proof.
  induction l as [|x l IH]; [done|].
  destruct l as [|y l]; [done|]. intros _.
  destruct l as [|z l].
  - reflexivity.
  - change (List.removelast (x :: y :: z :: l)) with (x :: List.removelast (y :: z :: l)).
    change (List.last (x :: y :: z :: l) "") with (List.last (y :: z :: l) "").
    change (join_dot (x :: y :: z :: l)) with (x +:+ "." +:+ join_dot (y :: z :: l)).
    rewrite <- (IH eq_refl).
    destruct (List.removelast (y :: z :: l)) as [|r rs] eqn:Er; [done|].
    change (join_dot (x :: r :: rs)) with (x +:+ "." +:+ join_dot (r :: rs)).
    by rewrite !string_append_assoc.
Qed.

(** X5. A spec recomposes to its path. A path with a dot is split at
    its last dot: the prefix, a dot and the leaf give the path back, and
    the leaf has no dot. A path without a dot has no prefix, and its leaf
    is the path, renamed if the object is [Reactive]. *)
Theorem to_spec_recomposes h obj path :
  match to_spec h obj path with
  | (Some prefix, leaf) =>
      has_dot path = true /\ path = prefix +:+ "." +:+ leaf /\ has_dot leaf = false
  | (None, leaf) => has_dot path = false /\ leaf = renamed h obj path
  end.
Proof.
  unfold to_spec. destruct (has_dot path) eqn:Hd.
  - rewrite (split_dot_dotted _ Hd). split; [done|]. split.
    + by rewrite join_dot_last, join_split_dot by (by apply split_dot_dotted).
    + pose proof (split_dot_segments path) as Hseg.
      pose proof (split_dot_nonempty path) as Hne.
      destruct (split_dot path) as [|x l]; [done|].
      rewrite List.Forall_forall in Hseg. apply Hseg.
      rewrite (List.app_removelast_last "" (l := x :: l)) at 2 by done.
      apply in_app_iff. right. by left.
  - by rewrite (split_dot_plain _ Hd).
Qed.

(** ** Resolving models *)

Lemma drill_app h model l1 l2 :
  CallbackGenerator.drill h model (l1 ++ l2)
  = rbind (CallbackGenerator.drill h model l1)
          (fun m => CallbackGenerator.drill h m l2).
Proof.
  revert model. induction l1 as [|sp l1 IH]; intros model; simpl; [done|].
  destruct (getattr h model sp) as [m|e]; simpl; [apply IH|done].
Qed.

Lemma drill_None h sp : CallbackGenerator.drill h VNone (split_dot sp) = Raise AttributeError.
Proof.
  pose proof (split_dot_nonempty sp). by destruct (split_dot sp).
Qed.

(** X3. Paths compose. On a view or a bokeh model, resolving [p.q] is
    resolving [p] and then resolving [q] on the result, when that result
    is a bokeh model. *)
Theorem resolve_model_composes st rm obj p q m :
  isinstance_Viewable (heap st) obj || isinstance_BkModel (heap st) obj = true ->
  CallbackGenerator._resolve_model st rm obj (Some p) = Ok m ->
  isinstance_BkModel (heap st) m = true ->
  CallbackGenerator._resolve_model st rm obj (Some (p +:+ "." +:+ q))
  = CallbackGenerator._resolve_model st rm m (Some q).
Proof.
  unfold isinstance_Viewable, isinstance_BkModel, CallbackGenerator._resolve_model.
  intros Hobj Hp Hm.
  destruct (lookup_obj (heap st) m) as [[| mm | | |]|]; try done.
  unfold CallbackGenerator.drill_spec in *.
  destruct (lookup_obj (heap st) obj) as [[w | mo | | |]|]; try done.
  - destruct (_models w !! ref_id rm) as [base|]; [|done].
    by rewrite split_dot_app, drill_app, Hp.
  - by rewrite split_dot_app, drill_app, Hp.
Qed.

Lemma resolve_model_composes_witness :
  CallbackGenerator._resolve_model ranges_registered root0_ranges (VRef 1)
                                   (Some ("x_range" +:+ "." +:+ "start"))
  = CallbackGenerator._resolve_model ranges_registered root0_ranges (VRef 3) (Some "start").
Proof.
  apply resolve_model_composes; reflexivity.
Defined.

(** X4. What [_resolve_model] does with an object it cannot place. An
    object that is no plot, no view and no bokeh model resolves to [None]
    without a spec and raises [AttributeError] with one; a view that has
    no model under the root raises [KeyError], with or without a spec. *)
Theorem resolve_model_unplaced st rm obj :
  (holoviews_loaded st && is_bokeh_element_plot (heap st) obj = false ->
   isinstance_Viewable (heap st) obj = false ->
   isinstance_BkModel (heap st) obj = false ->
   CallbackGenerator._resolve_model st rm obj None = Ok VNone
   /\ forall sp, CallbackGenerator._resolve_model st rm obj (Some sp) = Raise AttributeError)
  /\ (forall w, lookup_obj (heap st) obj = Some (OViewable w) ->
                _models w !! ref_id rm = None ->
                forall spec, CallbackGenerator._resolve_model st rm obj spec = Raise KeyError).
Proof.
  unfold is_bokeh_element_plot, isinstance_Viewable, isinstance_BkModel,
    CallbackGenerator._resolve_model, CallbackGenerator.drill_spec.
  split.
  - intros Hplot Hview Hmodel.
    destruct (lookup_obj (heap st) obj) as [[| | pl | |]|]; try done;
      try (split; [done|intros sp; apply drill_None]).
    rewrite andb_true_r in Hplot. rewrite Hplot.
    split; [done|intros sp; apply drill_None].
  - intros w -> Hw spec. by rewrite Hw.
Qed.

Lemma resolve_model_unplaced_witness :
  CallbackGenerator._resolve_model args_registered root0_handles (VRef 30) None = Ok VNone
  /\ CallbackGenerator._resolve_model args_registered
       {| ref_id := 7; select_BkModel := references 7 |} (VRef 1) None = Raise KeyError.
Proof.
  destruct (resolve_model_unplaced args_registered root0_handles (VRef 30)) as [H _].
  destruct (resolve_model_unplaced args_registered {| ref_id := 7; select_BkModel := references 7 |}
              (VRef 1)) as [_ H'].
  split.
  - apply H; reflexivity.
  - apply (H' _ eq_refl). vm_compute. reflexivity.
Defined.

(** ** What the pass returns *)

Lemma generator_init_instance g rm lk source target ao st inst st' :
  generator__init__ g rm lk source target ao st = (Ok inst, st') ->
  inst = {| gen_class := g; gen_root_model := rm; gen_link := lk;
            gen_source := source; gen_target := target; gen_arg_overrides := ao |}.
Proof.
  unfold generator__init__, CallbackGenerator.validate. rewrite bind_ret, bind_lift.
  destruct (call_get_specs g st lk source target) as [specs|e]; [|done].
  intros H. apply bind_inv in H as [([] & st1 & _ & [= <- _])|(e & _ & ?)]; done.
Qed.

(** The instances the emission loop returns are those of the triples it
    does not pass over, in their order, each of the class registered for
    the type of its link and with the overrides recorded for its link. *)
Lemma emit_instances ao rm found st gens st' :
  emit ao rm found st = (Ok gens, st') ->
  map triple_of gens = List.filter (fun t => negb (skipped t)) found
  /\ Forall (fun i => gen_root_model i = rm
                      /\ gen_arg_overrides i = default [] (ao !! link_id (gen_link i))
                      /\ callbacks_get (link_type (gen_link i)) (_callbacks st)
                         = Some (gen_class i)) gens.
Proof.
  revert st gens st'. induction found as [|[[lk src] tgt] rest IH];
    intros st gens st'; simpl.
  - intros [= <- _]. split; [done|constructor].
  - rewrite bind_lift.
    destruct (callbacks_get (link_type lk) (_callbacks st)) as [g|] eqn:Hg; [|done].
    unfold skipped at 1. simpl.
    destruct (_requires_target (link_type lk) && negb (bool_decide (is_Some tgt)));
      simpl; [apply IH|].
    intros H. apply bind_inv in H as [(inst & st1 & Hinit & H)|(e & _ & ?)]; [|done].
    apply bind_inv in H as [(more & st2 & Hrest & [= <- _])|(e & _ & ?)]; [|done].
    pose proof (monotone_generator_init _ _ _ _ _ _ _ _ _ Hinit) as Hext.
    apply generator_init_instance in Hinit. subst inst.
    destruct (IH _ _ _ Hrest) as [Hmap Hall]. simpl. split; [by rewrite Hmap|].
    constructor; [done|].
    rewrite (ext_callbacks _ _ Hext) in Hall. exact Hall.
Qed.

(** X6. Without holoviews, a pass that returns a list returns one
    generator instance for each triple of [found], in the order of
    [found] (the objects of [linkable] in their order and, for each, its
    links in registration order), each built by the generator registered
    for the class of its link, with no overrides. *)
Theorem pass_returns_found_in_order root_view rm st gens st' :
  holoviews_loaded st = false ->
  _process_callbacks root_view (Some rm) st = (Ok (Some gens), st') ->
  let linkable := select_Viewable root_view ++ select_BkModel rm (heap st) in
  map triple_of gens
  = flat_map (fun src => map (to_triple src)
                           (List.filter (selected linkable)
                                        (registry_get (registry st) src))) linkable
  /\ Forall (fun i => gen_root_model i = rm /\ gen_arg_overrides i = []
                      /\ callbacks_get (link_type (gen_link i)) (_callbacks st)
                         = Some (gen_class i)) gens.
Proof.
  intros Hhv. unfold _process_callbacks. rewrite bind_gets.
  set (linkable := select_Viewable root_view ++ select_BkModel rm (heap st)).
  destruct linkable as [|x xs] eqn:El; [done|]. rewrite <- El.
  rewrite bind_lift, found_of_eq, bind_gets, Hhv, bind_ret. simpl.
  intros H. apply bind_inv in H as [(gs & st1 & Hemit & [= <- _])|(e & _ & ?)]; [|done].
  apply emit_instances in Hemit as [Hmap Hall]. split.
  - rewrite Hmap. apply forallb_filter_id, forallb_forall.
    intros [[lk src] tgt] Hin. apply in_flat_map in Hin as (s & _ & Hin).
    apply in_map_iff in Hin as (lk' & [= -> _ <-] & Hin).
    apply filter_In in Hin as [_ Hsel]. apply selected_spec in Hsel.
    unfold skipped. simpl. apply negb_true_iff.
    destruct Hsel as [Hr|(a & -> & _)]; [by rewrite Hr|].
    apply andb_false_iff. right. apply negb_false_iff, bool_decide_eq_true. eauto.
  - eapply Forall_impl; [exact Hall|]. intros i (H1 & H2 & H3).
    split; [done|]. split; [|done]. by rewrite H2, lookup_empty.
Qed.

Lemma pass_returns_found_in_order_witness :
  exists gens st',
    _process_callbacks two_panes (Some root0) text_registered = (Ok (Some gens), st')
    /\ map triple_of gens = [(text_link, 2, Some 1)].
Proof.
  destruct (_process_callbacks two_panes (Some root0) text_registered)
    as [[[gens|]|e] st'] eqn:E; try (vm_compute in E; discriminate).
  exists gens, st'. split; [reflexivity|].
  destruct (pass_returns_found_in_order two_panes root0 text_registered gens st'
              eq_refl E) as [Hmap _].
  rewrite Hmap. vm_compute. reflexivity.
Defined.

(** X7. With nothing registered for any object of [linkable], the pass
    changes nothing and returns the empty list, or [None] when
    [linkable] itself is empty; holoviews makes no difference. *)
Theorem pass_with_nothing_registered root_view rm st :
  let linkable := select_Viewable root_view ++ select_BkModel rm (heap st) in
  (forall src, In src linkable -> registry_get (registry st) src = []) ->
  _process_callbacks root_view (Some rm) st
  = (Ok (match linkable with [] => None | _ :: _ => Some [] end), st).
Proof.
  intros linkable Hnone. unfold _process_callbacks. rewrite bind_gets. fold linkable.
  assert (Hfound : forall srcs, (forall src, In src srcs -> In src linkable) ->
            found_of (registry st) linkable srcs = Ok []).
  { induction srcs as [|src rest IH]; intros Hs; simpl; [done|].
    rewrite (Hnone src) by (apply Hs; by left). simpl.
    rewrite IH; [done|]. intros s Hin. apply Hs. by right. }
  assert (Hexp : forall srcs acc, (forall src, In src srcs -> In src linkable) ->
            expand (registry st) (panel_bokeh_map root_view) srcs acc = Ok acc).
  { induction srcs as [|src rest IH]; intros acc Hs; simpl; [done|].
    rewrite (Hnone src) by (apply Hs; by left). simpl.
    apply IH. intros s Hin. apply Hs. by right. }
  destruct linkable as [|x xs] eqn:El; [done|]. rewrite <- El in *.
  rewrite bind_lift, Hfound by done. rewrite bind_gets.
  destruct (holoviews_loaded st).
  - rewrite bind_lift, Hexp by done. done.
  - done.
Qed.

Lemma pass_with_nothing_registered_witness :
  _process_callbacks two_panes (Some root0) (loaded true untitled_heap)
  = (Ok (Some []), loaded true untitled_heap).
Proof.
  apply (pass_with_nothing_registered two_panes root0 (loaded true untitled_heap)).
  intros src _. reflexivity.
Defined.

(** ** The generator table *)

Lemma callbacks_get_set_eq c g t : callbacks_get c (Callback.callbacks_set c g t) = Some g.
Proof.
  induction t as [|[c' g'] t IH]; simpl.
  - by rewrite pyclass_eqb_refl.
  - destruct (pyclass_eqb c c') eqn:E; simpl; by rewrite E.
Qed.

Lemma callbacks_get_set_ne c c' g t :
  c <> c' -> callbacks_get c' (Callback.callbacks_set c g t) = callbacks_get c' t.
Proof.
  intros Hne. assert (Hcc : pyclass_eqb c' c = false).
  { destruct (pyclass_eqb c' c) eqn:E; [|done]. apply pyclass_eqb_eq in E. congruence. }
  induction t as [|[c0 g0] t IH]; simpl.
  - by rewrite Hcc.
  - destruct (pyclass_eqb c c0) eqn:E; simpl; [|by rewrite IH].
    apply pyclass_eqb_eq in E. subst c0. by rewrite Hcc.
Qed.

(** X8. [register_callback] makes its generator the one of the class,
    replacing an earlier one, and leaves the generators of the other
    classes, the registry and the heap as they were. The table is keyed
    by the exact class: after the module is loaded a subclass of [Link]
    has no generator until it registers one, and a pass that selects one
    of its instances raises [KeyError]. *)
Theorem register_callback_sets_generator cls g st :
  exists st',
    Callback.register_callback cls g st = (Ok tt, st')
    /\ callbacks_get cls (_callbacks st') = Some g
    /\ (forall c, c <> cls -> callbacks_get c (_callbacks st') = callbacks_get c (_callbacks st))
    /\ registry st' = registry st /\ heap st' = heap st
    /\ (forall hv h name req, callbacks_get (cls_LinkSubclass name req)
                                (_callbacks (loaded hv h)) = None)
    /\ (forall ao rm lk src tgt rest,
          callbacks_get (link_type lk) (_callbacks st) = None ->
          emit ao rm ((lk, src, tgt) :: rest) st = (Raise KeyError, st)).
Proof.
  eexists. split; [reflexivity|]. simpl.
  split; [apply callbacks_get_set_eq|].
  split; [by intros c Hc; apply callbacks_get_set_ne|].
  split; [done|]. split; [done|]. split; [done|].
  intros ao rm lk src tgt rest Hnone. simpl. by rewrite bind_lift, Hnone.
Qed.

(** ** Invariants of the registry *)

Lemma pop_subset i links lk : In lk (Link.pop i links) -> In lk links.
Proof.
  revert i. induction links as [|x links IH]; intros i; destruct i; simpl; try tauto.
  intros [?|?]; [by left|right; eauto].
Qed.

Lemma init_well_keyed self st r st' :
  well_keyed st -> Callback.init self st = (r, st') -> well_keyed st'.
Proof.
  intros Hwk. unfold Callback.init.
  destruct (registry st !! source self) as [links|] eqn:E.
  - destruct (Callback.scan self links) as [[|]|e]; intros [= _ <-]; try done.
    intros s l lk. simpl. destruct (decide (source self = s)) as [<-|Hne].
    + rewrite lookup_insert_eq. intros [= <-] Hin.
      apply in_app_iff in Hin as [Hin|[<-|[]]]; [by eapply Hwk|done].
    + rewrite lookup_insert_ne by done. apply Hwk.
  - intros [= _ <-]. intros s l lk. simpl.
    destruct (decide (source self = s)) as [<-|Hne].
    + rewrite lookup_insert_eq. by intros [= <-] [<-|[]].
    + rewrite lookup_insert_ne by done. apply Hwk.
Qed.

Lemma unlink_well_keyed self st r st' :
  well_keyed st -> Link.unlink self st = (r, st') -> well_keyed st'.
Proof.
  intros Hwk. unfold Link.unlink.
  destruct (registry st !! source self) as [links|] eqn:E; [|by intros [= _ <-]].
  destruct (existsb _ links); intros [= _ <-]; [|done].
  intros s l lk. simpl. destruct (decide (source self = s)) as [<-|Hne].
  - rewrite lookup_insert_eq. intros [= <-] Hin. apply pop_subset in Hin. by eapply Hwk.
  - rewrite lookup_insert_ne by done. apply Hwk.
Qed.

Lemma construct_runs_init cls self_id nm src target p st r st' :
  construct cls self_id nm src target p st = (r, st') ->
  st' = st \/ exists self r0, Callback.init self st = (r0, st').
Proof.
  assert (Hcb : forall tgt tg,
    Callback.__init__ cls self_id nm tgt src tg p st = (r, st') ->
    st' = st \/ exists self r0, Callback.init self st = (r0, st')).
  { intros tgt tg. unfold Callback.__init__, raise. destruct src as [s|]; [|by left; congruence].
    intros H. right. apply bind_inv in H as [(u & st1 & Hinit & [= _ <-])|(e & Hinit & _)];
      eauto. }
  unfold construct, Link.__init__, raise.
  destruct cls; try apply Hcb; (destruct (_ && _); [by left; congruence|apply Hcb]).
Qed.

(** X9. Every list of the registry holds links whose source is the key
    of the list: this holds when the module is loaded, and a
    construction, [link()] and [unlink()] keep it, whether they return or
    raise. *)
Theorem registry_lists_stay_keyed st :
  (forall hv h, well_keyed (loaded hv h))
  /\ (well_keyed st ->
      (forall cls self_id nm src target p r st',
         construct cls self_id nm src target p st = (r, st') -> well_keyed st')
      /\ (forall self r st', Link.link self st = (r, st') -> well_keyed st')
      /\ (forall self r st', Link.unlink self st = (r, st') -> well_keyed st')).
Proof.
  split; [by intros hv h s links lk|]. intros Hwk. split; [|split].
  - intros cls self_id nm src target p r st' H.
    apply construct_runs_init in H as [->|(self & r0 & H)]; [done|].
    by eapply init_well_keyed.
  - intros self r st' H. unfold Link.link in H.
    apply bind_inv in H as [(u & st1 & H1 & H2)|(e & H1 & _)].
    + eapply init_well_keyed; [|done]. by eapply init_well_keyed.
    + by eapply init_well_keyed.
  - intros self r st' H. by eapply unlink_well_keyed.
Qed.

Lemma registry_lists_stay_keyed_witness :
  well_keyed (snd (Link.unlink (sample_link 11 3) sample_registry)).
Proof.
  destruct (Link.unlink (sample_link 11 3) sample_registry) as [r st'] eqn:E.
  destruct (registry_lists_stay_keyed sample_registry) as [_ H].
  refine (proj2 (proj2 (H _)) _ _ _ E).
  intros s links lk. unfold sample_registry. simpl.
  destruct (decide (s = 1)) as [->|Hne].
  - rewrite lookup_singleton_eq. intros [= <-] [<-|[<-|[<-|[]]]]; reflexivity.
  - rewrite lookup_singleton_ne by done. discriminate.
Defined.

(** When the loop of [init] runs to its end, no entry is equivalent to
    the new declaration, of whatever class. *)
Lemma scan_false_no_equivalent self links :
  Callback.scan self links = Ok false ->
  Forall (fun e => equivalent self e = false) links.
Proof.
  induction links as [|lk rest IH]; simpl; [constructor|].
  destruct (pyclass_eqb (link_type lk) (link_type self)
            && Nat.eqb (source lk) (source self)) eqn:E; simpl.
  - unfold target.
    destruct (has_target (link_type lk)); simpl; [|done].
    destruct (has_target (link_type self)); simpl; [|done].
    destruct (option_eqb Nat.eqb (_target lk) (_target self) && params_eqb self lk)
      eqn:E2; [done|].
    intros H. constructor; [|by apply IH].
    unfold equivalent. by rewrite <- andb_assoc, E2, andb_false_r.
  - intros H. constructor; [|by apply IH]. unfold equivalent. by rewrite E.
Qed.

Lemma irredundant_snoc links self :
  irredundant links -> Forall (fun e => equivalent self e = false) links ->
  irredundant (links ++ [self]).
Proof.
  induction links as [|lk rest IH]; simpl.
  - intros _ _. split; [constructor|done].
  - intros [Hrest Hirr] Hall. apply Forall_cons in Hall as [Hlk Hall].
    split; [|by apply IH]. apply Forall_app. split; [done|]. by constructor.
Qed.

Lemma irredundant_pop i links : irredundant links -> irredundant (Link.pop i links).
Proof.
  revert i. induction links as [|lk rest IH]; intros i; destruct i; simpl; try tauto.
  intros [Hall Hirr]. split; [|by apply IH].
  apply List.Forall_forall. intros x Hx. apply pop_subset in Hx.
  rewrite List.Forall_forall in Hall. by apply Hall.
Qed.

Lemma init_irredundant self st r st' :
  irredundant_registry st -> Callback.init self st = (r, st') -> irredundant_registry st'.
Proof.
  intros Hirr. unfold Callback.init.
  destruct (registry st !! source self) as [links|] eqn:E.
  - destruct (Callback.scan self links) as [[|]|e] eqn:Hscan; intros [= _ <-]; try done.
    intros s l. simpl. destruct (decide (source self = s)) as [<-|Hne].
    + rewrite lookup_insert_eq. intros [= <-].
      apply irredundant_snoc; [by eapply Hirr|by apply scan_false_no_equivalent].
    + rewrite lookup_insert_ne by done. apply Hirr.
  - intros [= _ <-]. intros s l. simpl.
    destruct (decide (source self = s)) as [<-|Hne].
    + rewrite lookup_insert_eq. intros [= <-]. simpl. split; [constructor|done].
    + rewrite lookup_insert_ne by done. apply Hirr.
Qed.

(** X10. No list of the registry ever holds an entry equivalent to an
    earlier entry of the list (same class, source and target, equal
    parameters other than [name]): the registry starts that way, and a
    construction, [link()] and [unlink()] keep it so. *)
Theorem registry_lists_stay_irredundant st :
  (forall hv h, irredundant_registry (loaded hv h))
  /\ (irredundant_registry st ->
      (forall cls self_id nm src target p r st',
         construct cls self_id nm src target p st = (r, st') -> irredundant_registry st')
      /\ (forall self r st', Link.link self st = (r, st') -> irredundant_registry st')
      /\ (forall self r st', Link.unlink self st = (r, st') -> irredundant_registry st')).
Proof.
  split; [by intros hv h s links|]. intros Hirr. split; [|split].
  - intros cls self_id nm src target p r st' H.
    apply construct_runs_init in H as [->|(self & r0 & H)]; [done|].
    by eapply init_irredundant.
  - intros self r st' H. unfold Link.link in H.
    apply bind_inv in H as [(u & st1 & H1 & H2)|(e & H1 & _)].
    + eapply init_irredundant; [|done]. by eapply init_irredundant.
    + by eapply init_irredundant.
  - intros self r st'. unfold Link.unlink.
    destruct (registry st !! source self) as [links|] eqn:E; [|by intros [= _ <-]].
    destruct (existsb _ links); intros [= _ <-]; [|done].
    intros s l. simpl. destruct (decide (source self = s)) as [<-|Hne].
    + rewrite lookup_insert_eq. intros [= <-]. apply irredundant_pop. by eapply Hirr.
    + rewrite lookup_insert_ne by done. apply Hirr.
Qed.

Lemma registry_lists_stay_irredundant_witness :
  irredundant_registry
    (snd (construct cls_Link 7 "Link00007" (Some 1) (Some 2)
            {| p_args := Some []; p_code := None; p_properties := [("value", "text")] |}
            (loaded false ∅))).
Proof.
  destruct (construct cls_Link 7 "Link00007" (Some 1) (Some 2) _ (loaded false ∅))
    as [r st'] eqn:E.
  destruct (registry_lists_stay_irredundant (loaded false ∅)) as [H0 H].
  exact (proj1 (H (H0 false ∅)) _ _ _ _ _ _ _ _ E).
Defined.

(** ** [link()] and [unlink()] *)

(** X11. On a [Link] whose parameters equal themselves, as Python
    dictionaries do, [link()] does what [init()] does and no more: when
    the registration code runs the second time, the instance or an
    equivalent entry is in the list. *)
Theorem link_is_init self st :
  has_target (link_type self) = true ->
  params_eqb self self = true ->
  Link.link self st = Callback.init self st.
Proof.
  intros Hl Hp. unfold Link.link, bind.
  destruct (init_registered self st Hl) as (links & E & ->). rewrite E.
  assert (Hself : equivalent self self = true).
  { unfold equivalent. rewrite pyclass_eqb_refl, Nat.eqb_refl, Hp. simpl.
    rewrite andb_true_r. by apply option_eqb_nat_eq. }
  set (st1 := if existsb _ _ then st else _).
  destruct (init_registered self st1 Hl) as (links1 & E1 & _). rewrite E1.
  assert (Hex : existsb (equivalent self) (registry_get (registry st1) (source self)) = true).
  { unfold st1. destruct (existsb (equivalent self) _) eqn:Ex; [done|].
    unfold registry_get. simpl. rewrite lookup_insert_eq. simpl.
    rewrite existsb_app. simpl. by rewrite Hself, !orb_true_r. }
  by rewrite Hex.
Qed.

Lemma link_is_init_witness :
  Link.link (sample_link 13 5) sample_registry
  = Callback.init (sample_link 13 5) sample_registry.
Proof. apply link_is_init; reflexivity. Defined.




(** ** Renaming references *)

Lemma dict_remove_split {V} k (d : list (string * V)) v :
  dict_get k d = Some v ->
  exists l1 l2, d = l1 ++ (k, v) :: l2 /\ dict_remove k d = l1 ++ l2.
Proof.
  induction d as [|[k0 v0] d IH]; simpl; [done|].
  destruct (String.eqb k k0) eqn:E.
  - apply String.eqb_eq in E. subst k0. intros [= ->]. by exists [], d.
  - intros H. destruct (IH H) as (l1 & l2 & -> & ->).
    by exists ((k0, v0) :: l1), l2.
Qed.

Lemma dict_set_absent {V} k (v : V) d : dict_get k d = None -> dict_set k v d = d ++ [(k, v)].
Proof.
  induction d as [|[k0 v0] d IH]; simpl; [done|].
  destruct (String.eqb k k0); [done|]. intros H. by rewrite IH.
Qed.

Lemma strip_values r k :
  Permutation (map snd (JSLinkCallbackGenerator.strip r k)) (map snd r).
Proof.
  destruct (strip_cases r k) as [->|(v & Hp & Hs & Hk & ->)]; [done|].
  destruct (dict_remove_split _ _ _ Hk) as (l1 & l2 & Hr & Hrem).
  rewrite dict_set_absent.
  - rewrite Hrem, Hr, !map_app. simpl.
    rewrite <- app_assoc. apply Permutation_app_head.
    symmetry. apply Permutation_cons_append.
  - rewrite dict_get_remove_ne; [done|].
    intros Heq. apply startswith_target in Hp. rewrite <- Heq in Hp.
    by apply (target_append_self k).
Qed.

(** X13. [_process_references] renames and does nothing else: the
    processed references have the values of the given ones, each as many
    times, hence as many entries. *)
Theorem process_references_keeps_values r :
  Permutation (map snd (JSLinkCallbackGenerator._process_references r)) (map snd r)
  /\ length (JSLinkCallbackGenerator._process_references r) = length r.
Proof.
  assert (H : forall ks r0,
    Permutation (map snd (fold_left JSLinkCallbackGenerator.strip ks r0)) (map snd r0)).
  { induction ks as [|k ks IH]; intros r0; simpl; [done|].
    etrans; [apply IH|apply strip_values]. }
  split; [apply H|].
  rewrite <- (length_map snd), <- (length_map snd r). apply Permutation_length, H.
Qed.

(** ** What the pure-code generator leaves alone *)

Lemma same_attrs_refl st : same_attrs st st.
Proof. intros a. destruct (heap st !! a) as [[]|]; eauto. Qed.

Lemma js_on_change_same_attrs model ev cb st r st' :
  js_on_change model ev cb st = (r, st') -> same_attrs st st'.
Proof.
  unfold js_on_change.
  destruct model as [| | | |a]; try (intros [= _ <-]; apply same_attrs_refl).
  destruct (heap st !! a) as [[| m | | |]|] eqn:Ha;
    try (intros [= _ <-]; apply same_attrs_refl).
  intros [= _ <-] b. simpl. destruct (decide (a = b)) as [<-|Hne].
  - rewrite Ha, lookup_insert_eq. eauto.
  - rewrite lookup_insert_ne by done. destruct (heap st !! b) as [[]|]; eauto.
Qed.

Lemma init_callback_same_attrs ao rm lk source ss target ts code st r st' :
  _init_callback cls_JSCallbackGenerator ao rm lk source ss target ts code st = (r, st') ->
  same_attrs st st' /\ registry st' = registry st.
Proof.
  unfold _init_callback. rewrite bind_lift.
  destruct (CallbackGenerator._resolve_model st rm (VRef source) (fst ss))
    as [src_model|e]; [|intros [= _ <-]; split; [apply same_attrs_refl|done]].
  rewrite bind_lift.
  destruct (property_callbacks (heap st) src_model) as [cbs|e];
    [|intros [= _ <-]; split; [apply same_attrs_refl|done]].
  destruct (tagged (link_id lk) cbs);
    [intros [= _ <-]; split; [apply same_attrs_refl|done]|].
  set (tgt := if _requires_target (link_type lk) then _ else _).
  assert (Htgt : exists rt, tgt st = (rt, st)).
  { unfold tgt. destruct (_requires_target (link_type lk)); eexists; reflexivity. }
  destruct Htgt as (rt & Htgt). unfold bind at 1. rewrite Htgt.
  destruct rt as [tgt_model|e]; [|intros [= _ <-]; split; [apply same_attrs_refl|done]].
  rewrite bind_lift.
  match goal with |- context [match ?x with Ok _ => _ | Raise _ => _ end] =>
    destruct x as [refs1|e];
      [|intros [= _ <-]; split; [apply same_attrs_refl|done]] end.
  rewrite bind_lift.
  destruct (references_handles st rm lk source target refs1) as [merged|e];
    [|intros [= _ <-]; split; [apply same_attrs_refl|done]].
  simpl. unfold CallbackGenerator._initialize_models. rewrite bind_ret.
  destruct code as [c|]; [|intros [= _ <-]; split; [apply same_attrs_refl|done]].
  rewrite bind_ret. simpl. unfold bind, ret.
  match goal with |- context [js_on_change ?m ?ev ?cb st] =>
    destruct (js_on_change m ev cb st) as [[[]|e] st1] eqn:Hjs end;
    intros [= _ <-]; (split; [by eapply js_on_change_same_attrs|]);
    by destruct (monotone_js_on_change _ _ _ _ _ _ Hjs).
Qed.

(** X14. The generator of a pure-code [Callback] never changes a
    property of a model: whatever it resolves, attaches or raises, every
    model keeps its properties and its event callbacks, every other
    object is untouched, and the registry is as before. *)
Theorem code_generator_keeps_attributes rm lk source target ao st r st' :
  generator__init__ cls_JSCallbackGenerator rm lk source target ao st = (r, st') ->
  same_attrs st st' /\ registry st' = registry st.
Proof.
  unfold generator__init__, CallbackGenerator.validate. rewrite bind_ret, bind_lift.
  destruct (call_get_specs cls_JSCallbackGenerator st lk source target) as [specs|e];
    [|intros [= _ <-]; split; [apply same_attrs_refl|done]].
  simpl in *. intros H.
  assert (Hloop : forall specs st0 r0 st1,
    for_each specs (fun s => _init_callback cls_JSCallbackGenerator ao rm lk source
                               (fst (fst s)) target (snd (fst s)) (snd s)) st0 = (r0, st1) ->
    same_attrs st0 st1 /\ registry st1 = registry st0).
  { clear. induction specs as [|s specs IH]; intros st0 r0 st1; simpl.
    - intros [= _ <-]. split; [apply same_attrs_refl|done].
    - intros H. apply bind_inv in H as [(u & st2 & H1 & H2)|(e & H1 & _)].
      + apply init_callback_same_attrs in H1 as [A1 R1].
        apply IH in H2 as [A2 R2]. split; [|congruence].
        intros a. specialize (A1 a). specialize (A2 a).
        destruct (heap st0 !! a) as [[| m | | |]|]; try (by rewrite A1 in A2).
        destruct A1 as (m1 & Hm1 & Ha1 & He1). rewrite Hm1 in A2.
        destruct A2 as (m2 & Hm2 & Ha2 & He2). exists m2. split; [done|]. split; congruence.
      + by apply init_callback_same_attrs in H1. }
  apply bind_inv in H as [(u & st1 & H1 & [= _ <-])|(e & H1 & _)]; by eapply Hloop.
Qed.

Lemma code_generator_keeps_attributes_witness :
  same_attrs ranges_registered
    (snd (generator__init__ cls_JSCallbackGenerator root0_ranges watch_start 2 None []
            ranges_registered)).
Proof.
  destruct (generator__init__ cls_JSCallbackGenerator root0_ranges watch_start 2 None []
              ranges_registered) as [r st'] eqn:E.
  exact (proj1 (code_generator_keeps_attributes _ _ _ _ _ _ _ _ E)).
Defined.

(** * Properties of [io/state.py], [io/notebook.py] and [template.py] *)

Lemma io_bind_return {A B} (c : IO A) (k : A -> IO B) w a w' :
  c w = (Return a, w') -> io_bind c k w = k a w'.
Proof. intros H. unfold io_bind. by rewrite H. Qed.

Lemma io_bind_throw {A B} (c : IO A) (k : A -> IO B) w e w' :
  c w = (Throw e, w') -> io_bind c k w = (Throw e, w').
Proof. intros H. unfold io_bind. by rewrite H. Qed.

Lemma dict_get_Some_key {V} k (d : list (string * V)) v :
  dict_get k d = Some v -> In k (map fst d).
Proof. intros H. apply dict_get_In in H. by apply (in_map fst) in H. Qed.

(** One guarded stop: it returns, leaves everything but the stopped flags
    alone, and afterwards the server is stopped. *)
Lemma guarded_stop server_id w server p d :
  dict_get server_id (_servers (panel_state w)) = Some (server, p, d) ->
  exists m,
    except_AssertionError (PanelState.stop_indexed server_id) w
      = (Return tt, set_server_stopped m w)
    /\ m !! server = Some true
    /\ (forall s, s <> server -> m !! s = server_stopped w !! s)
    /\ (forall s, server_stopped w !! s = Some true -> m !! s = Some true).
Proof.
  intros Hget. unfold except_AssertionError, PanelState.stop_indexed, server_stop.
  rewrite Hget. destruct (server_stopped w !! server) as [[|]|] eqn:E; simpl.
  - exists (server_stopped w). destruct w; simpl in *. repeat split; auto.
  - exists (<[server := true]> (server_stopped w)). repeat split.
    + apply lookup_insert_eq.
    + intros s Hs. by apply lookup_insert_ne.
    + intros s Hs. destruct (decide (s = server)) as [->|Hne]; [congruence|].
      by rewrite lookup_insert_ne.
  - exists (<[server := true]> (server_stopped w)). repeat split.
    + apply lookup_insert_eq.
    + intros s Hs. by apply lookup_insert_ne.
    + intros s Hs. destruct (decide (s = server)) as [->|Hne]; [congruence|].
      by rewrite lookup_insert_ne.
Qed.

Lemma stop_loop ids : forall w,
  (forall id, In id ids -> In id (map fst (_servers (panel_state w)))) ->
  exists m,
    io_for_each ids (fun id => except_AssertionError (PanelState.stop_indexed id)) w
      = (Return tt, set_server_stopped m w)
    /\ (forall id server p d, In id ids ->
          dict_get id (_servers (panel_state w)) = Some (server, p, d) ->
          m !! server = Some true)
    /\ (forall s, (forall id p d, In id ids ->
                     dict_get id (_servers (panel_state w)) <> Some (s, p, d)) ->
                  m !! s = server_stopped w !! s)
    /\ (forall s, server_stopped w !! s = Some true -> m !! s = Some true).
Proof.
  induction ids as [|id ids IH]; intros w Hin; simpl.
  - exists (server_stopped w). destruct w; simpl. repeat split; auto. intros ? ? ? ? [].
  - destruct (dict_get id (_servers (panel_state w))) as [[[server p] d]|] eqn:Hget.
    2:{ apply dict_get_keys in Hget. destruct Hget. apply Hin. by left. }
    destruct (guarded_stop _ _ _ _ _ Hget) as (m1 & Hrun & Hm1 & Hother & Hmono).
    destruct (IH (set_server_stopped m1 w)) as (m2 & Hrun2 & Hstop2 & Hother2 & Hmono2).
    { intros id' Hid'. simpl. apply Hin. by right. }
    exists m2. simpl in *. split.
    { erewrite io_bind_return by exact Hrun. rewrite Hrun2. by destruct w. }
    split; [|split].
    + intros id' server' p' d' [<-|Hid'] Hget'.
      * rewrite Hget in Hget'. injection Hget' as <- <- <-. by apply Hmono2.
      * by eapply Hstop2.
    + intros s Hs. rewrite Hother2.
      * apply Hother. intros ->. by apply (Hs id p d); [left|].
      * intros id' p' d' Hid'. apply Hs. by right.
    + intros s Hs. by apply Hmono2, Hmono.
Qed.

(** X15 ([state.kill_all_servers], state.py 50-57). Killing all servers
    always returns normally, also when some of the indexed servers were
    stopped before or are indexed twice: afterwards the index is empty,
    every server that was indexed is stopped, a server that was not
    indexed is as it was, and nothing else of the state has changed. *)
Theorem kill_all_servers_stops_every_server (w : world) :
  exists w',
    PanelState.kill_all_servers w = (Return tt, w')
    /\ _servers (panel_state w') = []
    /\ (forall id server p d,
          dict_get id (_servers (panel_state w)) = Some (server, p, d) ->
          server_stopped w' !! server = Some true)
    /\ (forall s, (forall id p d,
                     dict_get id (_servers (panel_state w)) <> Some (s, p, d)) ->
                  server_stopped w' !! s = server_stopped w !! s)
    /\ _curdoc (panel_state w') = _curdoc (panel_state w)
    /\ _hold (panel_state w') = _hold (panel_state w)
    /\ _thread_id (panel_state w') = _thread_id (panel_state w)
    /\ bokeh_curdoc w' = bokeh_curdoc w
    /\ comm_sent w' = comm_sent w.
Proof.
  destruct (stop_loop (map fst (_servers (panel_state w))) w) as (m & Hrun & Hstop & Hother & _).
  { auto. }
  eexists. split.
  { unfold PanelState.kill_all_servers. erewrite io_bind_return by exact Hrun. reflexivity. }
  simpl. split; [done|]. split; [|split; [|done]].
  - intros id server p d Hget. eapply Hstop; [|exact Hget]. by eapply dict_get_Some_key.
  - intros s Hs. apply Hother. intros id p d _. apply Hs.
Qed.

(** X16 ([state.session_args] through [state.curdoc], state.py 64-77).
    Reading the session arguments raises exactly when a document without
    a session context has been set on the state, and then with
    [AttributeError], whatever bokeh's current document is. With no
    document set it never raises: it gives the arguments of bokeh's
    current document if that belongs to a session and the empty
    dictionary otherwise. *)
Theorem session_args_raises_iff (w : world) :
  (forall e, PanelState.session_args w = Throw e <->
             e = Builtin AttributeError
             /\ exists d, _curdoc (panel_state w) = Some d /\ session_context d = None)
  /\ (_curdoc (panel_state w) = None ->
      PanelState.session_args w = Return (default [] (session_context (bokeh_curdoc w))))
  /\ (forall d arguments,
        _curdoc (panel_state w) = Some d -> session_context d = Some arguments ->
        PanelState.session_args w = Return arguments).
Proof.
  unfold PanelState.session_args, PanelState.curdoc.
  destruct (_curdoc (panel_state w)) as [d|] eqn:Hd.
  - destruct (session_context d) as [a|] eqn:Ha.
    + split; [|split]; [|done|].
      * intros e. split; [done|]. intros (_ & d' & [= <-] & Hn). congruence.
      * intros d' a' [= <-] Ha'. congruence.
    + split; [|split]; [|done|].
      * intros e. split; [intros [= <-]; eauto|]. by intros [-> _].
      * intros d' a' [= <-] Ha'. congruence.
  - destruct (session_context (bokeh_curdoc w)) as [a|] eqn:Ha; rewrite ?Ha.
    + split; [|split]; [|done|done].
      intros e. split; [done|]. by intros (_ & d' & [=] & _).
    + split; [|split]; [|done|done].
      intros e. split; [done|]. by intros (_ & d' & [=] & _).
Qed.

(** X17 ([block_comm], notebook.py 273-280). For a body that does not
    itself touch the hold flag: when the body returns, the flag is off
    afterwards, whatever it was before the block; when the body raises,
    the exception leaves the block and the flag stays on. *)
Theorem block_comm_hold_after_exit {A} (body : IO A) (w : world) r w'
    (Hbody : keeps_hold body)
    (Hrun : Notebook.block_comm body w = (r, w')) :
  _hold (panel_state w') = match r with Return _ => false | Throw _ => true end.
Proof.
  unfold Notebook.block_comm, io_bind, io_ret in Hrun. simpl in Hrun.
  destruct (body _) as [[a|e] w1] eqn:Hb; injection Hrun as <- <-; [done|].
  by apply Hbody in Hb.
Qed.

Lemma block_comm_hold_after_exit_witness :
  _hold (panel_state (snd (Notebook.block_comm (io_throw (A := unit) AssertionError)
                                               idle_world))) = true.
Proof.
  refine (block_comm_hold_after_exit (io_throw (A := unit) AssertionError) idle_world
            (Throw AssertionError)
            (snd (Notebook.block_comm (io_throw AssertionError) idle_world)) _ _).
  - intros w r w' [= <- <-]. reflexivity.
  - reflexivity.
Defined.

(** X18 ([block_comm] nested, notebook.py 273-280). An inner block that
    returns releases the hold of the block around it: what follows the
    inner block inside the outer one finds the flag off, where the same
    code directly inside one block finds it on. *)
Theorem inner_block_comm_releases_outer {A} (inner : IO A) (w : world) a w1
    (Hinner : Notebook.block_comm inner
                (set_panel_state (PanelState.set_hold true (panel_state w)) w)
              = (Return a, w1)) :
  fst (Notebook.block_comm (Notebook.block_comm inner ;;~ get_hold) w) = Return false
  /\ fst (Notebook.block_comm get_hold w) = Return true.
Proof.
  split; [|reflexivity].
  unfold Notebook.block_comm at 1. unfold io_bind at 1. simpl.
  unfold io_bind at 1. unfold io_bind at 1. rewrite Hinner.
  unfold Notebook.block_comm, io_bind, io_ret in Hinner. simpl in Hinner.
  destruct (inner _) as [[a'|e] w2]; [|done]. injection Hinner as <- <-.
  reflexivity.
Qed.

Lemma inner_block_comm_releases_outer_witness :
  fst (Notebook.block_comm (Notebook.block_comm (io_ret 0) ;;~ get_hold) idle_world)
    = Return false
  /\ fst (Notebook.block_comm get_hold idle_world) = Return true.
Proof.
  refine (inner_block_comm_releases_outer (io_ret 0) idle_world 0 _ _). reflexivity.
Defined.

Lemma send_loop dumps (bufs : list (string * string)) : forall w,
  io_for_each bufs (fun hp => Notebook.send (Data (dumps (fst hp))) ;;~
                              Notebook.send (Buffers [snd hp])) w
  = (Return tt,
     set_comm_sent
       (comm_sent w ++ flat_map (fun hp => [Data (dumps (fst hp)); Buffers [snd hp]]) bufs)
       w).
Proof.
  induction bufs as [|hp bufs IH]; intros w; simpl.
  - rewrite app_nil_r. by destruct w.
  - unfold io_bind at 1. unfold io_bind at 1. simpl. rewrite IH. simpl.
    by rewrite <- !app_assoc.
Qed.

(** X19 ([push], notebook.py 125-137). A push never fails on its own
    account and only appends to what the comm has sent: nothing when
    there is no diff, and otherwise the header, the metadata and the
    content followed, for each buffer in order, by its serialised header
    and then its payload alone in a buffer list; that is three messages
    and two more for each buffer. *)
Theorem push_sends_framed_message (dumps : string -> string)
    (msg : option Notebook.message) (w : world) :
  let frames :=
    match msg with
    | None => []
    | Some m =>
        [Data (Notebook.header_json m); Data (Notebook.metadata_json m);
         Data (Notebook.content_json m)]
        ++ flat_map (fun hp => [Data (dumps (fst hp)); Buffers [snd hp]])
                    (Notebook.buffers m)
    end in
  Notebook.push dumps msg w = (Return tt, set_comm_sent (comm_sent w ++ frames) w)
  /\ length frames = match msg with
                     | None => 0
                     | Some m => 3 + 2 * length (Notebook.buffers m)
                     end.
Proof.
  destruct msg as [m|]; simpl.
  - split.
    + unfold io_bind at 1. unfold io_bind at 1. unfold io_bind at 1. simpl.
      rewrite send_loop. simpl. by rewrite <- !app_assoc.
    + do 3 f_equal. induction (Notebook.buffers m) as [|hp l IH]; simpl; [done|].
      simpl in IH. rewrite IH. lia.
  - split; [|done]. unfold io_ret. rewrite app_nil_r. by destruct w.
Qed.

Lemma dict_set_fresh {V} k (v : V) d :
  dict_get k d = None -> dict_set k v d = d ++ [(k, v)].
Proof.
  induction d as [|[k' v'] d IH]; simpl; [done|].
  destruct (String.eqb k k'); [done|]. intros H. by rewrite IH.
Qed.

(** X20 ([Template.add_panel], template.py 166-184). On a template whose
    names are distinct and whose first pane shows its repr: adding a
    panel under a name already in use raises [ValueError]; under a new
    name the panel goes to the end of the rendered items, everything
    that was there stays, the names are still distinct, the first pane
    shows the new repr, and the templates and the server are untouched. *)
Theorem add_panel_keeps_names_distinct (panel_of : nat -> nat) (repr1 : nat -> string)
    (name : string) (panel : nat) (t : Template.template)
    (Hok : consistent repr1 t) :
  match Template.add_panel panel_of repr1 name panel t with
  | Ok t' =>
      ~ In name (map fst (Template._render_items t))
      /\ Template._render_items t' = Template._render_items t ++ [(name, panel_of panel)]
      /\ consistent repr1 t'
      /\ Template.template_ t' = Template.template_ t
      /\ Template.nb_template t' = Template.nb_template t
      /\ Template._server t' = Template._server t
      /\ Template.server_info t' = Template.server_info t
      /\ Template.button_name t' = Template.button_name t
  | Raise e =>
      In name (map fst (Template._render_items t))
      /\ exists msg, e = ValueError msg
  end.
Proof.
  destruct Hok as [Hnd Hrepr]. unfold Template.add_panel, dict_mem.
  destruct (dict_get name (Template._render_items t)) as [v|] eqn:Hget.
  - split; [by eapply dict_get_Some_key|eauto].
  - assert (Hnot : ~ In name (map fst (Template._render_items t)))
      by by apply dict_get_keys.
    rewrite (dict_set_fresh _ _ _ Hget). simpl.
    split; [done|]. split; [done|]. split; [|done].
    split; simpl; [|done].
    rewrite map_app. simpl. apply NoDup_ListNoDup, NoDup_app. split; [|split].
    + by apply NoDup_ListNoDup.
    + intros x Hx [->|[]]%list_elem_of_In. apply Hnot. by apply list_elem_of_In.
    + apply NoDup_singleton.
Qed.

Lemma add_panel_keeps_names_distinct_witness :
  consistent sample_repr1 empty_template
  /\ match Template.add_panel id sample_repr1 "A" 3 empty_template with
     | Ok t' => Template._render_items t' = [("A", 3)] /\ consistent sample_repr1 t'
     | Raise _ => False
     end.
Proof.
  assert (Hok : consistent sample_repr1 empty_template).
  { split; [constructor|reflexivity]. }
  split; [exact Hok|].
  pose proof (add_panel_keeps_names_distinct id sample_repr1 "A" 3 empty_template Hok) as H.
  destruct (Template.add_panel id sample_repr1 "A" 3 empty_template) as [t'|e].
  - destruct H as (_ & Hitems & Hc & _). split; [exact Hitems|exact Hc].
  - destruct H as [[] _].
Defined.

Lemma add_panels_distinct panel_of repr1 items : forall t,
  consistent repr1 t ->
  List.NoDup (map fst items) ->
  (forall n, In n (map fst items) -> ~ In n (map fst (Template._render_items t))) ->
  exists t',
    Template.add_panels panel_of repr1 items t = Ok t'
    /\ Template._render_items t'
       = Template._render_items t ++ map (fun ni => (fst ni, panel_of (snd ni))) items
    /\ consistent repr1 t'
    /\ Template.template_ t' = Template.template_ t
    /\ Template.nb_template t' = Template.nb_template t
    /\ Template._server t' = Template._server t
    /\ Template.server_info t' = Template.server_info t
    /\ Template.button_name t' = Template.button_name t.
Proof.
  induction items as [|[name item] items IH]; intros t Hok Hnd Hfresh; simpl.
  - exists t. rewrite app_nil_r. by repeat split; try apply Hok.
  - simpl in Hnd. apply List.NoDup_cons_iff in Hnd as [Hname Hnd].
    assert (Hget : dict_get name (Template._render_items t) = None).
    { apply dict_get_keys, Hfresh. by left. }
    unfold Template.add_panel at 1, dict_mem. rewrite Hget. simpl.
    rewrite (dict_set_fresh _ _ _ Hget).
    match goal with |- context [Template.add_panels _ _ _ ?t1] =>
      destruct (IH t1) as (t' & Hrun & Hitems & Hc & H1 & H2 & H3 & H4 & H5) end.
    + destruct Hok as [Hnd0 _]. split; simpl; [|done].
      rewrite map_app. simpl. apply NoDup_ListNoDup, NoDup_app. split; [|split].
      * by apply NoDup_ListNoDup.
      * intros x Hx [->|[]]%list_elem_of_In. eapply Hfresh; [by left|].
        by apply list_elem_of_In.
      * apply NoDup_singleton.
    + done.
    + intros n Hn. simpl. rewrite map_app. simpl. intros [Hin|[<-|[]]]%in_app_or.
      * eapply Hfresh; [by right|done].
      * done.
    + exists t'. split; [done|]. simpl in *. rewrite Hitems, <- app_assoc.
      split; [done|]. split; [exact Hc|]. by repeat split.
Qed.

(** X21 ([Template.__init__], template.py 59-71). Constructing a
    template from a dictionary of items succeeds and gives a template
    that holds the panel of every item under its name, in order, and
    shows its own repr; a template given as a string is compiled; the
    notebook template is the one given (also the empty string) and the
    main template when none is given; no server is running and the
    button reads [Launch server]. *)
Theorem init_template_holds_every_item (panel_of : nat -> nat) (repr1 : nat -> string)
    (targ nb_arg : Template.template_arg) (items : list (string * nat))
    (Hdict : List.NoDup (map fst items)) :
  exists t,
    Template.__init__ panel_of repr1 targ (Some items) nb_arg = Ok t
    /\ Template._render_items t = map (fun ni => (fst ni, panel_of (snd ni))) items
    /\ consistent repr1 t
    /\ Template.template_ t = Template.compile targ
    /\ Template.nb_template t
       = match nb_arg with
         | Template.ArgNone => Template.compile targ
         | _ => Template.compile nb_arg
         end
    /\ Template._server t = None
    /\ Template.server_info t = ""
    /\ Template.button_name t = "Launch server".
Proof.
  unfold Template.__init__. simpl.
  match goal with |- context [Template.add_panels _ _ _ ?t0] =>
    destruct (add_panels_distinct panel_of repr1 items t0)
      as (t & Hrun & Hitems & Hc & H1 & H2 & H3 & H4 & H5) end.
  - split; simpl; [constructor|reflexivity].
  - done.
  - intros n _ [].
  - exists t. split; [done|]. simpl in *. repeat split; try done; try apply Hc.
    rewrite H2. by destruct nb_arg.
Qed.

Lemma init_template_holds_every_item_witness :
  List.NoDup (map fst [("A", 3); ("B", 4)])
  /\ exists t,
       Template.__init__ id sample_repr1 (Template.ArgString "{{ embed(roots.A) }}")
                         (Some [("A", 3); ("B", 4)]) (Template.ArgString "") = Ok t
       /\ Template._render_items t = [("A", 3); ("B", 4)]
       /\ Template.nb_template t = Some (Template.Compiled "").
Proof.
  assert (Hd : List.NoDup (map fst [("A", 3); ("B", 4)])).
  { simpl. constructor; [intros [H|[]]; discriminate|].
    constructor; [intros []|constructor]. }
  split; [exact Hd|].
  destruct (init_template_holds_every_item id sample_repr1
              (Template.ArgString "{{ embed(roots.A) }}") (Template.ArgString "")
              [("A", 3); ("B", 4)] Hd)
    as (t & Hrun & Hitems & _ & _ & Hnb & _).
  exists t. split; [exact Hrun|]. split; [exact Hitems|exact Hnb].
Defined.

(** X22 (the closure [launch], template.py 77-86). With no server
    running, a first click starts one and shows it; if that server is
    still running at the second click, the click stops it and puts the
    template back exactly as it was before the first. *)
Theorem launch_twice_restores (get_server : IO nat) (info : nat -> string)
    (t : Template.template) (w w1 : world) (server : nat)
    (Hidle : Template._server t = None)
    (Hinfo : Template.server_info t = "")
    (Hname : Template.button_name t = "Launch server")
    (Hget : get_server w = (Return server, w1))
    (Hrunning : server_stopped w1 !! server <> Some true) :
  exists t1,
    Template.launch get_server info t w = (Return tt, t1, w1)
    /\ Template._server t1 = Some server
    /\ Template.button_name t1 = "Stop server"
    /\ Template.server_info t1 = info server
    /\ Template.launch get_server info t1 w1
       = (Return tt, t, set_server_stopped (<[server := true]> (server_stopped w1)) w1).
Proof.
  eexists. split.
  { unfold Template.launch. rewrite Hidle, Hget. reflexivity. }
  simpl. repeat split.
  unfold Template.launch. simpl. unfold server_stop.
  assert (Hd : default false (server_stopped w1 !! server) = false).
  { destruct (server_stopped w1 !! server) as [[|]|]; done. }
  rewrite Hd. unfold Template.set_server. simpl.
  destruct t; simpl in *. by subst.
Qed.

Lemma launch_twice_restores_witness :
  exists t1,
    Template.launch start_server_7 (fun _ => "port 5006") empty_template idle_world
      = (Return tt, t1, snd (start_server_7 idle_world))
    /\ Template._server t1 = Some 7
    /\ fst (Template.launch start_server_7 (fun _ => "port 5006") t1
              (snd (start_server_7 idle_world)))
       = (Return tt, empty_template).
Proof.
  destruct (launch_twice_restores start_server_7 (fun _ => "port 5006") empty_template
              idle_world (snd (start_server_7 idle_world)) 7)
    as (t1 & Hrun & Hs & _ & _ & Hrun2); try reflexivity.
  { simpl. rewrite lookup_insert_eq. discriminate. }
  exists t1. split; [exact Hrun|]. split; [exact Hs|]. by rewrite Hrun2.
Defined.

(** X23 (the closure [launch] with [kill_all_servers], template.py 77-86
    and state.py 50-57). Once the server of a template has been stopped
    from elsewhere, as by [state.kill_all_servers] for an indexed
    server, a click raises [AssertionError] and leaves the template
    holding the stopped server under a button that reads [Launch
    server]; every further click does the same, so the button can no
    longer launch a server. *)
Theorem launch_after_kill_all_servers_raises (get_server : IO nat) (info : nat -> string)
    (t : Template.template) (w w' : world) (server : nat) server_id p d
    (Hserver : Template._server t = Some server)
    (Hindexed : dict_get server_id (_servers (panel_state w)) = Some (server, p, d))
    (Hkill : PanelState.kill_all_servers w = (Return tt, w')) :
  exists t',
    Template.launch get_server info t w' = (Throw AssertionError, t', w')
    /\ Template._server t' = Some server
    /\ Template.button_name t' = "Launch server"
    /\ Template.server_info t' = ""
    /\ Template.launch get_server info t' w' = (Throw AssertionError, t', w').
Proof.
  destruct (stop_loop (map fst (_servers (panel_state w))) w) as (m & Hrun & Hstop & _).
  { auto. }
  assert (Hst : server_stopped w' !! server = Some true).
  { unfold PanelState.kill_all_servers in Hkill.
    erewrite io_bind_return in Hkill by exact Hrun. injection Hkill as <-. simpl.
    eapply Hstop; [|exact Hindexed]. by eapply dict_get_Some_key. }
  eexists. split.
  { unfold Template.launch. rewrite Hserver. unfold server_stop. rewrite Hst. reflexivity. }
  simpl. split; [done|]. split; [reflexivity|]. split; [reflexivity|].
  unfold Template.launch. simpl. rewrite ?Hserver. unfold server_stop. rewrite Hst.
  reflexivity.
Qed.

Lemma launch_after_kill_all_servers_raises_witness :
  exists t',
    Template.launch start_server_7 (fun _ => "port 5006") serving_template
                    (snd (PanelState.kill_all_servers serving_world))
      = (Throw AssertionError, t', snd (PanelState.kill_all_servers serving_world))
    /\ Template._server t' = Some 7
    /\ Template.button_name t' = "Launch server".
Proof.
  destruct (launch_after_kill_all_servers_raises start_server_7 (fun _ => "port 5006")
              serving_template serving_world
              (snd (PanelState.kill_all_servers serving_world)) 7 "srv" 0 [])
    as (t' & Hrun & Hs & Hb & _); try reflexivity.
  exists t'. split; [exact Hrun|]. split; [exact Hs|exact Hb].
Defined.
